(** * CXL-SpecKV: a shallow embedding of the host-side engine

    The development follows the C++ sources of the repository:
    - [FPGACacheEngine]        src/src/fpga_engine/cache_engine.cpp
    - [AddressTranslationUnit] src/src/utils/address_translation.cpp
    - [SpeculativePrefetcher]  src/src/prefetcher/speculative_prefetcher.cpp
    - [CoherenceManager]       src/src/cxl_memory/coherence_manager.cpp
    - [CXLMemoryManager]       src/src/cxl_memory/cxl_memory_manager.cpp

    Machine integers are values of [Z] with the wrap-around of their width
    written out.  [std::unordered_map] is a [gmap], [std::vector] a [list].
    Mutexes are not modelled: every function is the sequential behaviour of
    one call. *)

From Stdlib Require Import ZArith Lia Bool List QArith Qabs.
From Stdlib Require Import SpecFloat PrimFloat.
From stdpp Require Import base option list gmap.

Local Open Scope Z_scope.

(** ** Machine integers *)

Definition two64 : Z := 2 ^ 64.

(** Arithmetic on [uint64_t] / [size_t]. *)
Definition wrap64 (z : Z) : Z := z mod two64.

(** [static_cast<uint8_t>] of an integer. *)
Definition to_uint8 (z : Z) : Z := z mod 256.

(** [static_cast<int8_t>] of an integer: the low byte, read as two's
    complement. *)
Definition to_int8 (z : Z) : Z := (z + 128) mod 256 - 128.

Definition is_int8 (z : Z) : Prop := -128 <= z <= 127.
Definition is_uint8 (z : Z) : Prop := 0 <= z <= 255.

(** ** Single-precision floats

    [float] is IEEE-754 binary32.  Its values and its correctly rounded
    operations are those of [SpecFloat] at precision 24 and maximal exponent
    128; every definition below computes. *)

Module F32.

Definition prec : Z := 24.
Definition emax : Z := 128.

Definition of_Z (z : Z) : spec_float := binary_normalize prec emax z 0 false.
Definition div : spec_float -> spec_float -> spec_float := SFdiv prec emax.
Definition mul : spec_float -> spec_float -> spec_float := SFmul prec emax.
Definition abs : spec_float -> spec_float := SFabs.
(** [a > b]; false when either side is a NaN. *)
Definition gtb (a b : spec_float) : bool := SFltb b a.

(** [std::round]: to the nearest integer, halfway cases away from zero.  The
    result of [std::round] on a finite float is an integer that the float
    type holds exactly, so it is given as a [Z]; [None] for NaN and the
    infinities. *)
Definition round (f : spec_float) : option Z :=
  match f with
  | S754_zero _ => Some 0
  | S754_finite s m e =>
      let mag :=
        if 0 <=? e then Zpos m * 2 ^ e
        else
          let d := 2 ^ (- e) in
          let q := Zpos m / d in
          let r := Zpos m mod d in
          if d <=? 2 * r then q + 1 else q in
      Some (if s then - mag else mag)
  | _ => None
  end.

(** The exact rational value of a finite float (0 for NaN and infinities,
    which no statement below evaluates). *)
Definition to_Q (f : spec_float) : Q :=
  match f with
  | S754_finite s m e =>
      let v :=
        if 0 <=? e then inject_Z (Zpos m * 2 ^ e)
        else Qmake (Zpos m) (Z.to_pos (2 ^ (- e))) in
      if s then Qopp v else v
  | _ => 0%Q
  end.

End F32.

(** [static_cast<int8_t>] of the float [std::round] returned.  Inside the
    range of [int8_t] the conversion is exact.  Outside of it the C++
    standard leaves the conversion undefined; the model takes what the
    compilers for x86-64 emit: [cvttss2si] to a 32-bit integer (the
    "integer indefinite" value 0x80000000 when that overflows or the operand
    is a NaN), of which the low byte is kept. *)
Definition static_cast_int8 (r : option Z) : Z :=
  match r with
  | Some z => if (- 2 ^ 31 <=? z) && (z <? 2 ^ 31) then to_int8 z else 0
  | None => 0
  end.

(** ** FPGACacheEngine: the compression pipeline *)

Module FPGACacheEngine.

(** *** Scale and quantize (cache_engine.cpp:172-196, 275-284) *)

(** The running maximum of [compute_scale_factor]. *)
Definition max_abs (data : list spec_float) : spec_float :=
  fold_left
    (fun max_val val =>
       let abs_val := F32.abs val in
       if F32.gtb abs_val max_val then abs_val else max_val)
    data (S754_zero false).

Definition compute_scale_factor (data : list spec_float) : spec_float :=
  let max_val := max_abs data in
  if F32.gtb max_val (S754_zero false)
  then F32.div max_val (F32.of_Z 127)
  else F32.of_Z 1.

(** One iteration of the loop of [quantize_to_int8]: the rounded value is
    first converted to [int8_t], and that byte is then widened to [int] and
    clamped. *)
Definition quantize_one (scale x : spec_float) : Z :=
  let scaled := F32.div x scale in
  let quantized_val :=
    static_cast_int8 (F32.round (F32.mul scaled (F32.of_Z 127))) in
  to_int8 (Z.max (-128) (Z.min 127 quantized_val)).

Definition quantize_to_int8 (data : list spec_float) (scale : spec_float)
  : list Z :=
  map (quantize_one scale) data.

Definition dequantize_one (scale : spec_float) (q : Z) : spec_float :=
  let scaled := F32.div (F32.of_Z q) (F32.of_Z 127) in
  F32.mul scaled scale.

Definition dequantize_from_int8 (data : list Z) (scale : spec_float)
  : list spec_float :=
  map (dequantize_one scale) data.

(** *** Run-length coding (cache_engine.cpp:213-258) *)

(** The body of the [for] loop of [run_length_encode], from index 1 on:
    [rle] is the output so far, [current_val] and [count] the open run. *)
Fixpoint rle_loop (data : list Z) (rle : list Z) (current_val count : Z)
  : list Z :=
  match data with
  | [] => rle ++ [to_uint8 current_val; to_uint8 count]
  | d :: data' =>
      if (d =? current_val) && (count <? 255)
      then rle_loop data' rle current_val (count + 1)
      else rle_loop data' (rle ++ [to_uint8 current_val; to_uint8 count]) d 1
  end.

Definition run_length_encode (data : list Z) : list Z :=
  match data with
  | [] => []
  | d0 :: data' => rle_loop data' [] d0 1
  end.

(** [run_length_decode]: pairs are read two bytes at a time; a trailing
    unpaired byte stops the loop ([i + 1 >= size]: [break]). *)
Fixpoint rld_loop (rle_data : list Z) (decoded : list Z) : list Z :=
  match rle_data with
  | value :: count :: rest =>
      rld_loop rest (decoded ++ replicate (Z.to_nat count) (to_int8 value))
  | _ => decoded
  end.

Definition run_length_decode (rle_data : list Z) : list Z :=
  rld_loop rle_data [].

(** The count bytes of a run-length stream: every second byte. *)
Fixpoint rle_counts (rle_data : list Z) : list Z :=
  match rle_data with
  | _ :: count :: rest => count :: rle_counts rest
  | _ => []
  end.

(** *** Delta coding (cache_engine.cpp:198-211, 260-273) *)

(** [delta[i] = data[i] - data[i-1]], stored into an [int8_t]. *)
Fixpoint delta_encode_from (prev : Z) (data : list Z) : list Z :=
  match data with
  | [] => []
  | d :: data' => to_int8 (d - prev) :: delta_encode_from d data'
  end.

Definition delta_encode (data : list Z) : list Z :=
  match data with
  | [] => []
  | d0 :: data' => d0 :: delta_encode_from d0 data'
  end.

(** [decoded[i] = decoded[i-1] + delta[i]], stored into an [int8_t]. *)
Fixpoint delta_decode_from (prev : Z) (delta_data : list Z) : list Z :=
  match delta_data with
  | [] => []
  | d :: rest => let x := to_int8 (prev + d) in x :: delta_decode_from x rest
  end.

Definition delta_decode (delta_data : list Z) : list Z :=
  match delta_data with
  | [] => []
  | d0 :: rest => d0 :: delta_decode_from d0 rest
  end.

(** *** The two pipelines (cache_engine.cpp:40-116) *)

Record CompressedData := {
  scale_factor : spec_float;
  rle_data : list Z;            (* std::vector<int8_t> *)
  original_size : Z;
  compressed_size : Z
}.

(** [compress].  The block that updates [stats_] (running averages of the
    ratio and of the measured latency) does not take part in the value
    returned and is left out.  The bytes of the run-length coder are stored
    as [int8_t]. *)
Definition compress (kv_data : list spec_float)
    (num_tokens hidden_dim layer_id : Z) : CompressedData :=
  let scale := compute_scale_factor kv_data in
  let quantized := quantize_to_int8 kv_data scale in
  let delta_encoded := delta_encode quantized in
  let rle_encoded := run_length_encode delta_encoded in
  let rle := map to_int8 rle_encoded in
  {| scale_factor := scale;
     rle_data := rle;
     original_size := wrap64 (Z.of_nat (length kv_data) * 4);
     compressed_size := Z.of_nat (length rle) |}.

(** [decompress]: the stored bytes are read back as [uint8_t]. *)
Definition decompress (compressed : CompressedData)
    (num_tokens hidden_dim : Z) : list spec_float :=
  let rle := map to_uint8 (rle_data compressed) in
  let delta_decoded := run_length_decode rle in
  let quantized := delta_decode delta_decoded in
  dequantize_from_int8 quantized (scale_factor compressed).

(** The quantizer written after the words of the specification:
    [clamp(round((x / s) * 127), -128, 127)], the clamp applied to the
    rounded number itself. *)
Definition quantize_clamped (scale x : spec_float) : Z :=
  match F32.round (F32.mul (F32.div x scale) (F32.of_Z 127)) with
  | Some r => Z.max (-128) (Z.min 127 r)
  | None => 0
  end.

(** The bound of the round trip, on the exact values of the floats:
    [|x - y| <= m / 127]. *)
Definition within_step (m x y : spec_float) : Prop :=
  (Qabs (F32.to_Q x - F32.to_Q y) <= F32.to_Q m / 127)%Q.

Definition within_stepb (m x y : spec_float) : bool :=
  Qle_bool (Qabs (F32.to_Q x - F32.to_Q y)) (F32.to_Q m / 127).

Definition roundtrip_within_step (kv_data : list spec_float)
    (num_tokens hidden_dim layer_id : Z) : Prop :=
  Forall2 (within_step (max_abs kv_data)) kv_data
    (decompress (compress kv_data num_tokens hidden_dim layer_id)
       num_tokens hidden_dim).

End FPGACacheEngine.

(** ** AddressTranslationUnit (address_translation.cpp) *)

Module AddressTranslationUnit.

Record TLBEntry := {
  virtual_page : Z;
  physical_page : Z;
  valid : bool
}.

Record TLBStatistics := {
  hits : Z;
  misses : Z
}.

Record t := {
  tlb_ : list TLBEntry;
  tlb_size_ : Z;
  stats_ : TLBStatistics
}.

(** The constructor: [tlb_.resize(tlb_size_)] value-initialises the entries,
    the loop clears [valid], [reset_statistics] zeroes the counters. *)
Definition new (tlb_size : Z) : t :=
  {| tlb_ := replicate (Z.to_nat tlb_size)
               {| virtual_page := 0; physical_page := 0; valid := false |};
     tlb_size_ := tlb_size;
     stats_ := {| hits := 0; misses := 0 |} |}.

(** [~0xFFFULL] *)
Definition page_mask : Z := 0xFFFFFFFFFFFFF000.

(** [page_walk]: the direct mapping of the whole address, offset included. *)
Definition page_walk (virtual_addr : Z) : Z :=
  wrap64 (0x4000000000 + Z.land virtual_addr 0xFFFFFFFFFFFF).

(** [translate] returns the physical address and the new state; [None]
    stands for the division by zero of a unit built with [tlb_size = 0]. *)
Definition translate (virtual_addr : Z) (u : t) : option (Z * t) :=
  let virtual_page_ := Z.land virtual_addr page_mask in
  let page_offset := Z.land virtual_addr 0xFFF in
  if tlb_size_ u =? 0 then None else
  let tlb_index := Z.to_nat (Z.shiftr virtual_page_ 12 mod tlb_size_ u) in
  entry ← tlb_ u !! tlb_index;
  if valid entry && (virtual_page entry =? virtual_page_) then
    (* TLB hit *)
    Some (wrap64 (physical_page entry + page_offset),
          {| tlb_ := tlb_ u; tlb_size_ := tlb_size_ u;
             stats_ := {| hits := wrap64 (hits (stats_ u) + 1);
                          misses := misses (stats_ u) |} |})
  else
    (* TLB miss - perform page walk *)
    let physical_page_ := page_walk virtual_addr in
    let entry' := {| virtual_page := virtual_page_;
                     physical_page := Z.land physical_page_ page_mask;
                     valid := true |} in
    Some (wrap64 (physical_page_ + page_offset),
          {| tlb_ := <[tlb_index := entry']> (tlb_ u);
             tlb_size_ := tlb_size_ u;
             stats_ := {| hits := hits (stats_ u);
                          misses := wrap64 (misses (stats_ u) + 1) |} |}).

(** [invalidate]: the slot is cleared when its tag is the page of the
    address, whether or not the entry was valid. *)
Definition invalidate (virtual_addr : Z) (u : t) : option t :=
  let virtual_page_ := Z.land virtual_addr page_mask in
  if tlb_size_ u =? 0 then None else
  let tlb_index := Z.to_nat (Z.shiftr virtual_page_ 12 mod tlb_size_ u) in
  entry ← tlb_ u !! tlb_index;
  if virtual_page entry =? virtual_page_ then
    Some {| tlb_ := <[tlb_index := {| virtual_page := virtual_page entry;
                                      physical_page := physical_page entry;
                                      valid := false |}]> (tlb_ u);
            tlb_size_ := tlb_size_ u;
            stats_ := stats_ u |}
  else Some u.

Definition invalidate_all (u : t) : t :=
  {| tlb_ := map (λ entry, {| virtual_page := virtual_page entry;
                              physical_page := physical_page entry;
                              valid := false |}) (tlb_ u);
     tlb_size_ := tlb_size_ u;
     stats_ := stats_ u |}.

Definition reset_statistics (u : t) : t :=
  {| tlb_ := tlb_ u; tlb_size_ := tlb_size_ u;
     stats_ := {| hits := 0; misses := 0 |} |}.

(** The units a program can hold: built by the constructor, then changed by
    the public interface only. *)
Inductive reachable : t → Prop :=
| reachable_new tlb_size : reachable (new tlb_size)
| reachable_translate va u r u' :
    0 <= va < two64 →
    reachable u → translate va u = Some (r, u') → reachable u'
| reachable_invalidate va u u' :
    0 <= va < two64 →
    reachable u → invalidate va u = Some u' → reachable u'
| reachable_invalidate_all u : reachable u → reachable (invalidate_all u)
| reachable_reset_statistics u : reachable u → reachable (reset_statistics u).

(** What every valid entry of a reachable unit satisfies: the tag is a page
    address, and the physical page is the direct mapping of the tag. *)
Definition entry_mapped (entry : TLBEntry) : Prop :=
  valid entry = true →
  0 <= virtual_page entry < two64
  ∧ virtual_page entry mod 4096 = 0
  ∧ physical_page entry = 0x4000000000 + virtual_page entry mod 2 ^ 48.

(** The invariant of the unit: one slot per index, every valid slot
    mapped. *)
Definition unit_ok (u : t) : Prop :=
  length (tlb_ u) = Z.to_nat (tlb_size_ u) ∧ Forall entry_mapped (tlb_ u).

End AddressTranslationUnit.

(** [FPGACacheEngine::translate_address] (cache_engine.cpp:118-140), the
    second translation cache of the repository, over the same kind of
    entries. *)
Module EngineTLB.

Record TLBEntry := {
  virtual_addr : Z;
  physical_addr : Z;
  valid : bool
}.

Definition new (tlb_size : Z) : list TLBEntry :=
  replicate (Z.to_nat tlb_size)
    {| virtual_addr := 0; physical_addr := 0; valid := false |}.

(** [tlb_size_] is the constant 1024 set by the constructor. *)
Definition translate_address (va : Z) (tlb : list TLBEntry)
  : option (Z * list TLBEntry) :=
  let tlb_index := Z.to_nat (Z.shiftr va 12 mod 1024) in
  entry ← tlb !! tlb_index;
  if valid entry
     && (virtual_addr entry =? Z.land va AddressTranslationUnit.page_mask)
  then Some (wrap64 (physical_addr entry + Z.land va 0xFFF), tlb)
  else
    let pa := wrap64 (0x4000000000 + Z.land va 0xFFFFFFFFFFFF) in
    let entry' :=
      {| virtual_addr := Z.land va AddressTranslationUnit.page_mask;
         physical_addr := Z.land pa AddressTranslationUnit.page_mask;
         valid := true |} in
    Some (pa, <[tlb_index := entry']> tlb).

(** The caches the engine can hold: 1024 invalid entries from the
    constructor, then changed by [translate_address] only. *)
Inductive reachable : list TLBEntry → Prop :=
| reachable_new : reachable (new 1024)
| reachable_translate va tlb r tlb' :
    0 <= va < two64 →
    reachable tlb → translate_address va tlb = Some (r, tlb') →
    reachable tlb'.

Definition entry_mapped (entry : TLBEntry) : Prop :=
  valid entry = true →
  0 <= virtual_addr entry < two64
  ∧ virtual_addr entry mod 4096 = 0
  ∧ physical_addr entry = 0x4000000000 + virtual_addr entry mod 2 ^ 48.

Definition tlb_ok (tlb : list TLBEntry) : Prop :=
  length tlb = 1024%nat ∧ Forall entry_mapped tlb.

End EngineTLB.

(** ** SpeculativePrefetcher: the adaptive depth
    (speculative_prefetcher.cpp:99-124, 144-147)

    [double] is IEEE-754 binary64, the type of Rocq's primitive floats. *)

Module SpeculativePrefetcher.

(** The members the adaptive-depth controller reads and writes. *)
Record t := {
  prefetch_depth_ : Z;
  adaptive_depth_ : Z;                  (* std::atomic<size_t> *)
  accuracy_history_ : list float;       (* std::vector<double> *)
  accuracy_window_size_ : Z
}.

Definition new (prefetch_depth : Z) : t :=
  {| prefetch_depth_ := prefetch_depth;
     adaptive_depth_ := prefetch_depth;
     accuracy_history_ := [];
     accuracy_window_size_ := 100 |}.

Definition with_depth (d : Z) (p : t) : t :=
  {| prefetch_depth_ := prefetch_depth_ p;
     adaptive_depth_ := d;
     accuracy_history_ := accuracy_history_ p;
     accuracy_window_size_ := accuracy_window_size_ p |}.

(** The literals [0.95] and [0.85], as the binary64 values nearest to
    them. *)
Definition accuracy_high : float := 0x1.e666666666666p-1%float.
Definition accuracy_low : float := 0x1.b333333333333p-1%float.

(** The mean of the last ten entries, summed in index order from [0.0]. *)
Definition recent_accuracy (history : list float) : float :=
  PrimFloat.div
    (fold_left PrimFloat.add (drop (length history - 10)%nat history)
       0%float)
    10%float.

Definition update_prediction_accuracy (request_id : Z) (was_correct : bool)
    (p : t) : t :=
  let pushed :=
    accuracy_history_ p ++ [if was_correct then 1%float else 0%float] in
  let history :=
    if accuracy_window_size_ p <? Z.of_nat (length pushed)
    then tail pushed else pushed in
  let p' := {| prefetch_depth_ := prefetch_depth_ p;
               adaptive_depth_ := adaptive_depth_ p;
               accuracy_history_ := history;
               accuracy_window_size_ := accuracy_window_size_ p |} in
  if 10 <=? Z.of_nat (length history) then
    let acc := recent_accuracy history in
    if PrimFloat.ltb accuracy_high acc && (adaptive_depth_ p' <? 8)
    then with_depth (wrap64 (adaptive_depth_ p' + 1)) p'
    else if PrimFloat.ltb acc accuracy_low && (2 <? adaptive_depth_ p')
    then with_depth (wrap64 (adaptive_depth_ p' - 1)) p'
    else p'
  else p'.

Definition get_adaptive_depth (p : t) : Z := adaptive_depth_ p.

(** [n] calls in a row with the same observation. *)
Definition feed (was_correct : bool) (n : nat) (p : t) : t :=
  Nat.iter n (update_prediction_accuracy 0 was_correct) p.

Definition set_prefetch_depth (depth : Z) (p : t) : t :=
  {| prefetch_depth_ := depth;
     adaptive_depth_ := depth;
     accuracy_history_ := accuracy_history_ p;
     accuracy_window_size_ := accuracy_window_size_ p |}.

(** An observation as [update_prediction_accuracy] stores it. *)
Definition observation (was_correct : bool) : float :=
  if was_correct then 1%float else 0%float.

(** The number of correct observations in a list. *)
Definition correct_among (obs : list bool) : Z :=
  Z.of_nat (length (filter (λ b, b = true) obs)).

(** *** The issue path (speculative_prefetcher.cpp:25-97, 153-185) *)

(** [compute_kv_address]: the three arguments are [uint32_t], widened to
    64 bits before they are shifted. *)
Definition compute_kv_address (req_id layer_id position : Z) : Z :=
  Z.lor (Z.lor (wrap64 (Z.shiftl req_id 32)) (wrap64 (Z.shiftl layer_id 16)))
    position.

Record PrefetchRequest := {
  virtual_addr : Z;
  layer_id : Z;
  predicted_token_id : Z;
  confidence : spec_float;
  timestamp : Z
}.

(** The queue of outstanding requests, front first, and the counters of
    [PrefetchStatistics] that the code writes; the running average of the
    measured latency is left out. *)
Record issue_state := {
  outstanding_prefetches_ : list PrefetchRequest;
  total_prefetches : Z;
  mispredictions : Z
}.

Definition new_issue_state : issue_state :=
  {| outstanding_prefetches_ := []; total_prefetches := 0;
     mispredictions := 0 |}.

(** [issue_dma_prefetch]: push, then pop the front when the queue holds more
    than 16. *)
Definition issue_dma_prefetch (req : PrefetchRequest)
    (queue : list PrefetchRequest) : list PrefetchRequest :=
  let pushed := queue ++ [req] in
  if 16 <? Z.of_nat (length pushed) then tail pushed else pushed.

Definition is_already_prefetched (va : Z) (queue : list PrefetchRequest)
  : bool :=
  existsb (λ req, virtual_addr req =? va) queue.

Definition handle_misprediction (actual_token : Z) (predicted_tokens : list Z)
    (st : issue_state) : issue_state :=
  if bool_decide (actual_token ∈ predicted_tokens) then st
  else {| outstanding_prefetches_ := outstanding_prefetches_ st;
          total_prefetches := total_prefetches st;
          mispredictions := wrap64 (mispredictions st + 1) |}.

End SpeculativePrefetcher.

(** ** CoherenceManager (coherence_manager.cpp, coherence_manager.h) *)

Module CoherenceManager.

Inductive CoherenceState := INVALID | SHARED | EXCLUSIVE | MODIFIED.
Inductive MemoryTier := L1_GPU | L2_PREFETCH | L3_CXL.
Inductive CoherenceOp := READ | WRITE | INVALIDATE | WRITEBACK | FLUSH.

Global Instance CoherenceState_eq_dec : EqDecision CoherenceState.
Proof. solve_decision. Defined.
Global Instance MemoryTier_eq_dec : EqDecision MemoryTier.
Proof. solve_decision. Defined.

Record DirectoryEntry := {
  cache_line_addr : Z;
  state : CoherenceState;
  tier : MemoryTier;
  last_access_time : Z;
  access_count : Z;               (* uint32_t *)
  pending_operation : bool
}.

(** The default constructor of [DirectoryEntry], with the address
    [get_or_create_entry] stores in it. *)
Definition fresh_entry (addr : Z) : DirectoryEntry :=
  {| cache_line_addr := addr; state := INVALID; tier := L3_CXL;
     last_access_time := 0; access_count := 0; pending_operation := false |}.

Record Statistics := {
  total_reads : Z;
  total_writes : Z;
  coherence_ops : Z;
  invalidations_sent : Z;
  writebacks_performed : Z;
  directory_hits : Z;
  directory_misses : Z
}.

Definition zero_statistics : Statistics :=
  {| total_reads := 0; total_writes := 0; coherence_ops := 0;
     invalidations_sent := 0; writebacks_performed := 0;
     directory_hits := 0; directory_misses := 0 |}.

(** The manager.  [driver_] is [true] for a non-null [shared_ptr]; it is set
    by the constructor and never assigned again.  [transport_] is the trace
    of the calls of [send_coherence_op_to_fpga], oldest first, each with the
    result it returned: the record of what the manager asked of the
    transport. *)
Record t := {
  driver_ : bool;
  cache_line_size_ : Z;
  directory_ : gmap Z DirectoryEntry;
  stats_ : Statistics;
  pending_ops_ : Z;               (* std::atomic<uint32_t> *)
  transport_ : list (CoherenceOp * Z * bool)
}.

Definition new (driver : bool) (cache_line_size : Z) : t :=
  {| driver_ := driver; cache_line_size_ := cache_line_size;
     directory_ := ∅; stats_ := zero_statistics; pending_ops_ := 0;
     transport_ := [] |}.

Definition set_directory (d : gmap Z DirectoryEntry) (m : t) : t :=
  {| driver_ := driver_ m; cache_line_size_ := cache_line_size_ m;
     directory_ := d; stats_ := stats_ m; pending_ops_ := pending_ops_ m;
     transport_ := transport_ m |}.

Definition set_stats (s : Statistics) (m : t) : t :=
  {| driver_ := driver_ m; cache_line_size_ := cache_line_size_ m;
     directory_ := directory_ m; stats_ := s; pending_ops_ := pending_ops_ m;
     transport_ := transport_ m |}.

Definition set_pending_ops (p : Z) (m : t) : t :=
  {| driver_ := driver_ m; cache_line_size_ := cache_line_size_ m;
     directory_ := directory_ m; stats_ := stats_ m; pending_ops_ := p;
     transport_ := transport_ m |}.

Definition record_call (op : CoherenceOp) (addr : Z) (ok : bool) (m : t) : t :=
  {| driver_ := driver_ m; cache_line_size_ := cache_line_size_ m;
     directory_ := directory_ m; stats_ := stats_ m;
     pending_ops_ := pending_ops_ m;
     transport_ := transport_ m ++ [(op, addr, ok)] |}.

(** Updates of one entry through the pointer [get_entry] returned. *)
Definition with_state (st : CoherenceState) (e : DirectoryEntry)
  : DirectoryEntry :=
  {| cache_line_addr := cache_line_addr e; state := st; tier := tier e;
     last_access_time := last_access_time e;
     access_count := access_count e;
     pending_operation := pending_operation e |}.

Definition with_tier (ti : MemoryTier) (e : DirectoryEntry) : DirectoryEntry :=
  {| cache_line_addr := cache_line_addr e; state := state e; tier := ti;
     last_access_time := last_access_time e;
     access_count := access_count e;
     pending_operation := pending_operation e |}.

Definition with_access (time count : Z) (e : DirectoryEntry)
  : DirectoryEntry :=
  {| cache_line_addr := cache_line_addr e; state := state e; tier := tier e;
     last_access_time := time; access_count := count;
     pending_operation := pending_operation e |}.

(** [addr & ~(cache_line_size_ - 1)] on 64 bits. *)
Definition align_to_cache_line (m : t) (addr : Z) : Z :=
  Z.land addr (Z.lxor (wrap64 (cache_line_size_ m - 1)) (two64 - 1)).

Definition get_entry (addr : Z) (m : t) : option DirectoryEntry :=
  directory_ m !! addr.

(** [get_or_create_entry]: the entry, and the manager in which it exists. *)
Definition get_or_create_entry (addr : Z) (m : t) : DirectoryEntry * t :=
  match directory_ m !! addr with
  | Some e => (e, m)
  | None =>
      let e := fresh_entry addr in
      (e, set_directory (<[addr := e]> (directory_ m)) m)
  end.

Definition incr (z : Z) : Z := wrap64 (z + 1).

Definition update_statistics (op : CoherenceOp) (hit : bool) (m : t) : t :=
  let s := stats_ m in
  let count_hit (s : Statistics) :=
    {| total_reads := total_reads s; total_writes := total_writes s;
       coherence_ops := coherence_ops s;
       invalidations_sent := invalidations_sent s;
       writebacks_performed := writebacks_performed s;
       directory_hits := if hit then incr (directory_hits s)
                         else directory_hits s;
       directory_misses := if hit then directory_misses s
                           else incr (directory_misses s) |} in
  match op with
  | READ =>
      set_stats (count_hit
        {| total_reads := incr (total_reads s);
           total_writes := total_writes s; coherence_ops := coherence_ops s;
           invalidations_sent := invalidations_sent s;
           writebacks_performed := writebacks_performed s;
           directory_hits := directory_hits s;
           directory_misses := directory_misses s |}) m
  | WRITE =>
      set_stats (count_hit
        {| total_reads := total_reads s;
           total_writes := incr (total_writes s);
           coherence_ops := coherence_ops s;
           invalidations_sent := invalidations_sent s;
           writebacks_performed := writebacks_performed s;
           directory_hits := directory_hits s;
           directory_misses := directory_misses s |}) m
  | INVALIDATE | WRITEBACK | FLUSH =>
      set_stats
        {| total_reads := total_reads s; total_writes := total_writes s;
           coherence_ops := incr (coherence_ops s);
           invalidations_sent := invalidations_sent s;
           writebacks_performed := writebacks_performed s;
           directory_hits := directory_hits s;
           directory_misses := directory_misses s |} m
  end.

(** [stats_.invalidations_sent += n] and [stats_.writebacks_performed += n],
    written directly on [stats_]. *)
Definition add_invalidations_sent (n : Z) (m : t) : t :=
  let s := stats_ m in
  set_stats
    {| total_reads := total_reads s; total_writes := total_writes s;
       coherence_ops := coherence_ops s;
       invalidations_sent := wrap64 (invalidations_sent s + n);
       writebacks_performed := writebacks_performed s;
       directory_hits := directory_hits s;
       directory_misses := directory_misses s |} m.

Definition add_writebacks_performed (n : Z) (m : t) : t :=
  let s := stats_ m in
  set_stats
    {| total_reads := total_reads s; total_writes := total_writes s;
       coherence_ops := coherence_ops s;
       invalidations_sent := invalidations_sent s;
       writebacks_performed := wrap64 (writebacks_performed s + n);
       directory_hits := directory_hits s;
       directory_misses := directory_misses s |} m.

(** [wait_for_fpga_completion] "assume[s] immediate completion". *)
Definition wait_for_fpga_completion : bool := true.

(** [send_coherence_op_to_fpga]: the transport call.  It fails, before
    anything else is done, when there is no driver. *)
Definition send_coherence_op_to_fpga (op : CoherenceOp) (addr : Z) (m : t)
  : bool * t :=
  if negb (driver_ m) then (false, record_call op addr false m)
  else
    let m1 := set_pending_ops ((pending_ops_ m + 1) mod 2 ^ 32) m in
    let success := wait_for_fpga_completion in
    let m2 := set_pending_ops ((pending_ops_ m1 - 1) mod 2 ^ 32) m1 in
    let m3 := update_statistics op true m2 in
    (success, record_call op addr success m3).

Definition is_valid_state (st : CoherenceState) : bool :=
  match st with
  | SHARED | EXCLUSIVE | MODIFIED => true
  | INVALID => false
  end.

(** [request_read].  [now] is the reading of the steady clock. *)
Definition request_read (addr size now : Z) (m : t) : bool * t :=
  let line := align_to_cache_line m addr in
  match get_entry line m with
  | Some entry =>
      if is_valid_state (state entry) then
        (* Cache hit - data is already valid *)
        let m1 := update_statistics READ true m in
        let entry' :=
          with_access now ((access_count entry + 1) mod 2 ^ 32) entry in
        (true, set_directory (<[line := entry']> (directory_ m1)) m1)
      else
        let m1 := update_statistics READ false m in
        let '(success, m2) := send_coherence_op_to_fpga READ line m1 in
        if success then
          let '(new_entry, m3) := get_or_create_entry line m2 in
          let entry' :=
            with_access now 1 (with_tier L1_GPU (with_state SHARED new_entry)) in
          (true, set_directory (<[line := entry']> (directory_ m3)) m3)
        else (false, m2)
  | None =>
      let m1 := update_statistics READ false m in
      let '(success, m2) := send_coherence_op_to_fpga READ line m1 in
      if success then
        let '(new_entry, m3) := get_or_create_entry line m2 in
        let entry' :=
          with_access now 1 (with_tier L1_GPU (with_state SHARED new_entry)) in
        (true, set_directory (<[line := entry']> (directory_ m3)) m3)
      else (false, m2)
  end.

Definition request_write (addr size now : Z) (m : t) : bool * t :=
  let line := align_to_cache_line m addr in
  let entry := get_entry line m in
  let m1 :=
    match entry with
    | Some e =>
        if decide (state e = SHARED)
        then add_invalidations_sent 1 (update_statistics INVALIDATE false m)
        else m
    | None => m
    end in
  let m2 := update_statistics WRITE (bool_decide (is_Some entry)) m1 in
  let '(success, m3) := send_coherence_op_to_fpga WRITE line m2 in
  if success then
    let '(new_entry, m4) := get_or_create_entry line m3 in
    let entry' :=
      with_access now ((access_count new_entry + 1) mod 2 ^ 32)
        (with_tier L1_GPU (with_state MODIFIED new_entry)) in
    (true, set_directory (<[line := entry']> (directory_ m4)) m4)
  else (false, m3).

Definition invalidate (addr : Z) (m : t) : bool * t :=
  let line := align_to_cache_line m addr in
  match get_entry line m with
  | None => (true, m)            (* Already invalid *)
  | Some entry =>
      let m1 :=
        if decide (state entry = MODIFIED)
        then add_writebacks_performed 1 m else m in
      (* Mark as invalid *)
      let m2 :=
        set_directory (<[line := with_state INVALID entry]> (directory_ m1))
          m1 in
      (* Send invalidation to FPGA *)
      let '(success, m3) := send_coherence_op_to_fpga INVALIDATE line m2 in
      (success, add_invalidations_sent 1 m3)
  end.

Definition writeback (addr size : Z) (m : t) : bool * t :=
  let line := align_to_cache_line m addr in
  match get_entry line m with
  | Some entry =>
      if decide (state entry = MODIFIED) then
        let '(success, m1) := send_coherence_op_to_fpga WRITEBACK line m in
        if success then
          let entry' := with_tier L3_CXL (with_state SHARED entry) in
          (true,
           add_writebacks_performed 1
             (set_directory (<[line := entry']> (directory_ m1)) m1))
        else (false, m1)
      else (true, m)             (* Nothing to writeback *)
  | None => (true, m)
  end.

(** One iteration of the loop of [flush_all] at the key [addr]; the result
    of the transport call is dropped. *)
Definition flush_step (acc : t * Z) (kv : Z * DirectoryEntry) : t * Z :=
  let '(m, flushed) := acc in
  match directory_ m !! kv.1 with
  | Some entry =>
      if decide (state entry = MODIFIED) then
        let '(_, m1) := send_coherence_op_to_fpga WRITEBACK kv.1 m in
        let entry' := with_tier L3_CXL (with_state SHARED entry) in
        (set_directory (<[kv.1 := entry']> (directory_ m1)) m1, flushed + 1)
      else (m, flushed)
  | None => (m, flushed)
  end.

(** What [flush_all] and [batch_writeback] make of an entry. *)
Definition flushed (entry : DirectoryEntry) : DirectoryEntry :=
  if decide (state entry = MODIFIED)
  then with_tier L3_CXL (with_state SHARED entry) else entry.

(** [flush_all] walks the whole directory; the order in which an
    [unordered_map] is walked is not specified, [map_to_list] fixes one. *)
Definition flush_all (m : t) : bool * t :=
  let '(m', flushed) := foldl flush_step (m, 0) (map_to_list (directory_ m)) in
  (true, add_writebacks_performed flushed m').

Definition get_state (addr : Z) (m : t) : CoherenceState :=
  match get_entry (align_to_cache_line m addr) m with
  | Some entry => state entry
  | None => INVALID
  end.

Definition get_tier (addr : Z) (m : t) : MemoryTier :=
  match get_entry (align_to_cache_line m addr) m with
  | Some entry => tier entry
  | None => L3_CXL
  end.

Definition promote_to_l1 (addr : Z) (m : t) : bool * t :=
  let line := align_to_cache_line m addr in
  let '(entry, m1) := get_or_create_entry line m in
  if decide (tier entry = L1_GPU) then (true, m1)
  else
    let '(success, m2) := send_coherence_op_to_fpga READ line m1 in
    if success
    then (true,
          set_directory (<[line := with_tier L1_GPU entry]> (directory_ m2)) m2)
    else (false, m2).

Definition demote_to_l3 (addr : Z) (m : t) : bool * t :=
  let line := align_to_cache_line m addr in
  match get_entry line m with
  | None => (true, m)
  | Some entry =>
      if decide (tier entry = L3_CXL) then (true, m)
      else
        let '(entry1, m1) :=
          if decide (state entry = MODIFIED) then
            let '(_, m') := send_coherence_op_to_fpga WRITEBACK line m in
            (with_state SHARED entry, add_writebacks_performed 1 m')
          else (entry, m) in
        (true,
         set_directory (<[line := with_tier L3_CXL entry1]> (directory_ m1)) m1)
  end.

Definition update_tier (addr : Z) (new_tier : MemoryTier) (m : t) : t :=
  let line := align_to_cache_line m addr in
  let '(entry, m1) := get_or_create_entry line m in
  set_directory (<[line := with_tier new_tier entry]> (directory_ m1)) m1.

Definition batch_invalidate_step (acc : bool * t) (addr : Z) : bool * t :=
  let '(all_success, m) := acc in
  let line := align_to_cache_line m addr in
  match get_entry line m with
  | Some entry =>
      let m1 :=
        set_directory (<[line := with_state INVALID entry]> (directory_ m)) m in
      let '(success, m2) := send_coherence_op_to_fpga INVALIDATE line m1 in
      (all_success && success, m2)
  | None => (all_success, m)
  end.

Definition batch_invalidate (addrs : list Z) (m : t) : bool * t :=
  let '(all_success, m') := foldl batch_invalidate_step (true, m) addrs in
  (all_success, add_invalidations_sent (Z.of_nat (length addrs)) m').

Definition batch_writeback_step (acc : bool * t) (addr : Z) : bool * t :=
  let '(all_success, m) := acc in
  let line := align_to_cache_line m addr in
  match get_entry line m with
  | Some entry =>
      if decide (state entry = MODIFIED) then
        let '(success, m1) := send_coherence_op_to_fpga WRITEBACK line m in
        let entry' := with_tier L3_CXL (with_state SHARED entry) in
        (all_success && success,
         set_directory (<[line := entry']> (directory_ m1)) m1)
      else (all_success, m)
  | None => (all_success, m)
  end.

(** [batch_writeback]; of each pair only the address is read. *)
Definition batch_writeback (data : list Z) (m : t) : bool * t :=
  let '(all_success, m') := foldl batch_writeback_step (true, m) data in
  (all_success, add_writebacks_performed (Z.of_nat (length data)) m').

Definition reset_statistics (m : t) : t := set_stats zero_statistics m.

(** The calls of the public interface that change the manager. *)
Inductive Call :=
| CallRead (addr size now : Z)
| CallWrite (addr size now : Z)
| CallInvalidate (addr : Z)
| CallWriteback (addr size : Z)
| CallFlushAll
| CallPromote (addr : Z)
| CallDemote (addr : Z)
| CallUpdateTier (addr : Z) (new_tier : MemoryTier)
| CallBatchInvalidate (addrs : list Z)
| CallBatchWriteback (data : list Z)
| CallResetStatistics.

Definition run (c : Call) (m : t) : bool * t :=
  match c with
  | CallRead addr size now => request_read addr size now m
  | CallWrite addr size now => request_write addr size now m
  | CallInvalidate addr => invalidate addr m
  | CallWriteback addr size => writeback addr size m
  | CallFlushAll => flush_all m
  | CallPromote addr => promote_to_l1 addr m
  | CallDemote addr => demote_to_l3 addr m
  | CallUpdateTier addr new_tier => (true, update_tier addr new_tier m)
  | CallBatchInvalidate addrs => batch_invalidate addrs m
  | CallBatchWriteback data => batch_writeback data m
  | CallResetStatistics => (true, reset_statistics m)
  end.

(** The managers a program can hold: built by the constructor, then changed
    by calls of the public interface only. *)
Inductive reachable : t -> Prop :=
| reachable_new driver cache_line_size :
    reachable (new driver cache_line_size)
| reachable_run c m : reachable m -> reachable (run c m).2.

(** The four coherence operations of the protocol table. *)
Inductive Operation := OpRead | OpWrite | OpInvalidate | OpWriteback.

Definition perform (op : Operation) (addr size now : Z) (m : t) : bool * t :=
  match op with
  | OpRead => request_read addr size now m
  | OpWrite => request_write addr size now m
  | OpInvalidate => invalidate addr m
  | OpWriteback => writeback addr size m
  end.

(** The scenario "MESI cycle": read, write, writeback, invalidate on one
    address, with the state [get_state] reports after each step. *)
Definition mesi_cycle (addr size now_read now_write : Z) (m : t)
  : list CoherenceState * t :=
  let '(_, m1) := request_read addr size now_read m in
  let '(_, m2) := request_write addr size now_write m1 in
  let '(_, m3) := writeback addr size m2 in
  let '(_, m4) := invalidate addr m3 in
  ([get_state addr m1; get_state addr m2; get_state addr m3;
    get_state addr m4], m4).

(** A directory all of whose entries are Invalid. *)
Definition all_invalid (d : gmap Z DirectoryEntry) : Prop :=
  ∀ a e, d !! a = Some e → state e = INVALID.

(** The transport calls made between [m] and a later [m']. *)
Definition calls_since (m m' : t) : list (CoherenceOp * Z * bool) :=
  drop (length (transport_ m)) (transport_ m').

(** [m'] was obtained from [m] by calls that keep the driver and the line
    size, and keep an all-Invalid directory all-Invalid when there is no
    driver. *)
Definition stable (m m' : t) : Prop :=
  driver_ m' = driver_ m
  ∧ cache_line_size_ m' = cache_line_size_ m
  ∧ (driver_ m = false → all_invalid (directory_ m) →
     all_invalid (directory_ m')).

(** What one of the four operations does to the trace of transport calls,
    and what it does when there is no driver. *)
Definition operation_effect (m : t) (result : bool) (m' : t) : Prop :=
  ∃ calls,
    transport_ m' = transport_ m ++ calls
    ∧ (∀ c, c ∈ calls → c.2 = driver_ m)
    ∧ driver_ m' = driver_ m
    ∧ cache_line_size_ m' = cache_line_size_ m
    ∧ (driver_ m = false → all_invalid (directory_ m) →
       directory_ m' = directory_ m ∧ (calls = [] ∨ result = false)).

End CoherenceManager.

(** ** CXLMemoryManager (cxl_memory_manager.cpp, cxl_memory_manager.h) *)

Module CXLMemoryManager.

Inductive MemoryTier := L1_GPU_LOCAL | L2_PREFETCH | L3_CXL_POOL.
Inductive PageState := INVALID | SHARED | EXCLUSIVE | MODIFIED.

Global Instance MemoryTier_eq_dec : EqDecision MemoryTier.
Proof. solve_decision. Defined.
Global Instance PageState_eq_dec : EqDecision PageState.
Proof. solve_decision. Defined.

Record MemoryPage := {
  virtual_addr : Z;
  physical_addr : Z;
  tier : MemoryTier;
  state : PageState;
  access_count : Z;               (* uint32_t *)
  last_access_time : Z;
  is_hot : bool;
  layer_id : Z
}.

Record Statistics := {
  l1_hits : Z;
  l1_misses : Z;
  l2_hits : Z;
  l2_misses : Z;
  l3_accesses : Z;
  migrations_l1_to_l3 : Z;
  migrations_l3_to_l1 : Z
}.

Definition zero_statistics : Statistics :=
  {| l1_hits := 0; l1_misses := 0; l2_hits := 0; l2_misses := 0;
     l3_accesses := 0; migrations_l1_to_l3 := 0; migrations_l3_to_l1 := 0 |}.

Record t := {
  l1_size_bytes_ : Z;
  l2_size_bytes_ : Z;
  l3_size_bytes_ : Z;
  page_size_ : Z;
  page_table_ : gmap Z MemoryPage;
  l1_pages_ : list Z;
  l2_pages_ : list Z;
  l3_pages_ : list Z;
  next_virtual_addr_ : Z;
  next_physical_addr_l1_ : Z;
  next_physical_addr_l2_ : Z;
  next_physical_addr_l3_ : Z;
  l1_lru_list_ : list Z;
  stats_ : Statistics
}.

Definition GiB : Z := 1024 * 1024 * 1024.

Definition new (l1_size_gb l2_size_gb l3_size_gb page_size : Z) : t :=
  {| l1_size_bytes_ := wrap64 (l1_size_gb * GiB);
     l2_size_bytes_ := wrap64 (l2_size_gb * GiB);
     l3_size_bytes_ := wrap64 (l3_size_gb * GiB);
     page_size_ := page_size;
     page_table_ := ∅;
     l1_pages_ := []; l2_pages_ := []; l3_pages_ := [];
     next_virtual_addr_ := 0x100000000;
     next_physical_addr_l1_ := 0x8000000000;
     next_physical_addr_l2_ := 0x10000000000;
     next_physical_addr_l3_ := 0x20000000000;
     l1_lru_list_ := [];
     stats_ := zero_statistics |}.

(** The members an operation leaves alone are copied; [update] rebuilds the
    record from the ones that change. *)
Definition update (m : t) (pt : gmap Z MemoryPage) (l1 l2 l3 : list Z)
    (nv np1 np2 np3 : Z) (lru : list Z) (st : Statistics) : t :=
  {| l1_size_bytes_ := l1_size_bytes_ m;
     l2_size_bytes_ := l2_size_bytes_ m;
     l3_size_bytes_ := l3_size_bytes_ m;
     page_size_ := page_size_ m;
     page_table_ := pt;
     l1_pages_ := l1; l2_pages_ := l2; l3_pages_ := l3;
     next_virtual_addr_ := nv;
     next_physical_addr_l1_ := np1;
     next_physical_addr_l2_ := np2;
     next_physical_addr_l3_ := np3;
     l1_lru_list_ := lru;
     stats_ := st |}.

Definition set_page_table (pt : gmap Z MemoryPage) (m : t) : t :=
  update m pt (l1_pages_ m) (l2_pages_ m) (l3_pages_ m)
    (next_virtual_addr_ m) (next_physical_addr_l1_ m)
    (next_physical_addr_l2_ m) (next_physical_addr_l3_ m)
    (l1_lru_list_ m) (stats_ m).

Definition set_lists (l1 l2 l3 lru : list Z) (m : t) : t :=
  update m (page_table_ m) l1 l2 l3
    (next_virtual_addr_ m) (next_physical_addr_l1_ m)
    (next_physical_addr_l2_ m) (next_physical_addr_l3_ m)
    lru (stats_ m).

Definition set_stats (st : Statistics) (m : t) : t :=
  update m (page_table_ m) (l1_pages_ m) (l2_pages_ m) (l3_pages_ m)
    (next_virtual_addr_ m) (next_physical_addr_l1_ m)
    (next_physical_addr_l2_ m) (next_physical_addr_l3_ m)
    (l1_lru_list_ m) st.

(** [v.erase(std::remove(v.begin(), v.end(), x), v.end())] *)
Definition erase_value (x : Z) (v : list Z) : list Z :=
  filter (λ y, y ≠ x) v.

Definition can_fit_in_tier (ti : MemoryTier) (size_bytes : Z) (m : t) : bool :=
  let '(used, available) :=
    match ti with
    | L1_GPU_LOCAL =>
        (wrap64 (Z.of_nat (length (l1_pages_ m)) * page_size_ m),
         l1_size_bytes_ m)
    | L2_PREFETCH =>
        (wrap64 (Z.of_nat (length (l2_pages_ m)) * page_size_ m),
         l2_size_bytes_ m)
    | L3_CXL_POOL =>
        (wrap64 (Z.of_nat (length (l3_pages_ m)) * page_size_ m),
         l3_size_bytes_ m)
    end in
  wrap64 (used + size_bytes) <=? available.

(** The page [allocate] creates at index [i]. *)
Definition make_page (virtual_base physical_base : Z) (ti : MemoryTier)
    (layer : Z) (page_size : Z) (now : Z → Z) (i : Z) : MemoryPage :=
  {| virtual_addr := wrap64 (virtual_base + wrap64 (i * page_size));
     physical_addr := wrap64 (physical_base + wrap64 (i * page_size));
     tier := ti;
     state := EXCLUSIVE;
     access_count := 0;
     last_access_time := now i;
     is_hot := false;
     layer_id := layer |}.

(** The loop "Create page entries" of [allocate]. *)
Definition create_pages (virtual_base physical_base : Z) (ti : MemoryTier)
    (layer : Z) (page_size : Z) (now : Z → Z) (num_pages : Z)
    (pt : gmap Z MemoryPage) : gmap Z MemoryPage :=
  foldl
    (λ pt i,
       let page :=
         make_page virtual_base physical_base ti layer page_size now i in
       <[virtual_addr page := page]> pt)
    pt (seqZ 0 num_pages).

(** [allocate].  [now i] is the clock read while page [i] is created.
    [None] stands for the division by a zero [page_size_]; there is no other
    way out of the function than its [return virtual_addr]. *)
Definition allocate (size_bytes layer : Z) (preferred_tier : MemoryTier)
    (now : Z → Z) (m : t) : option (Z * t) :=
  if page_size_ m =? 0 then None else
  let num_pages := wrap64 (wrap64 (size_bytes + page_size_ m) - 1) / page_size_ m in
  let required_bytes := wrap64 (num_pages * page_size_ m) in
  let actual_tier :=
    if bool_decide (preferred_tier = L1_GPU_LOCAL)
       && negb (can_fit_in_tier L1_GPU_LOCAL required_bytes m)
    then L3_CXL_POOL else preferred_tier in
  let virtual_addr_ := next_virtual_addr_ m in
  let physical_addr_base :=
    match actual_tier with
    | L1_GPU_LOCAL => next_physical_addr_l1_ m
    | L2_PREFETCH => next_physical_addr_l2_ m
    | L3_CXL_POOL => next_physical_addr_l3_ m
    end in
  let pt :=
    create_pages virtual_addr_ physical_addr_base actual_tier layer
      (page_size_ m) now num_pages (page_table_ m) in
  let nv := wrap64 (next_virtual_addr_ m + required_bytes) in
  Some (virtual_addr_,
    match actual_tier with
    | L1_GPU_LOCAL =>
        update m pt (l1_pages_ m ++ [virtual_addr_]) (l2_pages_ m)
          (l3_pages_ m) nv
          (wrap64 (next_physical_addr_l1_ m + required_bytes))
          (next_physical_addr_l2_ m) (next_physical_addr_l3_ m)
          (l1_lru_list_ m) (stats_ m)
    | L2_PREFETCH =>
        update m pt (l1_pages_ m) (l2_pages_ m ++ [virtual_addr_])
          (l3_pages_ m) nv
          (next_physical_addr_l1_ m)
          (wrap64 (next_physical_addr_l2_ m + required_bytes))
          (next_physical_addr_l3_ m)
          (l1_lru_list_ m) (stats_ m)
    | L3_CXL_POOL =>
        update m pt (l1_pages_ m) (l2_pages_ m)
          (l3_pages_ m ++ [virtual_addr_]) nv
          (next_physical_addr_l1_ m) (next_physical_addr_l2_ m)
          (wrap64 (next_physical_addr_l3_ m + required_bytes))
          (l1_lru_list_ m) (stats_ m)
    end).

(** [deallocate]: one [find], one [erase] of the iterator found. *)
Definition deallocate (virtual_addr_ : Z) (m : t) : t :=
  match page_table_ m !! virtual_addr_ with
  | Some page =>
      let m1 :=
        match tier page with
        | L1_GPU_LOCAL =>
            set_lists (erase_value virtual_addr_ (l1_pages_ m)) (l2_pages_ m)
              (l3_pages_ m) (erase_value virtual_addr_ (l1_lru_list_ m)) m
        | L2_PREFETCH =>
            set_lists (l1_pages_ m) (erase_value virtual_addr_ (l2_pages_ m))
              (l3_pages_ m) (l1_lru_list_ m) m
        | L3_CXL_POOL =>
            set_lists (l1_pages_ m) (l2_pages_ m)
              (erase_value virtual_addr_ (l3_pages_ m)) (l1_lru_list_ m) m
        end in
      set_page_table (delete virtual_addr_ (page_table_ m1)) m1
  | None => m
  end.

(** [get_page]: the lookup of the enclosing page.  The callers below check
    that [page_size_] is not zero before they divide by it. *)
Definition get_page (virtual_addr_ : Z) (m : t) : option MemoryPage :=
  page_table_ m !! wrap64 (virtual_addr_ / page_size_ m * page_size_ m).

Definition page_key (virtual_addr_ : Z) (m : t) : Z :=
  wrap64 (virtual_addr_ / page_size_ m * page_size_ m).

Definition is_in_cache (virtual_addr_ : Z) (ti : MemoryTier) (m : t)
  : option bool :=
  if page_size_ m =? 0 then None else
  Some match get_page virtual_addr_ m with
       | Some page => bool_decide (tier page = ti)
       | None => false
       end.

Definition with_tier (ti : MemoryTier) (p : MemoryPage) : MemoryPage :=
  {| virtual_addr := virtual_addr p; physical_addr := physical_addr p;
     tier := ti; state := state p; access_count := access_count p;
     last_access_time := last_access_time p; is_hot := is_hot p;
     layer_id := layer_id p |}.

Definition with_access (count time : Z) (p : MemoryPage) : MemoryPage :=
  {| virtual_addr := virtual_addr p; physical_addr := physical_addr p;
     tier := tier p; state := state p; access_count := count;
     last_access_time := time; is_hot := is_hot p;
     layer_id := layer_id p |}.

(** [update_lru]: no test of the tier; the address goes to the back. *)
Definition update_lru (virtual_addr_ : Z) (m : t) : t :=
  set_lists (l1_pages_ m) (l2_pages_ m) (l3_pages_ m)
    (erase_value virtual_addr_ (l1_lru_list_ m) ++ [virtual_addr_]) m.

(** [demote_to_l3], called from outside. *)
Definition demote_to_l3 (virtual_addr_ : Z) (m : t) : option (bool * t) :=
  if page_size_ m =? 0 then None else
  match get_page virtual_addr_ m with
  | None => Some (false, m)
  | Some page =>
      if decide (tier page = L3_CXL_POOL) then Some (false, m) else
      let m1 :=
        set_page_table
          (<[page_key virtual_addr_ m := with_tier L3_CXL_POOL page]>
             (page_table_ m)) m in
      let m2 :=
        match tier page with
        | L1_GPU_LOCAL =>
            let s := stats_ m1 in
            set_stats
              {| l1_hits := l1_hits s; l1_misses := l1_misses s;
                 l2_hits := l2_hits s; l2_misses := l2_misses s;
                 l3_accesses := l3_accesses s;
                 migrations_l1_to_l3 := wrap64 (migrations_l1_to_l3 s + 1);
                 migrations_l3_to_l1 := migrations_l3_to_l1 s |}
              (set_lists (erase_value virtual_addr_ (l1_pages_ m1))
                 (l2_pages_ m1) (l3_pages_ m1)
                 (erase_value virtual_addr_ (l1_lru_list_ m1)) m1)
        | L2_PREFETCH =>
            set_lists (l1_pages_ m1)
              (erase_value virtual_addr_ (l2_pages_ m1)) (l3_pages_ m1)
              (l1_lru_list_ m1) m1
        | L3_CXL_POOL => m1
        end in
      Some (true,
            set_lists (l1_pages_ m2) (l2_pages_ m2)
              (l3_pages_ m2 ++ [virtual_addr_]) (l1_lru_list_ m2) m2)
  end.

(** [evict_l1_lru] as [promote_to_l1] calls it, with [page_table_mutex_]
    held.  On a non-empty list it calls [demote_to_l3], which locks the same
    [std::mutex] again on the same thread; the call does not come back, which
    [None] stands for. *)
Definition evict_l1_lru_locked (m : t) : option t :=
  match l1_lru_list_ m with
  | [] => Some m
  | _ :: _ => None
  end.

Definition promote_to_l1 (virtual_addr_ : Z) (m : t) : option (bool * t) :=
  if page_size_ m =? 0 then None else
  match get_page virtual_addr_ m with
  | None => Some (false, m)
  | Some page =>
      if decide (tier page = L1_GPU_LOCAL) then Some (false, m) else
      m0 ← (if can_fit_in_tier L1_GPU_LOCAL (page_size_ m) m
            then Some m else evict_l1_lru_locked m);
      let m1 :=
        set_page_table
          (<[page_key virtual_addr_ m0 := with_tier L1_GPU_LOCAL page]>
             (page_table_ m0)) m0 in
      let m2 :=
        match tier page with
        | L2_PREFETCH =>
            set_lists (l1_pages_ m1)
              (erase_value virtual_addr_ (l2_pages_ m1)) (l3_pages_ m1)
              (l1_lru_list_ m1) m1
        | L3_CXL_POOL =>
            let s := stats_ m1 in
            set_stats
              {| l1_hits := l1_hits s; l1_misses := l1_misses s;
                 l2_hits := l2_hits s; l2_misses := l2_misses s;
                 l3_accesses := l3_accesses s;
                 migrations_l1_to_l3 := migrations_l1_to_l3 s;
                 migrations_l3_to_l1 := wrap64 (migrations_l3_to_l1 s + 1) |}
              (set_lists (l1_pages_ m1) (l2_pages_ m1)
                 (erase_value virtual_addr_ (l3_pages_ m1))
                 (l1_lru_list_ m1) m1)
        | L1_GPU_LOCAL => m1
        end in
      let m3 :=
        set_lists (l1_pages_ m2 ++ [virtual_addr_]) (l2_pages_ m2)
          (l3_pages_ m2) (l1_lru_list_ m2) m2 in
      Some (true, update_lru virtual_addr_ m3)
  end.

(** [update_access_tracking]; [now] is the reading of the steady clock. *)
Definition update_access_tracking (virtual_addr_ now : Z) (m : t) : option t :=
  if page_size_ m =? 0 then None else
  match get_page virtual_addr_ m with
  | None => Some m
  | Some page =>
      let page' :=
        with_access ((access_count page + 1) mod 2 ^ 32) now page in
      let m1 :=
        set_page_table
          (<[page_key virtual_addr_ m := page']> (page_table_ m)) m in
      let s := stats_ m1 in
      let s' :=
        match tier page with
        | L1_GPU_LOCAL =>
            {| l1_hits := wrap64 (l1_hits s + 1); l1_misses := l1_misses s;
               l2_hits := l2_hits s; l2_misses := l2_misses s;
               l3_accesses := l3_accesses s;
               migrations_l1_to_l3 := migrations_l1_to_l3 s;
               migrations_l3_to_l1 := migrations_l3_to_l1 s |}
        | L2_PREFETCH =>
            {| l1_hits := l1_hits s; l1_misses := l1_misses s;
               l2_hits := wrap64 (l2_hits s + 1); l2_misses := l2_misses s;
               l3_accesses := l3_accesses s;
               migrations_l1_to_l3 := migrations_l1_to_l3 s;
               migrations_l3_to_l1 := migrations_l3_to_l1 s |}
        | L3_CXL_POOL =>
            {| l1_hits := l1_hits s; l1_misses := l1_misses s;
               l2_hits := l2_hits s; l2_misses := l2_misses s;
               l3_accesses := wrap64 (l3_accesses s + 1);
               migrations_l1_to_l3 := migrations_l1_to_l3 s;
               migrations_l3_to_l1 := migrations_l3_to_l1 s |}
        end in
      Some (update_lru virtual_addr_ (set_stats s' m1))
  end.

(** The virtual pages the page table holds in L1. *)
Definition l1_resident (m : t) : gset Z :=
  dom (filter (λ kv, tier kv.2 = L1_GPU_LOCAL) (page_table_ m)).

(** Invariant 7 of the data model: the LRU list holds, without repetition,
    exactly the virtual pages whose tier is L1. *)
Definition lru_matches_l1 (m : t) : Prop :=
  NoDup (l1_lru_list_ m) ∧ list_to_set (l1_lru_list_ m) = l1_resident m.

(** Whether the page table has an entry at the key [va]. *)
Definition mapped (va : Z) (m : t) : bool :=
  bool_decide (is_Some (page_table_ m !! va)).

(** The number of pages and of bytes [allocate] takes for a request. *)
Definition num_pages_for (size_bytes : Z) (m : t) : Z :=
  wrap64 (wrap64 (size_bytes + page_size_ m) - 1) / page_size_ m.

Definition required_bytes_for (size_bytes : Z) (m : t) : Z :=
  wrap64 (num_pages_for size_bytes m * page_size_ m).

(** [translate_virtual_to_physical]: 0 stands for "invalid address". *)
Definition translate_virtual_to_physical (virtual_addr_ : Z) (m : t)
  : option Z :=
  if page_size_ m =? 0 then None else
  Some match get_page virtual_addr_ m with
       | Some page =>
           wrap64 (physical_addr page
                   + wrap64 (virtual_addr_ - page_key virtual_addr_ m))
       | None => 0
       end.

Definition with_state (st : PageState) (p : MemoryPage) : MemoryPage :=
  {| virtual_addr := virtual_addr p; physical_addr := physical_addr p;
     tier := tier p; state := st; access_count := access_count p;
     last_access_time := last_access_time p; is_hot := is_hot p;
     layer_id := layer_id p |}.

Definition with_hot (hot : bool) (p : MemoryPage) : MemoryPage :=
  {| virtual_addr := virtual_addr p; physical_addr := physical_addr p;
     tier := tier p; state := state p; access_count := access_count p;
     last_access_time := last_access_time p; is_hot := hot;
     layer_id := layer_id p |}.

Definition invalidate_page (virtual_addr_ : Z) (m : t) : option t :=
  if page_size_ m =? 0 then None else
  Some match get_page virtual_addr_ m with
       | Some page =>
           set_page_table
             (<[page_key virtual_addr_ m := with_state INVALID page]>
                (page_table_ m)) m
       | None => m
       end.

Definition mark_modified (virtual_addr_ : Z) (m : t) : option t :=
  if page_size_ m =? 0 then None else
  Some match get_page virtual_addr_ m with
       | Some page =>
           set_page_table
             (<[page_key virtual_addr_ m := with_state MODIFIED page]>
                (page_table_ m)) m
       | None => m
       end.

Definition get_page_state (virtual_addr_ : Z) (m : t) : option PageState :=
  if page_size_ m =? 0 then None else
  Some match get_page virtual_addr_ m with
       | Some page => state page
       | None => INVALID
       end.

(** [is_hot_page] stores the classification in the page and returns it. *)
Definition is_hot_page (virtual_addr_ : Z) (m : t) : option (bool * t) :=
  if page_size_ m =? 0 then None else
  Some match get_page virtual_addr_ m with
       | Some page =>
           let hot := 10 <? access_count page in
           (hot,
            set_page_table
              (<[page_key virtual_addr_ m := with_hot hot page]>
                 (page_table_ m)) m)
       | None => (false, m)
       end.

(** The tier [allocate] settles on, and the physical cursor of a tier. *)
Definition placed_tier (size_bytes : Z) (preferred_tier : MemoryTier) (m : t)
  : MemoryTier :=
  if bool_decide (preferred_tier = L1_GPU_LOCAL)
     && negb (can_fit_in_tier L1_GPU_LOCAL (required_bytes_for size_bytes m) m)
  then L3_CXL_POOL else preferred_tier.

Definition physical_cursor (ti : MemoryTier) (m : t) : Z :=
  match ti with
  | L1_GPU_LOCAL => next_physical_addr_l1_ m
  | L2_PREFETCH => next_physical_addr_l2_ m
  | L3_CXL_POOL => next_physical_addr_l3_ m
  end.

(** [n] calls of [update_access_tracking] on one address; [now k] is the
    clock at the call that leaves [k] calls to go. *)
Fixpoint access_repeatedly (n : nat) (virtual_addr_ : Z) (now : nat → Z)
    (m : t) : option t :=
  match n with
  | O => Some m
  | S k =>
      m' ← update_access_tracking virtual_addr_ (now k) m;
      access_repeatedly k virtual_addr_ now m'
  end.

Definition reset_statistics (m : t) : t := set_stats zero_statistics m.

(** The calls of the public interface that change the manager; the other
    public functions only read it. *)
Inductive Call :=
| CallAllocate (size_bytes layer : Z) (preferred_tier : MemoryTier)
    (now : Z → Z)
| CallDeallocate (virtual_addr_ : Z)
| CallPromoteToL1 (virtual_addr_ : Z)
| CallDemoteToL3 (virtual_addr_ : Z)
| CallInvalidatePage (virtual_addr_ : Z)
| CallMarkModified (virtual_addr_ : Z)
| CallUpdateAccessTracking (virtual_addr_ now : Z)
| CallIsHotPage (virtual_addr_ : Z)
| CallResetStatistics.

(** The manager after a call; [None] when the call does not come back. *)
Definition run (c : Call) (m : t) : option t :=
  match c with
  | CallAllocate size_bytes layer preferred_tier now =>
      snd <$> allocate size_bytes layer preferred_tier now m
  | CallDeallocate va => Some (deallocate va m)
  | CallPromoteToL1 va => snd <$> promote_to_l1 va m
  | CallDemoteToL3 va => snd <$> demote_to_l3 va m
  | CallInvalidatePage va => invalidate_page va m
  | CallMarkModified va => mark_modified va m
  | CallUpdateAccessTracking va now => update_access_tracking va now m
  | CallIsHotPage va => snd <$> is_hot_page va m
  | CallResetStatistics => Some (reset_statistics m)
  end.

(** The bound on a request that [allocate] does not check: with it, neither
    the rounding of the size to whole pages nor the virtual cursor wraps. *)
Definition within_address_space (size_bytes : Z) (m : t) : Prop :=
  0 <= size_bytes
  ∧ next_virtual_addr_ m + size_bytes + page_size_ m < two64.

Definition call_within_address_space (c : Call) (m : t) : Prop :=
  match c with
  | CallAllocate size_bytes _ _ _ => within_address_space size_bytes m
  | _ => True
  end.

(** The managers built by the constructor with a positive page size and
    changed by public calls, every [allocate] among them within the address
    space. *)
Inductive reachable : t → Prop :=
| reachable_new l1_size_gb l2_size_gb l3_size_gb page_size :
    0 < page_size →
    reachable (new l1_size_gb l2_size_gb l3_size_gb page_size)
| reachable_run c m m' :
    reachable m → call_within_address_space c m → run c m = Some m' →
    reachable m'.

End CXLMemoryManager.

(** ** [page_table_mutex_] (cxl_memory_manager.cpp:130-194, 285-293)

    [promote_to_l1] and [demote_to_l3] each begin with a [std::lock_guard]
    on [page_table_mutex_], a plain [std::mutex]; [evict_l1_lru] takes no
    lock and is called by [promote_to_l1] while that holds the mutex.  This
    module follows the mutex through the three functions, as the thread that
    makes the calls sees it.  [lock] by the thread that owns a [std::mutex]
    is undefined by the standard; the implementations block, so the call
    does not return. *)

Module PageTableMutex.

Inductive Outcome (A : Type) : Type :=
| Returns (a : A)
| NeverReturns
| DivisionByZero.
Arguments Returns {A} a.
Arguments NeverReturns {A}.
Arguments DivisionByZero {A}.

Definition and_then {A B : Type} (x : Outcome A) (f : A → Outcome B)
  : Outcome B :=
  match x with
  | Returns a => f a
  | NeverReturns => NeverReturns
  | DivisionByZero => DivisionByZero
  end.

(** The manager with its mutex; [true] when the calling thread owns it. *)
Record t := {
  manager_ : CXLMemoryManager.t;
  page_table_mutex_ : bool
}.

Definition with_manager (m : CXLMemoryManager.t) (s : t) : t :=
  {| manager_ := m; page_table_mutex_ := page_table_mutex_ s |}.

(** The constructor and the destructor of [std::lock_guard]. *)
Definition lock (s : t) : Outcome t :=
  if page_table_mutex_ s then NeverReturns
  else Returns {| manager_ := manager_ s; page_table_mutex_ := true |}.

Definition unlock (s : t) : t :=
  {| manager_ := manager_ s; page_table_mutex_ := false |}.

(** [demote_to_l3]: the lock, then the body as in
    [CXLMemoryManager.demote_to_l3]. *)
Definition demote_to_l3 (virtual_addr_ : Z) (s : t) : Outcome (bool * t) :=
  and_then (lock s) (λ s1,
    match CXLMemoryManager.demote_to_l3 virtual_addr_ (manager_ s1) with
    | Some (result, m') => Returns (result, unlock (with_manager m' s1))
    | None => DivisionByZero
    end).

(** [evict_l1_lru]: the front of the list is erased, then [demote_to_l3] is
    called on it. *)
Definition evict_l1_lru (s : t) : Outcome t :=
  let m := manager_ s in
  match CXLMemoryManager.l1_lru_list_ m with
  | [] => Returns s
  | lru_addr :: rest =>
      let s1 :=
        with_manager
          (CXLMemoryManager.set_lists (CXLMemoryManager.l1_pages_ m)
             (CXLMemoryManager.l2_pages_ m) (CXLMemoryManager.l3_pages_ m)
             rest m) s in
      and_then (demote_to_l3 lru_addr s1) (λ r, Returns r.2)
  end.

(** [promote_to_l1].  [page] is a pointer into the page table, so after the
    eviction the page is read again at its key. *)
Definition promote_to_l1 (virtual_addr_ : Z) (s : t) : Outcome (bool * t) :=
  and_then (lock s) (λ s1,
    let m := manager_ s1 in
    if CXLMemoryManager.page_size_ m =? 0 then DivisionByZero else
    match CXLMemoryManager.get_page virtual_addr_ m with
    | None => Returns (false, unlock s1)
    | Some page =>
        if decide (CXLMemoryManager.tier page = CXLMemoryManager.L1_GPU_LOCAL)
        then Returns (false, unlock s1)
        else
          and_then
            (if CXLMemoryManager.can_fit_in_tier CXLMemoryManager.L1_GPU_LOCAL
                  (CXLMemoryManager.page_size_ m) m
             then Returns s1 else evict_l1_lru s1)
            (λ s2,
               let m0 := manager_ s2 in
               let page := default page
                             (CXLMemoryManager.get_page virtual_addr_ m0) in
               let m1 :=
                 CXLMemoryManager.set_page_table
                   (<[CXLMemoryManager.page_key virtual_addr_ m0 :=
                        CXLMemoryManager.with_tier
                          CXLMemoryManager.L1_GPU_LOCAL page]>
                      (CXLMemoryManager.page_table_ m0)) m0 in
               let m2 :=
                 match CXLMemoryManager.tier page with
                 | CXLMemoryManager.L2_PREFETCH =>
                     CXLMemoryManager.set_lists (CXLMemoryManager.l1_pages_ m1)
                       (CXLMemoryManager.erase_value virtual_addr_
                          (CXLMemoryManager.l2_pages_ m1))
                       (CXLMemoryManager.l3_pages_ m1)
                       (CXLMemoryManager.l1_lru_list_ m1) m1
                 | CXLMemoryManager.L3_CXL_POOL =>
                     let st := CXLMemoryManager.stats_ m1 in
                     CXLMemoryManager.set_stats
                       {| CXLMemoryManager.l1_hits :=
                            CXLMemoryManager.l1_hits st;
                          CXLMemoryManager.l1_misses :=
                            CXLMemoryManager.l1_misses st;
                          CXLMemoryManager.l2_hits :=
                            CXLMemoryManager.l2_hits st;
                          CXLMemoryManager.l2_misses :=
                            CXLMemoryManager.l2_misses st;
                          CXLMemoryManager.l3_accesses :=
                            CXLMemoryManager.l3_accesses st;
                          CXLMemoryManager.migrations_l1_to_l3 :=
                            CXLMemoryManager.migrations_l1_to_l3 st;
                          CXLMemoryManager.migrations_l3_to_l1 :=
                            wrap64
                              (CXLMemoryManager.migrations_l3_to_l1 st + 1) |}
                       (CXLMemoryManager.set_lists
                          (CXLMemoryManager.l1_pages_ m1)
                          (CXLMemoryManager.l2_pages_ m1)
                          (CXLMemoryManager.erase_value virtual_addr_
                             (CXLMemoryManager.l3_pages_ m1))
                          (CXLMemoryManager.l1_lru_list_ m1) m1)
                 | CXLMemoryManager.L1_GPU_LOCAL => m1
                 end in
               let m3 :=
                 CXLMemoryManager.set_lists
                   (CXLMemoryManager.l1_pages_ m2 ++ [virtual_addr_])
                   (CXLMemoryManager.l2_pages_ m2)
                   (CXLMemoryManager.l3_pages_ m2)
                   (CXLMemoryManager.l1_lru_list_ m2) m2 in
               Returns
                 (true,
                  unlock
                    (with_manager
                       (CXLMemoryManager.update_lru virtual_addr_ m3) s2)))
    end).

End PageTableMutex.

(** ** SpeculativePrefetcher::prefetch (speculative_prefetcher.cpp:25-82)

    The predictor (a recurrent network over weights drawn with [rand()]) is
    not modelled: [predictions] is what [predict_top_k] returned, the pairs
    (token, confidence) in its order.  [now i] is the clock read for the
    request of candidate [i]. *)

Module PrefetchCall.
Import SpeculativePrefetcher.

(** One iteration of the loop over the predictions.  [None] is the division
    by a zero page size inside [is_in_cache]. *)
Definition prefetch_step (layer : Z) (now : Z → Z) (mm : CXLMemoryManager.t)
    (acc : option (list PrefetchRequest * list PrefetchRequest))
    (candidate : Z * (Z * spec_float))
  : option (list PrefetchRequest * list PrefetchRequest) :=
  '(prefetch_requests, queue) ← acc;
  let i := candidate.1 in
  let va := compute_kv_address 0 layer ((i + 1) mod 2 ^ 32) in
  let req := {| virtual_addr := va; layer_id := layer;
                predicted_token_id := candidate.2.1;
                confidence := candidate.2.2;
                timestamp := now i |} in
  match CXLMemoryManager.is_in_cache va CXLMemoryManager.L1_GPU_LOCAL mm with
  | None => None
  | Some true => Some (prefetch_requests, queue)   (* Already cached, skip *)
  | Some false =>
      match CXLMemoryManager.is_in_cache va CXLMemoryManager.L2_PREFETCH mm with
      | None => None
      | Some true => Some (prefetch_requests, queue)
      | Some false =>
          Some (prefetch_requests ++ [req], issue_dma_prefetch req queue)
      end
  end.

Definition prefetch (predictions : list (Z * spec_float)) (layer : Z)
    (now : Z → Z) (mm : CXLMemoryManager.t) (st : issue_state)
  : option (list PrefetchRequest * issue_state) :=
  '(prefetch_requests, queue) ←
    foldl (prefetch_step layer now mm)
      (Some ([], outstanding_prefetches_ st))
      (zip (seqZ 0 (Z.of_nat (length predictions))) predictions);
  Some (prefetch_requests,
        {| outstanding_prefetches_ := queue;
           total_prefetches :=
             wrap64 (total_prefetches st
                     + Z.of_nat (length prefetch_requests));
           mispredictions := mispredictions st |}).

(** A request as the loop builds it for the candidate at index [i] of
    [predictions], which was in neither L1 nor L2. *)
Definition issued_for (predictions : list (Z * spec_float)) (layer : Z)
    (mm : CXLMemoryManager.t) (req : PrefetchRequest) : Prop :=
  ∃ (i : nat) token conf,
    predictions !! i = Some (token, conf)
    ∧ virtual_addr req
      = compute_kv_address 0 layer ((Z.of_nat i + 1) mod 2 ^ 32)
    ∧ layer_id req = layer
    ∧ predicted_token_id req = token
    ∧ confidence req = conf
    ∧ CXLMemoryManager.is_in_cache (virtual_addr req)
        CXLMemoryManager.L1_GPU_LOCAL mm = Some false
    ∧ CXLMemoryManager.is_in_cache (virtual_addr req)
        CXLMemoryManager.L2_PREFETCH mm = Some false.

End PrefetchCall.

(** ** CXLMemoryAllocator (memory_allocator.cpp, memory_allocator.h)

    The facade over the memory manager.  A [void*] is the 64-bit address it
    was cast from, 0 for [nullptr].  The prefetcher and the cache engine the
    facade also owns take no part in the functions below. *)

Module CXLMemoryAllocator.

Record AllocationHandle := {
  virtual_addr : Z;
  size_bytes : Z;
  layer_id : Z
}.

(** [AllocatorStatistics] without [prefetch_hit_rate], which only
    [prefetch_hint] writes. *)
Record AllocatorStatistics := {
  total_allocations : Z;
  total_deallocations : Z;
  current_allocated_bytes : Z;
  peak_allocated_bytes : Z
}.

(** [memory_manager_] is [None] for the null [unique_ptr]. *)
Record t := {
  memory_manager_ : option CXLMemoryManager.t;
  handle_map_ : gmap Z AllocationHandle;
  stats_ : AllocatorStatistics;
  initialized_ : bool
}.

Definition new : t :=
  {| memory_manager_ := None; handle_map_ := ∅;
     stats_ := {| total_allocations := 0; total_deallocations := 0;
                  current_allocated_bytes := 0; peak_allocated_bytes := 0 |};
     initialized_ := false |}.

(** [initialize]: the manager is built with its default page size. *)
Definition initialize (l1_size_gb l2_size_gb l3_size_gb : Z) (a : t)
  : bool * t :=
  (true,
   {| memory_manager_ :=
        Some (CXLMemoryManager.new l1_size_gb l2_size_gb l3_size_gb 4096);
      handle_map_ := handle_map_ a; stats_ := stats_ a;
      initialized_ := true |}).

Definition set_manager (mm : CXLMemoryManager.t) (a : t) : t :=
  {| memory_manager_ := Some mm; handle_map_ := handle_map_ a;
     stats_ := stats_ a; initialized_ := initialized_ a |}.

(** [cxl_malloc]: the pointer returned, 0 for [nullptr].  The manager is
    called with its default tier, L3.  [None] stands for a call through a
    null [memory_manager_] and for the division by zero of [allocate]. *)
Definition cxl_malloc (size layer : Z) (now : Z → Z) (a : t)
  : option (Z * t) :=
  if negb (initialized_ a) then Some (0, a) else
  mm ← memory_manager_ a;
  '(virtual_addr_, mm') ←
    CXLMemoryManager.allocate size layer CXLMemoryManager.L3_CXL_POOL now mm;
  if virtual_addr_ =? 0 then Some (0, set_manager mm' a) else
  let handle :=
    {| virtual_addr := virtual_addr_; size_bytes := size;
       layer_id := layer |} in
  let s := stats_ a in
  let current := wrap64 (current_allocated_bytes s + size) in
  Some (virtual_addr_,
        {| memory_manager_ := Some mm';
           handle_map_ := <[virtual_addr_ := handle]> (handle_map_ a);
           stats_ :=
             {| total_allocations := wrap64 (total_allocations s + 1);
                total_deallocations := total_deallocations s;
                current_allocated_bytes := current;
                peak_allocated_bytes :=
                  if peak_allocated_bytes s <? current then current
                  else peak_allocated_bytes s |};
           initialized_ := initialized_ a |}).

Definition cxl_free (ptr : Z) (a : t) : option t :=
  if negb (initialized_ a) || (ptr =? 0) then Some a else
  match handle_map_ a !! ptr with
  | Some handle =>
      mm ← memory_manager_ a;
      let mm' := CXLMemoryManager.deallocate (virtual_addr handle) mm in
      let s := stats_ a in
      Some {| memory_manager_ := Some mm';
              handle_map_ := delete ptr (handle_map_ a);
              stats_ :=
                {| total_allocations := total_allocations s;
                   total_deallocations := wrap64 (total_deallocations s + 1);
                   current_allocated_bytes :=
                     wrap64 (current_allocated_bytes s - size_bytes handle);
                   peak_allocated_bytes := peak_allocated_bytes s |};
              initialized_ := initialized_ a |}
  | None => Some a
  end.

(** [cxl_access]; the argument [size_bytes] of the source is never read.
    [now] is the clock of [update_access_tracking]. *)
Definition cxl_access (handle offset now : Z) (a : t) : option (Z * t) :=
  if negb (initialized_ a) || (handle =? 0) then Some (0, a) else
  match handle_map_ a !! handle with
  | None => Some (0, a)
  | Some alloc =>
      let virtual_addr_ := wrap64 (virtual_addr alloc + offset) in
      mm ← memory_manager_ a;
      mm1 ← CXLMemoryManager.update_access_tracking virtual_addr_ now mm;
      in_l1 ← CXLMemoryManager.is_in_cache virtual_addr_
                CXLMemoryManager.L1_GPU_LOCAL mm1;
      if in_l1 : bool then Some (virtual_addr_, set_manager mm1 a) else
      in_l2 ← CXLMemoryManager.is_in_cache virtual_addr_
                CXLMemoryManager.L2_PREFETCH mm1;
      if in_l2 : bool then
        '(hot, mm2) ← CXLMemoryManager.is_hot_page virtual_addr_ mm1;
        if hot : bool then
          '(_, mm3) ← CXLMemoryManager.promote_to_l1 virtual_addr_ mm2;
          Some (virtual_addr_, set_manager mm3 a)
        else Some (virtual_addr_, set_manager mm2 a)
      else
        '(_, mm2) ← CXLMemoryManager.promote_to_l1 virtual_addr_ mm1;
        Some (virtual_addr_, set_manager mm2 a)
  end.

End CXLMemoryAllocator.

(** * Properties *)

(** ** Bytes *)

Lemma to_int8_range z : is_int8 (to_int8 z).
Proof. unfold is_int8, to_int8. Z.div_mod_to_equations. lia. Qed.

Lemma to_uint8_range z : is_uint8 (to_uint8 z).
Proof. unfold is_uint8, to_uint8. Z.div_mod_to_equations. lia. Qed.

Lemma to_int8_id z : is_int8 z → to_int8 z = z.
Proof. unfold is_int8, to_int8. intros. Z.div_mod_to_equations. lia. Qed.

Lemma to_uint8_id z : is_uint8 z → to_uint8 z = z.
Proof. unfold is_uint8, to_uint8. intros. Z.div_mod_to_equations. lia. Qed.

Lemma to_int8_to_uint8 z : is_int8 z → to_int8 (to_uint8 z) = z.
Proof.
  unfold is_int8, to_int8, to_uint8. intros. Z.div_mod_to_equations. lia.
Qed.

Lemma to_uint8_to_int8 z : is_uint8 z → to_uint8 (to_int8 z) = z.
Proof.
  unfold is_uint8, to_int8, to_uint8. intros. Z.div_mod_to_equations. lia.
Qed.

(** ** Run-length coding *)

Section RunLength.
Import FPGACacheEngine.

Lemma rle_loop_app data : ∀ rle current_val count,
  rle_loop data rle current_val count
  = rle ++ rle_loop data [] current_val count.
Proof.
  induction data as [|d data IH]; intros rle cur cnt; simpl.
  - done.
  - destruct ((d =? cur) && (cnt <? 255)).
    + apply IH.
    + rewrite IH. rewrite (IH [_; _]). by rewrite app_assoc.
Qed.

Lemma rld_loop_app rle_data : ∀ decoded,
  rld_loop rle_data decoded = decoded ++ rld_loop rle_data [].
Proof.
  cut (∀ decoded,
         rld_loop rle_data decoded = decoded ++ rld_loop rle_data []
         ∧ ∀ b, rld_loop (b :: rle_data) decoded
                = decoded ++ rld_loop (b :: rle_data) []).
  { intros H decoded. apply H. }
  induction rle_data as [|c rest IH]; intros decoded; simpl.
  - by rewrite app_nil_r.
  - split; [apply IH|]. intros b.
    destruct (IH (decoded ++ replicate (Z.to_nat c) (to_int8 b))) as [-> _].
    destruct (IH (replicate (Z.to_nat c) (to_int8 b))) as [-> _].
    by rewrite app_assoc.
Qed.

Lemma run_length_decode_pair value count rest :
  run_length_decode (value :: count :: rest)
  = replicate (Z.to_nat count) (to_int8 value) ++ run_length_decode rest.
Proof. unfold run_length_decode. simpl. apply rld_loop_app. Qed.

Lemma is_uint8_count count : 1 <= count <= 255 → is_uint8 count.
Proof. unfold is_uint8. lia. Qed.

(** The step of the decoder over one flushed run. *)
Local Ltac flush_case IH :=
  rewrite rle_loop_app; cbn [app]; rewrite run_length_decode_pair;
  rewrite IH by (done || lia);
  rewrite to_int8_to_uint8 by done;
  rewrite to_uint8_id by (by apply is_uint8_count);
  done.

Lemma rle_loop_decode data : ∀ current_val count,
  Forall is_int8 data → is_int8 current_val → 1 <= count <= 255 →
  run_length_decode (rle_loop data [] current_val count)
  = replicate (Z.to_nat count) current_val ++ data.
Proof.
  induction data as [|d data IH]; intros cur cnt Hdata Hcur Hcnt;
    cbn [rle_loop app].
  - rewrite run_length_decode_pair.
    rewrite to_int8_to_uint8 by done.
    rewrite to_uint8_id by (unfold is_uint8; lia). done.
  - apply Forall_cons in Hdata as [Hd Hdata].
    destruct (d =? cur) eqn:Ed, (cnt <? 255) eqn:Ec; cbn [andb rle_loop app].
    + apply Z.eqb_eq in Ed as ->. apply Z.ltb_lt in Ec.
      rewrite IH by (done || lia).
      replace (Z.to_nat (cnt + 1)) with (Z.to_nat cnt + 1)%nat by lia.
      rewrite replicate_add. simpl. by rewrite <- app_assoc.
    + flush_case IH.
    + flush_case IH.
    + flush_case IH.
Qed.

Lemma run_length_decode_encode s :
  Forall is_int8 s → run_length_decode (run_length_encode s) = s.
Proof.
  destruct s as [|d0 s]; [done|]. intros [H0 Hs]%Forall_cons. simpl.
  by rewrite rle_loop_decode.
Qed.

(** The open run absorbs equal values as long as the count stays within a
    byte. *)
Lemma rle_loop_absorb k : ∀ v count tl,
  count + Z.of_nat k <= 255 →
  rle_loop (replicate k v ++ tl) [] v count
  = rle_loop tl [] v (count + Z.of_nat k).
Proof.
  induction k as [|k IH]; intros v cnt tl Hk; simpl.
  - by rewrite Z.add_0_r.
  - rewrite Z.eqb_refl. destruct (cnt <? 255) eqn:Ec; simpl.
    + rewrite IH by lia. f_equal. lia.
    + apply Z.ltb_ge in Ec. lia.
Qed.

Lemma run_length_encode_run n v tl :
  (1 <= n <= 255)%nat →
  run_length_encode (replicate n v ++ tl) = rle_loop tl [] v (Z.of_nat n).
Proof.
  destruct n as [|n]; [lia|]. intros Hn. simpl.
  rewrite rle_loop_absorb by lia. f_equal. lia.
Qed.

Lemma rle_loop_uint8 data : ∀ rle current_val count,
  Forall is_uint8 rle → Forall is_uint8 (rle_loop data rle current_val count).
Proof.
  induction data as [|d data IH]; intros rle cur cnt Hrle; simpl.
  - apply Forall_app. split; [done|].
    repeat constructor; apply to_uint8_range.
  - destruct ((d =? cur) && (cnt <? 255)); apply IH; [done|].
    apply Forall_app. split; [done|].
    repeat constructor; apply to_uint8_range.
Qed.

Lemma run_length_encode_uint8 s : Forall is_uint8 (run_length_encode s).
Proof.
  destruct s as [|d0 s]; [constructor|]. by apply rle_loop_uint8.
Qed.

End RunLength.

(** ** Delta coding and the pipeline *)

Section Pipeline.
Import FPGACacheEngine.

Lemma delta_step_inverse prev d :
  is_int8 prev → is_int8 d → to_int8 (prev + to_int8 (d - prev)) = d.
Proof. unfold is_int8, to_int8. intros. Z.div_mod_to_equations. lia. Qed.

Lemma delta_decode_from_encode data : ∀ prev,
  is_int8 prev → Forall is_int8 data →
  delta_decode_from prev (delta_encode_from prev data) = data.
Proof.
  induction data as [|d data IH]; intros prev Hprev Hdata; simpl; [done|].
  apply Forall_cons in Hdata as [Hd Hdata].
  rewrite delta_step_inverse by done. by rewrite IH.
Qed.

Lemma delta_decode_encode data :
  Forall is_int8 data → delta_decode (delta_encode data) = data.
Proof.
  destruct data as [|d0 data]; [done|]. intros [H0 Hdata]%Forall_cons. simpl.
  by rewrite delta_decode_from_encode.
Qed.

Lemma delta_encode_from_int8 data : ∀ prev,
  Forall is_int8 (delta_encode_from prev data).
Proof.
  induction data as [|d data IH]; intros prev; simpl; constructor;
    [apply to_int8_range | apply IH].
Qed.

Lemma delta_encode_int8 data :
  Forall is_int8 data → Forall is_int8 (delta_encode data).
Proof.
  destruct data as [|d0 data]; [done|]. intros [H0 _]%Forall_cons. simpl.
  constructor; [done | apply delta_encode_from_int8].
Qed.

Lemma quantize_to_int8_range data scale :
  Forall is_int8 (quantize_to_int8 data scale).
Proof.
  unfold quantize_to_int8. apply Forall_map, Forall_true. intros x.
  apply to_int8_range.
Qed.

Lemma stored_bytes_read_back rle :
  Forall is_uint8 rle → map to_uint8 (map to_int8 rle) = rle.
Proof.
  induction 1 as [|b rle Hb _ IH]; simpl; [done|].
  by rewrite to_uint8_to_int8, IH.
Qed.

(** What [decompress] makes of the output of [compress]: the three integer
    stages cancel, and every element goes through the quantizer and back. *)
Lemma decompress_compress kv_data num_tokens hidden_dim layer_id :
  decompress (compress kv_data num_tokens hidden_dim layer_id)
    num_tokens hidden_dim
  = map (λ x, let scale := compute_scale_factor kv_data in
              dequantize_one scale (quantize_one scale x)) kv_data.
Proof.
  unfold decompress, compress. cbn [rle_data scale_factor].
  rewrite stored_bytes_read_back by apply run_length_encode_uint8.
  rewrite run_length_decode_encode
    by apply delta_encode_int8, quantize_to_int8_range.
  rewrite delta_decode_encode by apply quantize_to_int8_range.
  unfold dequantize_from_int8, quantize_to_int8. by rewrite map_map.
Qed.

Lemma decompress_compress_length kv_data num_tokens hidden_dim layer_id :
  length (decompress (compress kv_data num_tokens hidden_dim layer_id)
            num_tokens hidden_dim)
  = length kv_data.
Proof. rewrite decompress_compress. apply length_map. Qed.

(** The clamp of [quantize_to_int8] never changes anything: what it is given
    is a byte already. *)
Lemma quantize_one_clamp_is_dead scale x :
  quantize_one scale x
  = static_cast_int8 (F32.round (F32.mul (F32.div x scale) (F32.of_Z 127))).
Proof.
  unfold quantize_one.
  set (q := static_cast_int8 _).
  assert (is_int8 q) as Hq.
  { subst q. unfold static_cast_int8.
    destruct (F32.round _) as [z|]; [|unfold is_int8; lia].
    destruct ((- 2 ^ 31 <=? z) && (z <? 2 ^ 31));
      [apply to_int8_range | unfold is_int8; lia]. }
  unfold is_int8 in Hq. replace (Z.max (-128) (Z.min 127 q)) with q by lia.
  by apply to_int8_id.
Qed.

(** Where the rounded number fits a byte the code and the formula agree. *)
Lemma quantize_one_in_range scale x r :
  F32.round (F32.mul (F32.div x scale) (F32.of_Z 127)) = Some r →
  is_int8 r →
  quantize_one scale x = r ∧ quantize_clamped scale x = r.
Proof.
  intros Hr Hrange. unfold quantize_one, quantize_clamped. rewrite Hr.
  unfold is_int8 in Hrange. cbn [static_cast_int8].
  replace ((- 2 ^ 31 <=? r) && (r <? 2 ^ 31)) with true
    by (symmetry; apply andb_true_intro; split; [apply Z.leb_le | apply Z.ltb_lt]; lia).
  rewrite (to_int8_id r) by done.
  replace (Z.max (-128) (Z.min 127 r)) with r by lia.
  split; [by apply to_int8_id | done].
Qed.

Lemma within_stepb_spec m x y : within_stepb m x y = true ↔ within_step m x y.
Proof. apply Qle_bool_iff. Qed.

(** Whatever byte the conversion of the out-of-range number 16129 leaves in
    [quantized_val], the value that comes back for the input [1.0] is more
    than one step away from it. *)
Lemma one_comes_back_wrong q :
  is_int8 q →
  ¬ within_step (F32.of_Z 1) (F32.of_Z 1)
      (dequantize_one (compute_scale_factor [F32.of_Z 1]) q).
Proof.
  intros Hq.
  assert (Hall : forallb
            (λ q, negb (within_stepb (F32.of_Z 1) (F32.of_Z 1)
                          (dequantize_one (compute_scale_factor [F32.of_Z 1]) q)))
            (seqZ (-128) 256) = true) by (vm_compute; reflexivity).
  rewrite forallb_forall in Hall.
  specialize (Hall q). rewrite <- within_stepb_spec.
  destruct (within_stepb _ _ _); [|done].
  exfalso. apply (Bool.diff_false_true). apply Hall.
  apply list_elem_of_In, elem_of_seqZ. unfold is_int8 in Hq. lia.
Qed.

End Pipeline.

(** ** The claims about the compression engine *)

Section CompressionClaims.
Import FPGACacheEngine.

(** C9.  For every sequence [s] of signed 8-bit values, decoding the
    run-length encoding of [s] gives [s] back.  The empty sequence encodes to
    the empty byte string.  A run is flushed, as the pair (value, count),
    when the value changes (third part) or when the count has reached 255
    (fourth part), and only then. *)
Theorem run_length_roundtrip (s : list Z) :
  Forall is_int8 s →
  run_length_decode (run_length_encode s) = s
  ∧ run_length_encode [] = []
  ∧ (∀ (n : nat) v w rest,
       s = replicate n v ++ w :: rest → (1 <= n <= 255)%nat → w ≠ v →
       run_length_encode s
       = [to_uint8 v; Z.of_nat n] ++ run_length_encode (w :: rest))
  ∧ (∀ v rest,
       s = replicate 255 v ++ v :: rest →
       run_length_encode s
       = [to_uint8 v; 255] ++ run_length_encode (v :: rest)).
Proof.
  intros Hs. split; [by apply run_length_decode_encode|].
  split; [done|]. split.
  - intros n v w rest -> Hn Hw.
    rewrite run_length_encode_run by done. cbn [rle_loop].
    replace (w =? v) with false by (symmetry; by apply Z.eqb_neq).
    cbn [andb app]. rewrite rle_loop_app.
    rewrite (to_uint8_id (Z.of_nat n)) by (unfold is_uint8; lia). done.
  - intros v rest ->.
    rewrite run_length_encode_run by lia. cbn [rle_loop].
    rewrite Z.eqb_refl. change (Z.of_nat 255 <? 255) with false.
    cbn [andb app]. rewrite rle_loop_app. done.
Qed.

Lemma run_length_roundtrip_witness :
  run_length_decode (run_length_encode [5; 5; -3; -3; -3; 127; -128])
  = [5; 5; -3; -3; -3; 127; -128].
Proof.
  refine (proj1 (run_length_roundtrip [5; 5; -3; -3; -3; 127; -128] _)).
  repeat constructor; unfold is_int8; lia.
Defined.

(** C7, at the input [[1.0]] with its own scale.  The rounded number
    [(1.0 / s) * 127] is 16129.  The code converts it to [int8_t] before it
    clamps, which leaves the low byte 1 and nothing for the clamp to do; the
    formula of the claim saturates at 127. *)
Theorem quantize_wraps_before_clamp :
  let kv_data := [F32.of_Z 1] in
  let scale := compute_scale_factor kv_data in
  F32.round (F32.mul (F32.div (F32.of_Z 1) scale) (F32.of_Z 127)) = Some 16129
  ∧ quantize_to_int8 kv_data scale = [1]
  ∧ map (quantize_clamped scale) kv_data = [127].
Proof. vm_compute. done. Qed.

(** C1, at the input [[1.0]].  The result has the length of the input, but
    its element is [8521232 * 2^-37], about 0.000062, and not within
    [max|x| / 127] of 1.0: the scale [max|x| / 127] is multiplied by 127 once
    more in the quantizer, so that the largest element is quantized from
    16129, which no [int8_t] holds. *)
Theorem roundtrip_exceeds_step :
  let kv_data := [F32.of_Z 1] in
  let result := decompress (compress kv_data 1 1 0) 1 1 in
  length result = length kv_data
  ∧ result = [S754_finite false 8521232 (-37)]
  ∧ ¬ roundtrip_within_step kv_data 1 1 0.
Proof.
  cbv zeta. split; [apply decompress_compress_length|].
  split; [by vm_compute|].
  unfold roundtrip_within_step. rewrite decompress_compress. cbn [map].
  intros H. apply Forall2_cons_1 in H as [H _]. revert H.
  change (max_abs [F32.of_Z 1]) with (F32.of_Z 1).
  apply one_comes_back_wrong, to_int8_range.
Qed.

End CompressionClaims.

(** ** The translation cache *)

Section TranslationClaims.
Import AddressTranslationUnit.

(** What a miss returns and what it installs, for every address. *)
Lemma translate_miss virtual_addr u entry :
  tlb_size_ u ≠ 0 →
  tlb_ u !! Z.to_nat (Z.shiftr (Z.land virtual_addr page_mask) 12
                      mod tlb_size_ u) = Some entry →
  valid entry && (virtual_page entry =? Z.land virtual_addr page_mask) = false →
  ∃ u',
    translate virtual_addr u
    = Some (wrap64 (page_walk virtual_addr + Z.land virtual_addr 0xFFF), u')
    ∧ tlb_size_ u' = tlb_size_ u
    ∧ tlb_ u' !! Z.to_nat (Z.shiftr (Z.land virtual_addr page_mask) 12
                           mod tlb_size_ u)
      = Some {| virtual_page := Z.land virtual_addr page_mask;
                physical_page := Z.land (page_walk virtual_addr) page_mask;
                valid := true |}.
Proof.
  intros Hsize Hentry Hmiss. unfold translate.
  apply Z.eqb_neq in Hsize. rewrite Hsize, Hentry. cbn [mbind option_bind].
  rewrite Hmiss. eexists. split; [done|]. split; [done|]. cbn [tlb_].
  apply list_lookup_insert_eq. by eapply lookup_lt_Some.
Qed.

(** What the hit on an installed entry returns. *)
Lemma translate_hit virtual_addr u physical_page_ :
  tlb_size_ u ≠ 0 →
  tlb_ u !! Z.to_nat (Z.shiftr (Z.land virtual_addr page_mask) 12
                      mod tlb_size_ u)
  = Some {| virtual_page := Z.land virtual_addr page_mask;
            physical_page := physical_page_;
            valid := true |} →
  ∃ u',
    translate virtual_addr u
    = Some (wrap64 (physical_page_ + Z.land virtual_addr 0xFFF), u').
Proof.
  intros Hsize Hentry. unfold translate.
  apply Z.eqb_neq in Hsize. rewrite Hsize, Hentry. cbn [mbind option_bind].
  cbn [valid virtual_page physical_page]. rewrite Z.eqb_refl. cbn [andb].
  by eexists.
Qed.

Lemma land_offset x : Z.land x 0xFFF = x mod 4096.
Proof. change 0xFFF with (Z.ones 12). by rewrite Z.land_ones. Qed.

Lemma land_page_mask x :
  0 <= x < two64 → Z.land x page_mask = x - x mod 4096.
Proof.
  intros Hx. unfold two64 in Hx.
  assert (Z.land x page_mask + Z.land x 0xFFF = x) as Hsum.
  { assert (Z.land (Z.land x page_mask) (Z.land x 0xFFF) = 0) as Hdisj.
    { rewrite Z.land_assoc, (Z.land_comm (Z.land x page_mask) x),
        Z.land_assoc, Z.land_diag, <- Z.land_assoc.
      change (Z.land page_mask 0xFFF) with 0. apply Z.land_0_r. }
    rewrite Z.add_nocarry_lxor, Z.lxor_lor by exact Hdisj.
    rewrite <- Z.land_lor_distr_r.
    change (Z.lor page_mask 0xFFF) with (Z.ones 64).
    rewrite Z.land_ones by lia. apply Z.mod_small. lia. }
  rewrite land_offset in Hsum. lia.
Qed.

Lemma page_walk_value va :
  0 <= va < two64 →
  page_walk va = 0x4000000000 + va mod 2 ^ 48
  ∧ page_walk va mod 4096 = va mod 4096
  ∧ 0 <= page_walk va < two64 - 4096.
Proof.
  intros Hva. unfold page_walk, wrap64, two64 in *.
  change 0xFFFFFFFFFFFF with (Z.ones 48). rewrite Z.land_ones by lia.
  pose proof (Z.mod_pos_bound va (2 ^ 48) eq_refl).
  rewrite Z.mod_small by lia.
  split; [done|]. split; [|lia]. Z.div_mod_to_equations. lia.
Qed.

(** For every address: the miss returns the walked address plus the offset,
    the hit that follows returns the walked address itself.  The two agree
    only on page-aligned addresses. *)
Lemma translate_miss_then_hit va u entry :
  0 <= va < two64 →
  tlb_size_ u ≠ 0 →
  tlb_ u !! Z.to_nat (Z.shiftr (Z.land va page_mask) 12 mod tlb_size_ u)
  = Some entry →
  valid entry && (virtual_page entry =? Z.land va page_mask) = false →
  ∃ u1 u2,
    translate va u = Some (page_walk va + va mod 4096, u1)
    ∧ translate va u1 = Some (page_walk va, u2).
Proof.
  intros Hva Hsize Hentry Hmiss.
  destruct (translate_miss va u entry Hsize Hentry Hmiss)
    as (u1 & Hfirst & Hsize1 & Hinstalled).
  rewrite <- Hsize1 in Hinstalled, Hsize.
  destruct (translate_hit va u1 _ Hsize Hinstalled) as (u2 & Hsecond).
  destruct (page_walk_value va Hva) as (_ & Hoff & Hrange).
  pose proof (Z.mod_pos_bound va 4096 eq_refl).
  exists u1, u2. rewrite Hfirst, Hsecond. split; do 3 f_equal.
  - rewrite land_offset. unfold wrap64. apply Z.mod_small. lia.
  - rewrite land_offset, land_page_mask by (unfold two64 in *; lia).
    rewrite Hoff. unfold wrap64.
    replace (page_walk va - va mod 4096 + va mod 4096) with (page_walk va)
      by lia.
    apply Z.mod_small. lia.
Qed.

(** C8, at the address 0x1001 on a fresh unit of 1024 entries.  The miss
    returns 0x4000001002: [page_walk] maps the whole address, offset
    included, and [translate] adds the offset a second time.  The entry it
    installs holds the physical page 0x4000001000, and the hit that follows
    returns 0x4000001001, that page combined with the offset 1. *)
Theorem translate_miss_adds_offset_twice :
  fst <$> translate 0x1001 (new 1024) = Some 0x4000001002
  ∧ ('(_, u1) ← translate 0x1001 (new 1024); tlb_ u1 !! 1%nat)
    = Some {| virtual_page := 0x1000; physical_page := 0x4000001000;
              valid := true |}
  ∧ ('(_, u1) ← translate 0x1001 (new 1024); fst <$> translate 0x1001 u1)
    = Some 0x4000001001.
Proof. repeat split; by vm_compute. Qed.

(** The translation cache of the compression engine, on the same address:
    its miss returns the mapped address as it is, and its hit agrees. *)
Lemma engine_translate_miss_equals_hit :
  fst <$> EngineTLB.translate_address 0x1001 (EngineTLB.new 1024)
  = Some 0x4000001001
  ∧ ('(_, tlb1) ← EngineTLB.translate_address 0x1001 (EngineTLB.new 1024);
     fst <$> EngineTLB.translate_address 0x1001 tlb1)
    = Some 0x4000001001.
Proof. split; by vm_compute. Qed.

End TranslationClaims.

(** ** The adaptive prefetch depth *)

Section PrefetcherClaims.
Import SpeculativePrefetcher.

(** C6 as stated fails: twenty correct observations from depth 4 do not
    leave the depth at 5. *)
Lemma adaptive_depth_after_20_is_not_5 :
  get_adaptive_depth (feed true 20 (new 4)) ≠ 5.
Proof. vm_compute. discriminate. Qed.

(** C6, amended.  Starting from depth 4 with an empty window, the depth
    after [n] calls of [update_prediction_accuracy(_, true)], for [n] from 0
    to 20: it stays 4 while the window holds fewer than ten entries, each of
    the calls 10, 11, 12 and 13 finds the mean of the last ten above 0.95 and
    increments it, and from 8 on it is left alone; after 20 calls it is 8. *)
Theorem adaptive_depth_after_20_is_8 :
  map (λ n, get_adaptive_depth (feed true n (new 4))) (seq 0 21)
  = [4; 4; 4; 4; 4; 4; 4; 4; 4; 4; 5; 6; 7; 8; 8; 8; 8; 8; 8; 8; 8]
  ∧ get_adaptive_depth (feed true 20 (new 4)) = 8.
Proof. split; by vm_compute. Qed.

End PrefetcherClaims.

(** ** The coherence manager *)

Section CoherenceClaims.
Import CoherenceManager.

(** *** The transport call and the counters *)

Lemma send_with_driver op addr m :
  driver_ m = true →
  ∃ m', send_coherence_op_to_fpga op addr m = (true, m')
    ∧ driver_ m' = true
    ∧ cache_line_size_ m' = cache_line_size_ m
    ∧ directory_ m' = directory_ m
    ∧ transport_ m' = transport_ m ++ [(op, addr, true)]
    ∧ writebacks_performed (stats_ m') = writebacks_performed (stats_ m)
    ∧ invalidations_sent (stats_ m') = invalidations_sent (stats_ m).
Proof.
  intros Hd. unfold send_coherence_op_to_fpga. rewrite Hd. cbn [negb].
  eexists. split; [done|]. by destruct op.
Qed.

Lemma update_statistics_frame op hit m :
  driver_ (update_statistics op hit m) = driver_ m
  ∧ cache_line_size_ (update_statistics op hit m) = cache_line_size_ m
  ∧ directory_ (update_statistics op hit m) = directory_ m
  ∧ transport_ (update_statistics op hit m) = transport_ m
  ∧ writebacks_performed (stats_ (update_statistics op hit m))
    = writebacks_performed (stats_ m)
  ∧ invalidations_sent (stats_ (update_statistics op hit m))
    = invalidations_sent (stats_ m).
Proof. by destruct op, hit. Qed.

Lemma align_frame m m' addr :
  cache_line_size_ m' = cache_line_size_ m →
  align_to_cache_line m' addr = align_to_cache_line m addr.
Proof. unfold align_to_cache_line. by intros ->. Qed.

Lemma with_state_same e : with_state (state e) e = e.
Proof. by destruct e. Qed.

(** *** The rows of the protocol table, with a driver *)

(** read on a line without an entry, or with an Invalid one. *)
Lemma request_read_miss m addr size now :
  driver_ m = true →
  (∀ e, get_entry (align_to_cache_line m addr) m = Some e → state e = INVALID) →
  ∃ m' e',
    request_read addr size now m = (true, m')
    ∧ driver_ m' = true
    ∧ cache_line_size_ m' = cache_line_size_ m
    ∧ get_entry (align_to_cache_line m addr) m' = Some e'
    ∧ state e' = SHARED ∧ tier e' = L1_GPU
    ∧ writebacks_performed (stats_ m') = writebacks_performed (stats_ m)
    ∧ invalidations_sent (stats_ m') = invalidations_sent (stats_ m).
Proof.
  intros Hd Hmiss. unfold request_read.
  set (line := align_to_cache_line m addr) in *.
  destruct (update_statistics_frame READ false m) as (Hd1 & Hc1 & Hdir1 & _ & Hw1 & Hi1).
  destruct (send_with_driver READ line (update_statistics READ false m))
    as (m2 & Hsend & Hd2 & Hc2 & Hdir2 & _ & Hw2 & Hi2); [congruence|].
  assert (Hmiss' : match get_entry line m with
                   | Some entry => is_valid_state (state entry) = false
                   | None => True
                   end).
  { destruct (get_entry line m) as [e|]; [|done]. by rewrite (Hmiss e). }
  assert (∃ m' e', (let '(new_entry, m3) := get_or_create_entry line m2 in
            (true, set_directory
               (<[line := with_access now 1
                            (with_tier L1_GPU (with_state SHARED new_entry))]>
                  (directory_ m3)) m3)) = (true, m')
          ∧ driver_ m' = true ∧ cache_line_size_ m' = cache_line_size_ m
          ∧ get_entry line m' = Some e' ∧ state e' = SHARED ∧ tier e' = L1_GPU
          ∧ writebacks_performed (stats_ m') = writebacks_performed (stats_ m)
          ∧ invalidations_sent (stats_ m') = invalidations_sent (stats_ m))
    as (m' & e' & Hres & Hrest).
  { unfold get_or_create_entry.
    destruct (directory_ m2 !! line) as [e|]; eexists _, _;
      (split; [reflexivity|]); unfold get_entry; cbn;
      rewrite lookup_insert_eq; repeat split; congruence. }
  exists m', e'. split; [|done].
  destruct (get_entry line m) as [e|]; [rewrite Hmiss'|]; by rewrite Hsend.
Qed.

(** write on a line that has an entry. *)
Lemma request_write_present m addr size now e :
  driver_ m = true →
  get_entry (align_to_cache_line m addr) m = Some e →
  ∃ m' e',
    request_write addr size now m = (true, m')
    ∧ driver_ m' = true
    ∧ cache_line_size_ m' = cache_line_size_ m
    ∧ get_entry (align_to_cache_line m addr) m' = Some e'
    ∧ state e' = MODIFIED ∧ tier e' = L1_GPU
    ∧ writebacks_performed (stats_ m') = writebacks_performed (stats_ m)
    ∧ invalidations_sent (stats_ m')
      = if decide (state e = SHARED)
        then wrap64 (invalidations_sent (stats_ m) + 1)
        else invalidations_sent (stats_ m).
Proof.
  intros Hd He. unfold request_write.
  set (line := align_to_cache_line m addr) in *. rewrite He.
  set (m1 := if decide (state e = SHARED)
             then add_invalidations_sent 1 (update_statistics INVALIDATE false m)
             else m).
  assert (driver_ m1 = true ∧ cache_line_size_ m1 = cache_line_size_ m
          ∧ directory_ m1 = directory_ m
          ∧ writebacks_performed (stats_ m1) = writebacks_performed (stats_ m)
          ∧ invalidations_sent (stats_ m1)
            = if decide (state e = SHARED)
              then wrap64 (invalidations_sent (stats_ m) + 1)
              else invalidations_sent (stats_ m))
    as (Hd1 & Hc1 & Hdir1 & Hw1 & Hi1).
  { subst m1. by destruct (decide (state e = SHARED)). }
  set (hit := bool_decide (is_Some (Some e))).
  destruct (update_statistics_frame WRITE hit m1)
    as (Hd2 & Hc2 & Hdir2 & _ & Hw2 & Hi2).
  destruct (send_with_driver WRITE line (update_statistics WRITE hit m1))
    as (m3 & Hsend & Hd3 & Hc3 & Hdir3 & _ & Hw3 & Hi3); [congruence|].
  rewrite Hsend. unfold get_or_create_entry.
  destruct (directory_ m3 !! line) as [e3|]; eexists _, _;
    (split; [reflexivity|]); unfold get_entry; cbn;
    rewrite lookup_insert_eq; repeat split; congruence.
Qed.

(** writeback of a Modified line. *)
Lemma writeback_modified m addr size e :
  driver_ m = true →
  get_entry (align_to_cache_line m addr) m = Some e →
  state e = MODIFIED →
  ∃ m' e',
    writeback addr size m = (true, m')
    ∧ driver_ m' = true
    ∧ cache_line_size_ m' = cache_line_size_ m
    ∧ get_entry (align_to_cache_line m addr) m' = Some e'
    ∧ state e' = SHARED ∧ tier e' = L3_CXL
    ∧ writebacks_performed (stats_ m')
      = wrap64 (writebacks_performed (stats_ m) + 1)
    ∧ invalidations_sent (stats_ m') = invalidations_sent (stats_ m).
Proof.
  intros Hd He Hst. unfold writeback.
  set (line := align_to_cache_line m addr) in *. rewrite He.
  rewrite decide_True by done.
  destruct (send_with_driver WRITEBACK line m)
    as (m1 & Hsend & Hd1 & Hc1 & Hdir1 & _ & Hw1 & Hi1); [done|].
  rewrite Hsend. eexists _, _. split; [reflexivity|].
  unfold get_entry. cbn. rewrite lookup_insert_eq.
  repeat split; congruence.
Qed.

(** invalidate of a line that has an entry. *)
Lemma invalidate_present m addr e :
  driver_ m = true →
  get_entry (align_to_cache_line m addr) m = Some e →
  ∃ m' e',
    invalidate addr m = (true, m')
    ∧ driver_ m' = true
    ∧ cache_line_size_ m' = cache_line_size_ m
    ∧ get_entry (align_to_cache_line m addr) m' = Some e'
    ∧ state e' = INVALID ∧ tier e' = tier e
    ∧ writebacks_performed (stats_ m')
      = (if decide (state e = MODIFIED)
         then wrap64 (writebacks_performed (stats_ m) + 1)
         else writebacks_performed (stats_ m))
    ∧ invalidations_sent (stats_ m')
      = wrap64 (invalidations_sent (stats_ m) + 1).
Proof.
  intros Hd He. unfold invalidate.
  set (line := align_to_cache_line m addr) in *. rewrite He.
  set (m1 := if decide (state e = MODIFIED)
             then add_writebacks_performed 1 m else m).
  assert (driver_ m1 = true ∧ cache_line_size_ m1 = cache_line_size_ m
          ∧ directory_ m1 = directory_ m
          ∧ writebacks_performed (stats_ m1)
            = (if decide (state e = MODIFIED)
               then wrap64 (writebacks_performed (stats_ m) + 1)
               else writebacks_performed (stats_ m))
          ∧ invalidations_sent (stats_ m1) = invalidations_sent (stats_ m))
    as (Hd1 & Hc1 & Hdir1 & Hw1 & Hi1).
  { subst m1. by destruct (decide (state e = MODIFIED)). }
  set (m2 := set_directory (<[line := with_state INVALID e]> (directory_ m1)) m1).
  destruct (send_with_driver INVALIDATE line m2)
    as (m3 & Hsend & Hd3 & Hc3 & Hdir3 & _ & Hw3 & Hi3); [done|].
  rewrite Hsend. eexists _, _. split; [reflexivity|].
  unfold get_entry. cbn. rewrite Hdir3. subst m2. cbn.
  rewrite lookup_insert_eq. cbn in *.
  repeat split; congruence.
Qed.

Lemma get_state_entry m addr e :
  get_entry (align_to_cache_line m addr) m = Some e →
  get_state addr m = state e.
Proof. unfold get_state. by intros ->. Qed.

(** *** Transport failures

    The transport call fails exactly when the manager was built without a
    driver.  Such a manager never gets a line out of Invalid. *)

Lemma send_effect op addr m :
  ∃ m', send_coherence_op_to_fpga op addr m = (driver_ m, m')
    ∧ driver_ m' = driver_ m
    ∧ cache_line_size_ m' = cache_line_size_ m
    ∧ directory_ m' = directory_ m
    ∧ transport_ m' = transport_ m ++ [(op, addr, driver_ m)].
Proof.
  unfold send_coherence_op_to_fpga. destruct (driver_ m) eqn:Hd; cbn [negb].
  - eexists. split; [done|]. by destruct op.
  - eexists. split; [done|]. done.
Qed.

Lemma all_invalid_insert d a e :
  all_invalid d → state e = INVALID → all_invalid (<[a := e]> d).
Proof.
  intros Hd He a' e'. rewrite lookup_insert. case_decide; [|apply Hd].
  by intros [= <-].
Qed.

Lemma stable_refl m : stable m m.
Proof. by repeat split. Qed.

Lemma stable_trans m1 m2 m3 : stable m1 m2 → stable m2 m3 → stable m1 m3.
Proof.
  intros (Hd1 & Hc1 & Hi1) (Hd2 & Hc2 & Hi2). repeat split; [congruence..|].
  intros Hd Hi. apply Hi2; [congruence|]. by apply Hi1.
Qed.

Lemma stable_same_directory m m' :
  driver_ m' = driver_ m → cache_line_size_ m' = cache_line_size_ m →
  directory_ m' = directory_ m → stable m m'.
Proof. intros Hd Hc Hdir. repeat split; [done..|]. by rewrite Hdir. Qed.

Lemma stable_insert m a e :
  (driver_ m = false → all_invalid (directory_ m) → state e = INVALID) →
  stable m (set_directory (<[a := e]> (directory_ m)) m).
Proof.
  intros He. repeat split. cbn. intros Hd Hi.
  apply all_invalid_insert; [done|by apply He].
Qed.

Lemma stable_get_or_create addr m : stable m (get_or_create_entry addr m).2.
Proof.
  unfold get_or_create_entry.
  destruct (directory_ m !! addr); [apply stable_refl|].
  by apply stable_insert.
Qed.

Lemma get_or_create_state addr m :
  all_invalid (directory_ m) → state (get_or_create_entry addr m).1 = INVALID.
Proof.
  intros Hi. unfold get_or_create_entry.
  destruct (directory_ m !! addr) as [e|] eqn:E; [by eapply Hi|done].
Qed.

Lemma no_calls (x : bool) :
  ∀ c : CoherenceOp * Z * bool, c ∈ @nil (CoherenceOp * Z * bool) → c.2 = x.
Proof. intros c Hc. by apply elem_of_nil in Hc. Qed.

Lemma one_call (op : CoherenceOp) (addr : Z) (b : bool) :
  ∀ c : CoherenceOp * Z * bool, c ∈ [(op, addr, b)] → c.2 = b.
Proof. intros c Hc. apply list_elem_of_singleton in Hc. by subst c. Qed.

Lemma request_read_effect addr size now m :
  operation_effect m (request_read addr size now m).1
    (request_read addr size now m).2.
Proof.
  unfold request_read. set (line := align_to_cache_line m addr).
  assert (Hmiss :
    operation_effect m
      (let '(success, m2) :=
         send_coherence_op_to_fpga READ line (update_statistics READ false m) in
       if success then
         let '(new_entry, m3) := get_or_create_entry line m2 in
         (true, set_directory
            (<[line := with_access now 1
                         (with_tier L1_GPU (with_state SHARED new_entry))]>
               (directory_ m3)) m3)
       else (false, m2)).1
      (let '(success, m2) :=
         send_coherence_op_to_fpga READ line (update_statistics READ false m) in
       if success then
         let '(new_entry, m3) := get_or_create_entry line m2 in
         (true, set_directory
            (<[line := with_access now 1
                         (with_tier L1_GPU (with_state SHARED new_entry))]>
               (directory_ m3)) m3)
       else (false, m2)).2).
  { destruct (send_effect READ line (update_statistics READ false m))
      as (m2 & -> & Hd2 & Hc2 & Hdir2 & Ht2).
    cbn in Hd2, Hc2, Hdir2, Ht2. cbn [driver_ update_statistics set_stats].
    exists [(READ, line, driver_ m)].
    destruct (driver_ m) eqn:Hd.
    - unfold get_or_create_entry. destruct (directory_ m2 !! line); cbn;
        (split; [done|]); (split; [apply one_call|]); done.
    - cbn. split; [done|]. split; [apply one_call|]. repeat split; auto. }
  destruct (get_entry line m) as [e|] eqn:He; [|exact Hmiss].
  destruct (is_valid_state (state e)) eqn:Hv; [|exact Hmiss].
  exists []. cbn. rewrite app_nil_r. split; [done|]. split; [apply no_calls|].
  split; [done|]. split; [done|]. intros Hd Hi.
  rewrite (Hi _ _ He) in Hv. done.
Qed.

Lemma request_write_effect addr size now m :
  operation_effect m (request_write addr size now m).1
    (request_write addr size now m).2.
Proof.
  unfold request_write. set (line := align_to_cache_line m addr).
  set (m1 := match get_entry line m with
             | Some e =>
                 if decide (state e = SHARED)
                 then add_invalidations_sent 1
                        (update_statistics INVALIDATE false m)
                 else m
             | None => m
             end).
  assert (driver_ m1 = driver_ m ∧ cache_line_size_ m1 = cache_line_size_ m
          ∧ directory_ m1 = directory_ m ∧ transport_ m1 = transport_ m)
    as (Hd1 & Hc1 & Hdir1 & Ht1).
  { subst m1. destruct (get_entry line m) as [e|]; [|done].
    by destruct (decide (state e = SHARED)). }
  set (hit := bool_decide (is_Some (get_entry line m))).
  destruct (update_statistics_frame WRITE hit m1)
    as (Hd2 & Hc2 & Hdir2 & Ht2 & _).
  destruct (send_effect WRITE line (update_statistics WRITE hit m1))
    as (m3 & -> & Hd3 & Hc3 & Hdir3 & Ht3).
  rewrite Hd2, Hd1. rewrite Hd2, Hd1 in Hd3, Ht3.
  rewrite Hc2, Hc1 in Hc3. rewrite Hdir2, Hdir1 in Hdir3.
  rewrite Ht2, Ht1 in Ht3.
  exists [(WRITE, line, driver_ m)].
  destruct (driver_ m) eqn:Hd.
  - unfold get_or_create_entry. destruct (directory_ m3 !! line); cbn;
      (split; [done|]); (split; [apply one_call|]); done.
  - cbn. split; [done|]. split; [apply one_call|]. repeat split; auto.
Qed.

Lemma invalidate_effect addr m :
  operation_effect m (invalidate addr m).1 (invalidate addr m).2.
Proof.
  unfold invalidate. set (line := align_to_cache_line m addr).
  destruct (get_entry line m) as [e|] eqn:He.
  - set (m1 := if decide (state e = MODIFIED)
               then add_writebacks_performed 1 m else m).
    assert (driver_ m1 = driver_ m ∧ cache_line_size_ m1 = cache_line_size_ m
            ∧ directory_ m1 = directory_ m ∧ transport_ m1 = transport_ m)
      as (Hd1 & Hc1 & Hdir1 & Ht1).
    { subst m1. by destruct (decide (state e = MODIFIED)). }
    set (m2 := set_directory
                 (<[line := with_state INVALID e]> (directory_ m1)) m1).
    destruct (send_effect INVALIDATE line m2)
      as (m3 & -> & Hd3 & Hc3 & Hdir3 & Ht3).
    cbn in Hd3, Hc3, Hdir3, Ht3.
    unfold add_invalidations_sent, set_stats.
    cbn [fst snd transport_ driver_ cache_line_size_ directory_].
    rewrite Hd1 in Hd3, Ht3. rewrite Ht1 in Ht3.
    exists [(INVALIDATE, line, driver_ m)].
    split; [done|]. split; [apply one_call|].
    split; [done|]. split; [by etrans|].
    intros Hd Hi. split; [|right; change (driver_ m1 = false); congruence].
    rewrite Hdir3, Hdir1. apply insert_id.
    rewrite <- (Hi _ _ He), with_state_same. exact He.
  - exists []. cbn. rewrite app_nil_r. split; [done|].
    split; [apply no_calls|]. repeat split; auto.
Qed.

Lemma writeback_effect addr size m :
  operation_effect m (writeback addr size m).1 (writeback addr size m).2.
Proof.
  unfold writeback. set (line := align_to_cache_line m addr).
  assert (Hnone : operation_effect m true m).
  { exists []. rewrite app_nil_r. split; [done|].
    split; [apply no_calls|]. repeat split; auto. }
  destruct (get_entry line m) as [e|] eqn:He; [|exact Hnone].
  destruct (decide (state e = MODIFIED)) as [Hst|]; [|exact Hnone].
  destruct (send_effect WRITEBACK line m)
    as (m1 & -> & Hd1 & Hc1 & Hdir1 & Ht1).
  exists [(WRITEBACK, line, driver_ m)].
  destruct (driver_ m) eqn:Hd; cbn.
  - split; [done|]. split; [apply one_call|]. done.
  - split; [done|]. split; [apply one_call|]. repeat split; auto.
Qed.

Lemma perform_effect op addr size now m :
  operation_effect m (perform op addr size now m).1
    (perform op addr size now m).2.
Proof.
  destruct op; cbn [perform].
  - apply request_read_effect.
  - apply request_write_effect.
  - apply invalidate_effect.
  - apply writeback_effect.
Qed.

Lemma operation_effect_stable m result m' :
  operation_effect m result m' → stable m m'.
Proof.
  intros (calls & _ & _ & Hd & Hc & Hno). repeat split; [done..|].
  intros Hd0 Hi. by destruct (Hno Hd0 Hi) as [-> _].
Qed.

Lemma promote_to_l1_stable addr m : stable m (promote_to_l1 addr m).2.
Proof.
  unfold promote_to_l1. set (line := align_to_cache_line m addr).
  pose proof (stable_get_or_create line m) as Hst.
  pose proof (get_or_create_state line m) as Hinv.
  destruct (get_or_create_entry line m) as [entry m1]. cbn [fst snd] in *.
  destruct (decide (tier entry = L1_GPU)); [done|].
  destruct (send_effect READ line m1) as (m2 & -> & Hd2 & Hc2 & Hdir2 & _).
  apply (stable_trans _ m1); [done|].
  apply (stable_trans _ m2); [by apply stable_same_directory|].
  destruct (driver_ m1) eqn:Hd1; cbn [snd]; [|apply stable_refl].
  apply stable_insert. congruence.
Qed.

Lemma demote_to_l3_stable addr m : stable m (demote_to_l3 addr m).2.
Proof.
  unfold demote_to_l3. set (line := align_to_cache_line m addr).
  destruct (get_entry line m) as [entry|] eqn:He; [|apply stable_refl].
  destruct (decide (tier entry = L3_CXL)); [apply stable_refl|].
  destruct (decide (state entry = MODIFIED)) as [Hmod|Hmod].
  - destruct (send_effect WRITEBACK line m) as (m' & -> & Hd & Hc & Hdir & _).
    cbn [snd]. repeat split; [by cbn..|].
    intros Hd0 Hi. rewrite (Hi _ _ He) in Hmod. done.
  - cbn [snd]. apply stable_insert. intros _ Hi. by apply (Hi _ _ He).
Qed.

Lemma get_or_create_lookup addr m :
  directory_ (get_or_create_entry addr m).2 !! addr
  = Some (get_or_create_entry addr m).1.
Proof.
  unfold get_or_create_entry.
  destruct (directory_ m !! addr) as [e|] eqn:E; [done|].
  cbn. apply lookup_insert_eq.
Qed.

Lemma update_tier_stable addr new_tier m :
  stable m (update_tier addr new_tier m).
Proof.
  unfold update_tier. set (line := align_to_cache_line m addr).
  pose proof (stable_get_or_create line m) as Hst.
  pose proof (get_or_create_lookup line m) as Hlook.
  destruct (get_or_create_entry line m) as [entry m1]. cbn [fst snd] in *.
  apply (stable_trans _ m1); [done|].
  apply stable_insert. intros _ Hi1. by apply (Hi1 _ _ Hlook).
Qed.

Lemma foldl_stable {A B} (π : A → t) (step : A → B → A) (l : list B) :
  (∀ acc x, stable (π acc) (π (step acc x))) →
  ∀ acc, stable (π acc) (π (foldl step acc l)).
Proof.
  intros Hstep. induction l as [|x l IH]; intros acc; cbn.
  - apply stable_refl.
  - eapply stable_trans; [apply Hstep | apply IH].
Qed.

Lemma flush_step_stable acc kv : stable acc.1 (flush_step acc kv).1.
Proof.
  destruct acc as [m flushed]. unfold flush_step. cbn [fst].
  destruct (directory_ m !! kv.1) as [entry|] eqn:He; [|apply stable_refl].
  destruct (decide (state entry = MODIFIED)) as [Hmod|]; [|apply stable_refl].
  destruct (send_effect WRITEBACK kv.1 m) as (m1 & -> & Hd & Hc & Hdir & _).
  cbn [fst]. repeat split; [by cbn..|].
  intros Hd0 Hi. rewrite (Hi _ _ He) in Hmod. done.
Qed.

Lemma flush_all_stable m : stable m (flush_all m).2.
Proof.
  unfold flush_all.
  pose proof (foldl_stable fst flush_step (map_to_list (directory_ m))
                flush_step_stable (m, 0)) as Hfold.
  destruct (foldl flush_step (m, 0) (map_to_list (directory_ m)))
    as [m' flushed].
  cbn [fst snd] in *. eapply stable_trans; [exact Hfold|].
  by apply stable_same_directory.
Qed.

Lemma batch_invalidate_step_stable acc addr :
  stable acc.2 (batch_invalidate_step acc addr).2.
Proof.
  destruct acc as [ok m]. unfold batch_invalidate_step. cbn [snd].
  set (line := align_to_cache_line m addr).
  destruct (get_entry line m) as [entry|] eqn:He; [|apply stable_refl].
  set (m1 := set_directory (<[line := with_state INVALID entry]> (directory_ m)) m).
  destruct (send_effect INVALIDATE line m1) as (m2 & -> & Hd & Hc & Hdir & _).
  cbn [snd]. apply (stable_trans _ m1).
  - by apply stable_insert.
  - by apply stable_same_directory.
Qed.

Lemma batch_invalidate_stable addrs m : stable m (batch_invalidate addrs m).2.
Proof.
  unfold batch_invalidate.
  pose proof (foldl_stable snd batch_invalidate_step addrs
                batch_invalidate_step_stable (true, m)) as Hfold.
  destruct (foldl batch_invalidate_step (true, m) addrs) as [ok m'].
  cbn [fst snd] in *. eapply stable_trans; [exact Hfold|].
  by apply stable_same_directory.
Qed.

Lemma batch_writeback_step_stable acc addr :
  stable acc.2 (batch_writeback_step acc addr).2.
Proof.
  destruct acc as [ok m]. unfold batch_writeback_step. cbn [snd].
  set (line := align_to_cache_line m addr).
  destruct (get_entry line m) as [entry|] eqn:He; [|apply stable_refl].
  destruct (decide (state entry = MODIFIED)) as [Hmod|]; [|apply stable_refl].
  destruct (send_effect WRITEBACK line m) as (m1 & -> & Hd & Hc & Hdir & _).
  cbn [snd]. repeat split; [by cbn..|].
  intros Hd0 Hi. rewrite (Hi _ _ He) in Hmod. done.
Qed.

Lemma batch_writeback_stable data m : stable m (batch_writeback data m).2.
Proof.
  unfold batch_writeback.
  pose proof (foldl_stable snd batch_writeback_step data
                batch_writeback_step_stable (true, m)) as Hfold.
  destruct (foldl batch_writeback_step (true, m) data) as [ok m'].
  cbn [fst snd] in *. eapply stable_trans; [exact Hfold|].
  by apply stable_same_directory.
Qed.

Lemma run_stable c m : stable m (run c m).2.
Proof.
  destruct c; cbn [run snd].
  - apply (operation_effect_stable _ _ _ (request_read_effect _ _ _ m)).
  - apply (operation_effect_stable _ _ _ (request_write_effect _ _ _ m)).
  - apply (operation_effect_stable _ _ _ (invalidate_effect _ m)).
  - apply (operation_effect_stable _ _ _ (writeback_effect _ _ m)).
  - apply flush_all_stable.
  - apply promote_to_l1_stable.
  - apply demote_to_l3_stable.
  - apply update_tier_stable.
  - apply batch_invalidate_stable.
  - apply batch_writeback_stable.
  - by apply stable_same_directory.
Qed.

(** Without a driver no line ever leaves Invalid. *)
Lemma reachable_without_driver m :
  reachable m → driver_ m = false → all_invalid (directory_ m).
Proof.
  induction 1 as [driver cls|c m Hreach IH]; intros Hd.
  - intros a e. cbn. by rewrite lookup_empty.
  - destruct (run_stable c m) as (Hd' & _ & Hinv).
    rewrite Hd' in Hd. by apply Hinv, IH.
Qed.

(** [invalidate] writes Invalid into the entry before it calls the
    transport, whatever the call then returns. *)
Remark invalidate_marks_before_transport addr m e :
  get_entry (align_to_cache_line m addr) m = Some e →
  get_state addr (invalidate addr m).2 = INVALID.
Proof.
  intros He. unfold get_state, invalidate.
  set (line := align_to_cache_line m addr) in *. rewrite He.
  set (m1 := if decide (state e = MODIFIED)
             then add_writebacks_performed 1 m else m).
  assert (cache_line_size_ m1 = cache_line_size_ m) as Hc1
    by (subst m1; by destruct (decide (state e = MODIFIED))).
  set (m2 := set_directory (<[line := with_state INVALID e]> (directory_ m1)) m1).
  destruct (send_effect INVALIDATE line m2) as (m3 & -> & _ & Hc3 & Hdir3 & _).
  cbn [snd]. unfold get_entry, align_to_cache_line, add_invalidations_sent.
  cbn [set_stats directory_ cache_line_size_]. rewrite Hc3, Hdir3.
  change (cache_line_size_ m2) with (cache_line_size_ m1). rewrite Hc1.
  change (directory_ m2) with (<[line := with_state INVALID e]> (directory_ m1)).
  fold (align_to_cache_line m addr). fold line. by rewrite lookup_insert_eq.
Qed.

(** C4.  For each of read, write, invalidate and writeback, on any address
    and any manager a program can hold: if a transport call the operation
    makes fails, the operation returns false and the directory entry of the
    line is what it was before the call, with the same state and tier.  (A
    transport call fails only in a manager built without a driver, and there
    every entry is Invalid already when [invalidate] marks it.) *)
Theorem transport_failure_keeps_entry
    (m : t) (op : Operation) (addr size now : Z) :
  reachable m →
  (∃ c, c ∈ calls_since m (perform op addr size now m).2 ∧ c.2 = false) →
  (perform op addr size now m).1 = false
  ∧ get_entry (align_to_cache_line m addr) (perform op addr size now m).2
    = get_entry (align_to_cache_line m addr) m
  ∧ get_state addr (perform op addr size now m).2 = get_state addr m
  ∧ get_tier addr (perform op addr size now m).2 = get_tier addr m.
Proof.
  intros Hreach (c & Hin & Hfalse).
  destruct (perform_effect op addr size now m)
    as (calls & Ht & Hcalls & Hd & Hcls & Hno).
  unfold calls_since in Hin. rewrite Ht, drop_app_length in Hin.
  assert (driver_ m = false) as Hnodrv by (by rewrite <- (Hcalls c Hin)).
  destruct (Hno Hnodrv (reachable_without_driver m Hreach Hnodrv))
    as [Hdir Hres].
  assert (get_entry (align_to_cache_line m addr) (perform op addr size now m).2
          = get_entry (align_to_cache_line m addr) m) as Hentry
    by (unfold get_entry; by rewrite Hdir).
  split.
  - destruct Hres as [-> | Hres]; [|done]. by apply elem_of_nil in Hin.
  - split; [done|]. unfold get_state, get_tier.
    rewrite (align_frame m _ addr Hcls), Hentry. done.
Qed.

Lemma transport_failure_keeps_entry_witness :
  let m := (run (CallUpdateTier 0x1000 L1_GPU) (new false 64)).2 in
  (invalidate 0x1000 m).1 = false
  ∧ get_state 0x1000 (invalidate 0x1000 m).2 = INVALID
  ∧ get_tier 0x1000 (invalidate 0x1000 m).2 = L1_GPU.
Proof.
  cbv zeta.
  destruct (transport_failure_keeps_entry
              (run (CallUpdateTier 0x1000 L1_GPU) (new false 64)).2
              OpInvalidate 0x1000 0 0) as (Hres & _ & Hstate & Htier).
  - apply reachable_run, reachable_new.
  - exists (INVALIDATE, 0x1000, false). split; [|reflexivity].
    vm_compute. apply list_elem_of_here.
  - split; [exact Hres|]. split; [exact Hstate | exact Htier].
Defined.

(** C2 as stated fails on a fresh manager with a driver, at the 64-byte
    aligned address 0x1000: the four states are as claimed, but a read that
    misses and a write are each counted twice (once by the operation, once
    more inside [send_coherence_op_to_fpga]), and the write to the Shared
    line has already counted one invalidation before [invalidate] counts its
    own. *)
Lemma mesi_cycle_counters_not_all_one :
  let '(states, m4) := mesi_cycle 0x1000 64 1 2 (new true 64) in
  states = [SHARED; MODIFIED; SHARED; INVALID]
  ∧ total_reads (stats_ m4) = 2
  ∧ total_writes (stats_ m4) = 2
  ∧ writebacks_performed (stats_ m4) = 1
  ∧ invalidations_sent (stats_ m4) = 2
  ∧ ¬ (total_reads (stats_ m4) = 1 ∧ total_writes (stats_ m4) = 1
       ∧ writebacks_performed (stats_ m4) = 1
       ∧ invalidations_sent (stats_ m4) = 1).
Proof. vm_compute. repeat split; try done. intros [? _]. done. Qed.

(** C2, amended.  With a driver attached, on an address whose line has no
    directory entry and with the counters at zero, the sequence read, write,
    writeback, invalidate leaves the observed state at Shared, Modified,
    Shared, Invalid, and afterwards [writebacks_performed] is 1 and
    [invalidations_sent] is 2: one invalidation counted by the write to the
    Shared line, one by [invalidate]. *)
Theorem mesi_cycle_states_and_counters
    (m : t) (addr size now_read now_write : Z) :
  driver_ m = true →
  get_entry (align_to_cache_line m addr) m = None →
  stats_ m = zero_statistics →
  let '(states, m4) := mesi_cycle addr size now_read now_write m in
  states = [SHARED; MODIFIED; SHARED; INVALID]
  ∧ writebacks_performed (stats_ m4) = 1
  ∧ invalidations_sent (stats_ m4) = 2.
Proof.
  intros Hd Hentry Hstats. unfold mesi_cycle.
  destruct (request_read_miss m addr size now_read Hd)
    as (m1 & e1 & -> & Hd1 & Hc1 & He1 & Hs1 & _ & Hw1 & Hi1).
  { intros e. by rewrite Hentry. }
  rewrite <- (align_frame m m1 addr Hc1) in He1.
  destruct (request_write_present m1 addr size now_write e1 Hd1 He1)
    as (m2 & e2 & -> & Hd2 & Hc2 & He2 & Hs2 & _ & Hw2 & Hi2).
  rewrite <- (align_frame m1 m2 addr Hc2) in He2.
  destruct (writeback_modified m2 addr size e2 Hd2 He2 Hs2)
    as (m3 & e3 & -> & Hd3 & Hc3 & He3 & Hs3 & _ & Hw3 & Hi3).
  rewrite <- (align_frame m2 m3 addr Hc3) in He3.
  destruct (invalidate_present m3 addr e3 Hd3 He3)
    as (m4 & e4 & -> & Hd4 & Hc4 & He4 & Hs4 & _ & Hw4 & Hi4).
  rewrite <- (align_frame m3 m4 addr Hc4) in He4.
  rewrite (get_state_entry _ _ _ He1), (get_state_entry _ _ _ He2),
    (get_state_entry _ _ _ He3), (get_state_entry _ _ _ He4).
  rewrite Hs1, Hs2, Hs3, Hs4. split; [done|].
  rewrite Hw4, Hi4, Hs3, Hw3, Hi3, Hw2, Hi2, Hs1, Hw1, Hi1, Hstats.
  by vm_compute.
Qed.

Lemma mesi_cycle_states_and_counters_witness :
  let '(states, m4) := mesi_cycle 0x1000 64 1 2 (new true 64) in
  states = [SHARED; MODIFIED; SHARED; INVALID]
  ∧ writebacks_performed (stats_ m4) = 1
  ∧ invalidations_sent (stats_ m4) = 2.
Proof.
  apply (mesi_cycle_states_and_counters (new true 64) 0x1000 64 1 2);
    reflexivity.
Defined.

End CoherenceClaims.

(** ** The tiered page allocator *)

Section AllocatorClaims.
Import CXLMemoryManager.

(** [deallocate] takes exactly one key out of the page table: the address
    it is given. *)
Lemma deallocate_page_table va m :
  page_table_ (deallocate va m) = delete va (page_table_ m).
Proof.
  unfold deallocate. destruct (page_table_ m !! va) as [page|] eqn:E.
  - by destruct (tier page).
  - symmetry. by apply delete_id.
Qed.

Lemma deallocate_unknown va m :
  page_table_ m !! va = None → deallocate va m = m.
Proof. unfold deallocate. by intros ->. Qed.

Lemma deallocate_keeps_other_pages va va' m :
  va' ≠ va → page_table_ (deallocate va m) !! va' = page_table_ m !! va'.
Proof. intros Hne. rewrite deallocate_page_table. by apply lookup_delete_ne. Qed.

(** The tier [allocate] places a request in: the capacity of L1 is looked
    at when L1 is preferred, and no other capacity ever. *)
Lemma allocate_returns_cursor size_bytes layer preferred_tier now m :
  page_size_ m ≠ 0 →
  ∃ m',
    allocate size_bytes layer preferred_tier now m
    = Some (next_virtual_addr_ m, m')
    ∧ page_size_ m' = page_size_ m
    ∧ next_virtual_addr_ m'
      = wrap64 (next_virtual_addr_ m + required_bytes_for size_bytes m)
    ∧ match preferred_tier with
      | L1_GPU_LOCAL =>
          if can_fit_in_tier L1_GPU_LOCAL (required_bytes_for size_bytes m) m
          then l1_pages_ m' = l1_pages_ m ++ [next_virtual_addr_ m]
          else l3_pages_ m' = l3_pages_ m ++ [next_virtual_addr_ m]
      | L2_PREFETCH => l2_pages_ m' = l2_pages_ m ++ [next_virtual_addr_ m]
      | L3_CXL_POOL => l3_pages_ m' = l3_pages_ m ++ [next_virtual_addr_ m]
      end.
Proof.
  intros Hps. unfold allocate. apply Z.eqb_neq in Hps. rewrite Hps.
  fold (num_pages_for size_bytes m). fold (required_bytes_for size_bytes m).
  eexists. split; [reflexivity|].
  destruct preferred_tier; cbn [bool_decide decide_rel andb negb];
    [destruct (can_fit_in_tier L1_GPU_LOCAL _ m)|..]; done.
Qed.

(** Without wrap-around the request is rounded up to whole pages. *)
Lemma required_bytes_bounds size_bytes m :
  0 < page_size_ m → 0 <= size_bytes →
  size_bytes + page_size_ m < two64 →
  size_bytes <= required_bytes_for size_bytes m < size_bytes + page_size_ m
  ∧ (size_bytes = 0 → required_bytes_for size_bytes m = 0).
Proof.
  intros Hps Hsize Hfit.
  unfold required_bytes_for, num_pages_for, wrap64, two64 in *.
  rewrite (Z.mod_small (size_bytes + page_size_ m)) by lia.
  rewrite (Z.mod_small (size_bytes + page_size_ m - 1)) by lia.
  pose proof (Z.div_mod (size_bytes + page_size_ m - 1) (page_size_ m)) as Hdm.
  pose proof (Z.mod_pos_bound (size_bytes + page_size_ m - 1) (page_size_ m) Hps).
  assert (0 <= (size_bytes + page_size_ m - 1) / page_size_ m)
    by (apply Z.div_pos; lia).
  rewrite Z.mod_small by nia.
  split; [nia|]. intros ->. rewrite Z.div_small by lia. done.
Qed.

(** The key of page [i] of an allocation that does not run past the end of
    the address space. *)
Lemma make_page_key vb pb ti layer ps now i n :
  0 < ps → 0 <= vb → vb + n * ps <= two64 → 0 <= i < n →
  virtual_addr (make_page vb pb ti layer ps now i) = vb + i * ps.
Proof.
  intros Hps Hvb Hfit Hi. cbn [make_page virtual_addr]. unfold wrap64.
  assert (0 <= i * ps < two64) by (unfold two64 in *; nia).
  rewrite (Z.mod_small (i * ps)) by done.
  apply Z.mod_small. unfold two64 in *. nia.
Qed.

(** The loop of [allocate] enters every page of the allocation. *)
Lemma create_pages_lookup vb pb ti layer ps now (n : nat) pt i :
  0 < ps → 0 <= vb → vb + Z.of_nat n * ps <= two64 → 0 <= i < Z.of_nat n →
  create_pages vb pb ti layer ps now (Z.of_nat n) pt !! (vb + i * ps)
  = Some (make_page vb pb ti layer ps now i).
Proof.
  intros Hps Hvb. unfold create_pages.
  induction n as [|n IH]; intros Hfit Hi; [lia|].
  rewrite seqZ_S, foldl_snoc. cbn beta. rewrite Z.add_0_l.
  rewrite (make_page_key vb pb ti layer ps now (Z.of_nat n) (Z.of_nat (S n)))
    by (done || lia).
  destruct (decide (i = Z.of_nat n)) as [->|Hne].
  - apply lookup_insert_eq.
  - rewrite lookup_insert_ne by nia. apply IH; nia.
Qed.

Lemma allocate_page_table size_bytes layer preferred_tier now m base m' :
  allocate size_bytes layer preferred_tier now m = Some (base, m') →
  ∃ pb ti,
    page_table_ m'
    = create_pages (next_virtual_addr_ m) pb ti layer (page_size_ m) now
        (num_pages_for size_bytes m) (page_table_ m).
Proof.
  unfold allocate. destruct (page_size_ m =? 0); [done|].
  fold (num_pages_for size_bytes m). fold (required_bytes_for size_bytes m).
  intros [= _ <-].
  destruct (if bool_decide (preferred_tier = L1_GPU_LOCAL)
               && negb (can_fit_in_tier L1_GPU_LOCAL
                          (required_bytes_for size_bytes m) m)
            then L3_CXL_POOL else preferred_tier); by eexists _, _.
Qed.

(** For every allocation of more than one page that does not wrap the
    cursor: after [deallocate] of its base, its second page is still in the
    page table. *)
Lemma deallocate_leaves_second_page size_bytes layer preferred_tier now m :
  0 < page_size_ m →
  page_size_ m < size_bytes →
  0 <= next_virtual_addr_ m →
  next_virtual_addr_ m + size_bytes + page_size_ m < two64 →
  ∃ base m' page,
    allocate size_bytes layer preferred_tier now m = Some (base, m')
    ∧ page_table_ (deallocate base m') !! (base + page_size_ m) = Some page
    ∧ virtual_addr page = base + page_size_ m
    ∧ layer_id page = layer.
Proof.
  intros Hps Hsize Hcur Hfit.
  destruct (allocate_returns_cursor size_bytes layer preferred_tier now m)
    as (m' & Halloc & _); [lia|].
  destruct (allocate_page_table _ _ _ _ _ _ _ Halloc) as (pb & ti & Hpt).
  destruct (required_bytes_bounds size_bytes m) as [Hreq _]; [lia..|].
  assert (2 <= num_pages_for size_bytes m
          ∧ num_pages_for size_bytes m * page_size_ m
            = required_bytes_for size_bytes m) as [Hn Hmul].
  { unfold required_bytes_for in *. unfold num_pages_for, wrap64, two64 in *.
    rewrite (Z.mod_small (size_bytes + page_size_ m)) in * by lia.
    rewrite (Z.mod_small (size_bytes + page_size_ m - 1)) in * by lia.
    pose proof (Z.div_mod (size_bytes + page_size_ m - 1) (page_size_ m)).
    pose proof (Z.mod_pos_bound (size_bytes + page_size_ m - 1)
                  (page_size_ m) Hps).
    assert (2 <= (size_bytes + page_size_ m - 1) / page_size_ m) by nia.
    split; [done|]. symmetry. apply Z.mod_small. nia. }
  exists (next_virtual_addr_ m), m',
    (make_page (next_virtual_addr_ m) pb ti layer (page_size_ m) now 1).
  split; [done|].
  split; [|split; [|done]].
  - rewrite deallocate_keeps_other_pages by lia. rewrite Hpt.
    rewrite <- (Z2Nat.id (num_pages_for size_bytes m)) by lia.
    replace (next_virtual_addr_ m + page_size_ m)
      with (next_virtual_addr_ m + 1 * page_size_ m) by lia.
    apply create_pages_lookup; [done | done | | lia].
    rewrite Z2Nat.id by lia. unfold two64 in *. lia.
  - rewrite (make_page_key _ _ _ _ _ _ 1 2); unfold two64 in *; lia.
Qed.

(** C3, at an allocation of two pages.  On a manager with the default
    configuration, [allocate(8192, 0, L3)] returns the base 0x100000000 and
    enters the pages 0x100000000 and 0x100001000 into the page table.
    [deallocate] of the base removes the first page and the entry of the
    tier list, and leaves the second page in the page table. *)
Theorem deallocate_leaves_later_pages :
  ('(base, m1) ← allocate 8192 0 L3_CXL_POOL (λ _, 0) (new 12 3 128 4096);
   let m2 := deallocate base m1 in
   Some (base, mapped base m1, mapped (base + 4096) m1,
         mapped base m2, mapped (base + 4096) m2, l3_pages_ m2))
  = Some (0x100000000, true, true, false, true, []).
Proof. by vm_compute. Qed.

(** [update_access_tracking] on a page of any tier puts the address at the
    back of the LRU list, and leaves the tier of the page as it is. *)
Lemma update_access_tracking_lru va now m page :
  page_size_ m ≠ 0 →
  get_page va m = Some page →
  ∃ m',
    update_access_tracking va now m = Some m'
    ∧ l1_lru_list_ m' = erase_value va (l1_lru_list_ m) ++ [va]
    ∧ tier <$> page_table_ m' !! page_key va m = Some (tier page).
Proof.
  intros Hps Hpage. unfold update_access_tracking.
  apply Z.eqb_neq in Hps. rewrite Hps, Hpage.
  eexists. split; [reflexivity|]. split; [done|].
  cbn. by rewrite lookup_insert_eq.
Qed.

Lemma lru_matches_l1_elem m va :
  lru_matches_l1 m →
  va ∈ l1_lru_list_ m
  ↔ ∃ page, page_table_ m !! va = Some page ∧ tier page = L1_GPU_LOCAL.
Proof.
  intros [_ Hset].
  rewrite <- (elem_of_list_to_set (C := gset Z)), Hset.
  unfold l1_resident. rewrite elem_of_dom. unfold is_Some.
  setoid_rewrite map_lookup_filter_Some. naive_solver.
Qed.

(** An access to a page-aligned address whose page is not in L1 breaks the
    invariant of the LRU list, whatever the manager. *)
Lemma access_outside_l1_breaks_lru va now m page :
  page_size_ m ≠ 0 →
  page_key va m = va →
  get_page va m = Some page →
  tier page ≠ L1_GPU_LOCAL →
  ∃ m', update_access_tracking va now m = Some m' ∧ ¬ lru_matches_l1 m'.
Proof.
  intros Hps Hkey Hpage Htier.
  destruct (update_access_tracking_lru va now m page Hps Hpage)
    as (m' & Hupd & Hlru & Hpt).
  exists m'. split; [done|]. intros Hinv.
  assert (va ∈ l1_lru_list_ m') as Hin by (rewrite Hlru; set_solver).
  apply (lru_matches_l1_elem m' va Hinv) in Hin as (page' & Hlook & Hl1).
  rewrite Hkey, Hlook in Hpt. cbn in Hpt. congruence.
Qed.

(** C5, at two short runs on a manager with the default configuration.
    First: a page allocated in L3 and then accessed is on the L1 LRU list
    while its tier is L3, so the list is not the set of the L1 pages.
    Second: a page allocated in L1 is in L1 and not on the list. *)
Theorem lru_list_is_not_the_l1_set :
  match '(base, m1) ← allocate 4096 0 L3_CXL_POOL (λ _, 0) (new 12 3 128 4096);
        m2 ← update_access_tracking base 1 m1;
        Some (base, m2)
  with
  | Some (base, m2) =>
      tier <$> page_table_ m2 !! base = Some L3_CXL_POOL
      ∧ l1_lru_list_ m2 = [base]
      ∧ ¬ lru_matches_l1 m2
  | None => False
  end
  ∧ match allocate 4096 0 L1_GPU_LOCAL (λ _, 0) (new 12 3 128 4096) with
    | Some (base, m1) =>
        tier <$> page_table_ m1 !! base = Some L1_GPU_LOCAL
        ∧ l1_lru_list_ m1 = []
        ∧ ¬ lru_matches_l1 m1
    | None => False
    end.
Proof.
  split.
  - assert ((λ r : Z * t, (r.1, tier <$> page_table_ r.2 !! r.1,
                           l1_lru_list_ r.2, l1_resident r.2))
            <$> ('(base, m1) ← allocate 4096 0 L3_CXL_POOL (λ _, 0)
                                  (new 12 3 128 4096);
                 m2 ← update_access_tracking base 1 m1;
                 Some (base, m2))
            = Some (0x100000000, Some L3_CXL_POOL, [0x100000000], ∅))
      as Hfacts by (by vm_compute).
    destruct ('(base, m1) ← allocate 4096 0 L3_CXL_POOL (λ _, 0)
                               (new 12 3 128 4096);
              m2 ← update_access_tracking base 1 m1;
              Some (base, m2)) as [[base m2]|]; [|done].
    injection Hfacts as -> Htier Hlru Hres.
    split; [done|]. split; [done|].
    intros [_ Hset]. rewrite Hlru, Hres in Hset. set_solver.
  - assert ((λ r : Z * t, (r.1, tier <$> page_table_ r.2 !! r.1,
                           l1_lru_list_ r.2, l1_resident r.2))
            <$> allocate 4096 0 L1_GPU_LOCAL (λ _, 0) (new 12 3 128 4096)
            = Some (0x100000000, Some L1_GPU_LOCAL, [], {[0x100000000]}))
      as Hfacts by (by vm_compute).
    destruct (allocate 4096 0 L1_GPU_LOCAL (λ _, 0) (new 12 3 128 4096))
      as [[base m1]|]; [|done].
    injection Hfacts as -> Htier Hlru Hres.
    split; [done|]. split; [done|].
    intros [_ Hset]. rewrite Hlru, Hres in Hset. set_solver.
Qed.

(** C10 as stated fails: two requests of zero bytes in a row get the same
    base, so the bases are not strictly increasing. *)
Lemma zero_byte_allocations_share_a_base :
  ('(base1, m1) ← allocate 0 0 L3_CXL_POOL (λ _, 0) (new 12 3 128 4096);
   '(base2, _) ← allocate 0 0 L3_CXL_POOL (λ _, 0) m1;
   Some (base1, base2))
  = Some (0x100000000, 0x100000000).
Proof. by vm_compute. Qed.

(** A request of 2^64 - 1 bytes is rounded to no page at all: the sum
    [size_bytes + page_size_ - 1] wraps.  The cursor stays, and the next
    request gets the same base, without any wrap of the cursor. *)
Lemma oversized_request_takes_no_pages :
  ('(base1, m1) ← allocate (two64 - 1) 0 L3_CXL_POOL (λ _, 0)
                     (new 12 3 128 4096);
   '(base2, _) ← allocate 1 0 L3_CXL_POOL (λ _, 0) m1;
   Some (base1, next_virtual_addr_ m1, base2))
  = Some (0x100000000, 0x100000000, 0x100000000).
Proof. by vm_compute. Qed.

(** What a call does to the page size and to the virtual cursor: only
    [allocate] moves the cursor. *)
Lemma run_cursor c m m' :
  run c m = Some m' →
  page_size_ m' = page_size_ m
  ∧ next_virtual_addr_ m'
    = match c with
      | CallAllocate size_bytes _ _ _ =>
          wrap64 (next_virtual_addr_ m + required_bytes_for size_bytes m)
      | _ => next_virtual_addr_ m
      end.
Proof.
  destruct c as [size_bytes layer preferred_tier now|va|va|va|va|va|va now|va|];
    cbn [run]; intros Hrun.
  - destruct (decide (page_size_ m = 0)) as [Hz|Hnz].
    { unfold allocate in Hrun. by rewrite Hz in Hrun. }
    destruct (allocate_returns_cursor size_bytes layer preferred_tier now m Hnz)
      as (m1 & Halloc & Hps & Hnext & _).
    rewrite Halloc in Hrun. by injection Hrun as <-.
  - injection Hrun as <-. unfold deallocate.
    destruct (page_table_ m !! va) as [page|]; [|done]. by destruct (tier page).
  - unfold promote_to_l1 in Hrun.
    destruct (page_size_ m =? 0); [done|].
    destruct (get_page va m) as [page|]; [|by injection Hrun as <-].
    destruct (decide (tier page = L1_GPU_LOCAL)); [by injection Hrun as <-|].
    destruct (can_fit_in_tier L1_GPU_LOCAL (page_size_ m) m).
    + cbn in Hrun. injection Hrun as <-. by destruct (tier page).
    + unfold evict_l1_lru_locked in Hrun.
      destruct (l1_lru_list_ m); [|done].
      cbn in Hrun. injection Hrun as <-. by destruct (tier page).
  - unfold demote_to_l3 in Hrun.
    destruct (page_size_ m =? 0); [done|].
    destruct (get_page va m) as [page|]; [|by injection Hrun as <-].
    destruct (decide (tier page = L3_CXL_POOL)); [by injection Hrun as <-|].
    cbn in Hrun. injection Hrun as <-. by destruct (tier page).
  - unfold invalidate_page in Hrun.
    destruct (page_size_ m =? 0); [done|]. injection Hrun as <-.
    by destruct (get_page va m).
  - unfold mark_modified in Hrun.
    destruct (page_size_ m =? 0); [done|]. injection Hrun as <-.
    by destruct (get_page va m).
  - unfold update_access_tracking in Hrun.
    destruct (page_size_ m =? 0); [done|].
    destruct (get_page va m) as [page|]; by injection Hrun as <-.
  - unfold is_hot_page in Hrun.
    destruct (page_size_ m =? 0); [done|]. cbn in Hrun. injection Hrun as <-.
    by destruct (get_page va m).
  - by injection Hrun as <-.
Qed.

(** On the managers of [reachable] the page size is positive and the cursor
    has not come below its start. *)
Lemma reachable_cursor m :
  reachable m →
  0 < page_size_ m ∧ 0x100000000 <= next_virtual_addr_ m < two64.
Proof.
  induction 1 as [l1 l2 l3 ps Hps|c m m' _ IH Hwithin Hrun].
  - cbn. split; [done|]. by vm_compute.
  - destruct IH as [Hps Hcur].
    destruct (run_cursor c m m' Hrun) as [-> ->]. split; [done|].
    destruct c as [size_bytes layer preferred_tier now| | | | | | | |];
      try done.
    destruct Hwithin as [Hsize Hfit].
    destruct (required_bytes_bounds size_bytes m) as [Hreq _]; [lia..|].
    unfold wrap64. rewrite Z.mod_small by (unfold two64 in *; lia).
    unfold two64 in *. lia.
Qed.

(** C10, amended.  [allocate] has no failure path: on a manager with a
    nonzero page size, for every size, layer and preferred tier it returns
    the virtual cursor as base, also when the rounded-up size exceeds the
    capacity of the tier.  A capacity is consulted only when the preferred
    tier is L1 (with L3 as the fallback), never for a placement in L2 or L3.
    What holds of the bases depends on a bound that [allocate] does not
    check.  Whenever cursor + size_bytes + page_size < 2^64, the next base
    is strictly larger than the one returned if the request has at least one
    byte, and equal to it if the request has none.  On every manager reached
    from the constructor (with a positive page size) by public calls whose
    allocations all met that bound, the base is at least 0x100000000, hence
    not zero, and an allocation within the bound leaves such a manager. *)
Theorem allocate_has_no_failure_path
    (m : t) (size_bytes layer : Z) (preferred_tier : MemoryTier) (now : Z → Z) :
  page_size_ m ≠ 0 →
  ∃ base m',
    allocate size_bytes layer preferred_tier now m = Some (base, m')
    ∧ base = next_virtual_addr_ m
    ∧ match preferred_tier with
      | L1_GPU_LOCAL =>
          if can_fit_in_tier L1_GPU_LOCAL (required_bytes_for size_bytes m) m
          then l1_pages_ m' = l1_pages_ m ++ [base]
          else l3_pages_ m' = l3_pages_ m ++ [base]
      | L2_PREFETCH => l2_pages_ m' = l2_pages_ m ++ [base]
      | L3_CXL_POOL => l3_pages_ m' = l3_pages_ m ++ [base]
      end
    ∧ (0 < page_size_ m → 0 <= next_virtual_addr_ m →
       within_address_space size_bytes m →
       base <= next_virtual_addr_ m'
       ∧ (0 < size_bytes → base < next_virtual_addr_ m')
       ∧ (size_bytes = 0 → next_virtual_addr_ m' = base))
    ∧ (reachable m →
       0x100000000 <= base ∧ base ≠ 0
       ∧ (within_address_space size_bytes m → reachable m')).
Proof.
  intros Hnz.
  destruct (allocate_returns_cursor size_bytes layer preferred_tier now m Hnz)
    as (m' & Halloc & _ & Hnext & Htier).
  exists (next_virtual_addr_ m), m'.
  split; [done|]. split; [done|]. split; [done|]. split.
  - intros Hps Hcur [Hsize Hfit].
    destruct (required_bytes_bounds size_bytes m) as [Hreq Hzero]; [lia..|].
    rewrite Hnext. unfold wrap64.
    rewrite Z.mod_small by (unfold two64 in *; lia).
    split; [lia|]. split; [lia|]. intros H0. rewrite (Hzero H0). lia.
  - intros Hreach. destruct (reachable_cursor m Hreach) as [_ Hcur].
    split; [lia|]. split; [lia|]. intros Hwithin.
    apply (reachable_run
             (CallAllocate size_bytes layer preferred_tier now) m m');
      [done | done |].
    cbn [run]. by rewrite Halloc.
Qed.

Lemma allocate_has_no_failure_path_witness :
  ∃ m',
    allocate 8192 0 L2_PREFETCH (λ _, 0) (new 0 0 0 4096)
    = Some (0x100000000, m')
    ∧ l2_pages_ m' = [0x100000000]
    ∧ 0x100000000 < next_virtual_addr_ m'
    ∧ reachable m'.
Proof.
  destruct (allocate_has_no_failure_path (new 0 0 0 4096) 8192 0 L2_PREFETCH
              (λ _, 0))
    as (base & m' & Halloc & Hbase & Htier & Hgrow & Hreach);
    [discriminate|].
  assert (within_address_space 8192 (new 0 0 0 4096)) as Hwithin
    by (split; [discriminate | reflexivity]).
  destruct (Hgrow eq_refl ltac:(discriminate) Hwithin) as (_ & Hlt & _).
  destruct (Hreach (reachable_new 0 0 0 4096 eq_refl)) as (_ & _ & Hnext).
  exists m'. rewrite Hbase in Halloc, Htier, Hlt.
  split; [exact Halloc|]. split; [exact Htier|].
  split; [apply Hlt; reflexivity | exact (Hnext Hwithin)].
Defined.

End AllocatorClaims.

(** * Further properties of the code *)

(** ** The compression engine *)

Section CompressionProperties.
Import FPGACacheEngine.

(** X1.  Delta coding round-trips on signed 8-bit sequences: the differences
    are stored with wrap-around, and the prefix sums of [delta_decode], taken
    with the same wrap-around, give every element back. *)
Theorem delta_roundtrip (s : list Z) :
  Forall is_int8 s →
  delta_decode (delta_encode s) = s
  ∧ length (delta_encode s) = length s
  ∧ Forall is_int8 (delta_encode s).
Proof.
  intros Hs. split; [by apply delta_decode_encode|].
  split; [|by apply delta_encode_int8].
  destruct s as [|d0 s]; [done|]. cbn. f_equal.
  generalize d0. clear. induction s as [|d s IH]; intros prev; cbn; [done|].
  by rewrite IH.
Qed.

Lemma delta_roundtrip_witness :
  delta_decode (delta_encode [100; -100; 127; -128; 0])
  = [100; -100; 127; -128; 0].
Proof.
  refine (proj1 (delta_roundtrip [100; -100; 127; -128; 0] _)).
  repeat constructor; unfold is_int8; lia.
Defined.

Lemma rld_loop_trailing n : ∀ rle_data decoded b,
  length rle_data = (2 * n)%nat →
  rld_loop (rle_data ++ [b]) decoded = rld_loop rle_data decoded.
Proof.
  induction n as [|n IH]; intros rle decoded b Hlen.
  - destruct rle; [done|]. cbn in Hlen. lia.
  - destruct rle as [|v [|c rest]]; cbn in Hlen; [lia..|].
    cbn [app rld_loop]. apply IH. lia.
Qed.

(** X2.  [run_length_decode] reads whole pairs only: a byte left over after
    the last pair is dropped, and the result is that of the stream without
    it. *)
Theorem run_length_decode_drops_unpaired_byte (rle_data : list Z) (b : Z) :
  Nat.even (length rle_data) = true →
  run_length_decode (rle_data ++ [b]) = run_length_decode rle_data.
Proof.
  intros Heven. apply Nat.even_spec in Heven as [n Hn].
  unfold run_length_decode. by apply (rld_loop_trailing n).
Qed.

Lemma run_length_decode_drops_unpaired_byte_witness :
  run_length_decode ([7; 3; 250; 2] ++ [9]) = [7; 7; 7; -6; -6].
Proof.
  rewrite (run_length_decode_drops_unpaired_byte [7; 3; 250; 2] 9);
    reflexivity.
Defined.

Lemma rle_loop_shape data : ∀ current_val count,
  1 <= count <= 255 →
  let out := rle_loop data [] current_val count in
  Nat.even (length out) = true
  ∧ (2 <= length out <= 2 * (length data + 1))%nat
  ∧ Forall (λ c, 1 <= c <= 255) (rle_counts out).
Proof.
  induction data as [|d data IH]; intros cur cnt Hcnt; cbn [rle_loop app].
  - cbn. split; [done|]. split; [lia|].
    rewrite to_uint8_id by (by apply is_uint8_count). by constructor.
  - destruct ((d =? cur) && (cnt <? 255)) eqn:E.
    + apply andb_prop in E as [_ Hlt%Z.ltb_lt].
      destruct (IH cur (cnt + 1)) as (He & Hl & Hc); [lia|].
      split; [done|]. split; [cbn [length]; lia|done].
    + rewrite rle_loop_app. destruct (IH d 1) as (He & Hl & Hc); [lia|].
      cbn [app length rle_counts]. split; [done|]. split; [lia|].
      rewrite to_uint8_id by (by apply is_uint8_count). by constructor.
Qed.

(** X3.  The shape of every run-length stream the encoder writes: whole
    pairs only, at most one pair per input element and at least one pair for
    a non-empty input, and every count byte between 1 and 255, so that no
    pair decodes to nothing. *)
Theorem run_length_encode_shape (data : list Z) :
  Nat.even (length (run_length_encode data)) = true
  ∧ (length (run_length_encode data) <= 2 * length data)%nat
  ∧ (data ≠ [] → (2 <= length (run_length_encode data))%nat)
  ∧ Forall (λ c, 1 <= c <= 255) (rle_counts (run_length_encode data)).
Proof.
  destruct data as [|d0 data]; [by repeat split|].
  destruct (rle_loop_shape data d0 1) as (He & Hl & Hc); [lia|].
  cbn [run_length_encode length]. split; [done|]. split; [lia|].
  split; [intros _; lia|done].
Qed.

(** X4.  The three integer stages of the pipeline cancel exactly: for every
    input, [decompress (compress x)] has the length of [x], and its element
    [i] is the element [i] of [x] taken through the quantizer and back with
    the scale of [x].  Nothing is lost outside of the quantizer. *)
Theorem decompress_compress_elementwise
    (kv_data : list spec_float) (num_tokens hidden_dim layer_id : Z) :
  let result :=
    decompress (compress kv_data num_tokens hidden_dim layer_id)
      num_tokens hidden_dim in
  length result = length kv_data
  ∧ ∀ i x, kv_data !! i = Some x →
      result !! i
      = Some (dequantize_one (compute_scale_factor kv_data)
                (quantize_one (compute_scale_factor kv_data) x)).
Proof.
  cbv zeta. rewrite decompress_compress. split; [apply length_map|].
  intros i x Hx. by rewrite list_lookup_fmap, Hx.
Qed.

Lemma max_abs_zeros n :
  max_abs (replicate n (S754_zero false)) = S754_zero false.
Proof. unfold max_abs. induction n as [|n IH]; [done|]. exact IH. Qed.

(** X5.  A tensor of zeros, of any length, takes the scale 1.0 (the branch
    for "no positive maximum") and comes back from [decompress] exactly; the
    size fields are four bytes per element and the number of stream bytes. *)
Theorem zeros_roundtrip_exactly (n : nat) (num_tokens hidden_dim layer_id : Z) :
  let zeros := replicate n (S754_zero false) in
  let compressed := compress zeros num_tokens hidden_dim layer_id in
  scale_factor compressed = F32.of_Z 1
  ∧ decompress compressed num_tokens hidden_dim = zeros
  ∧ compressed_size compressed = Z.of_nat (length (rle_data compressed))
  ∧ (Z.of_nat n * 4 < two64 → original_size compressed = Z.of_nat n * 4).
Proof.
  cbv zeta. split; [|split; [|split]].
  - cbn [compress scale_factor]. unfold compute_scale_factor.
    by rewrite max_abs_zeros.
  - rewrite decompress_compress. unfold compute_scale_factor.
    rewrite max_abs_zeros.
    induction n as [|n IH]; [done|]. cbn [replicate map]. by rewrite IH.
  - done.
  - intros Hfit. cbn [compress original_size]. rewrite length_replicate.
    unfold wrap64. apply Z.mod_small. lia.
Qed.

End CompressionProperties.

(** ** The two translation caches *)

Section TranslationProperties.

Lemma page_arith va :
  0 <= va < two64 →
  (va - va mod 4096) mod 2 ^ 48 = va mod 2 ^ 48 - va mod 4096
  ∧ (va - va mod 4096) mod 4096 = 0
  ∧ (0x4000000000 + va mod 2 ^ 48) mod 4096 = va mod 4096
  ∧ 0 <= va - va mod 4096 < two64.
Proof. unfold two64. intros Hva. Z.div_mod_to_equations. lia. Qed.

Lemma land_48 va : Z.land va 0xFFFFFFFFFFFF = va mod 2 ^ 48.
Proof. change 0xFFFFFFFFFFFF with (Z.ones 48). by rewrite Z.land_ones. Qed.

Lemma index_in_range (x size : Z) (n : nat) :
  0 < size → n = Z.to_nat size → (Z.to_nat (x mod size) < n)%nat.
Proof. intros Hs ->. pose proof (Z.mod_pos_bound x size Hs). lia. Qed.

(** *** [AddressTranslationUnit] *)

Import AddressTranslationUnit.

(** [translate], once the slot of the address is known. *)
Lemma translate_cases va u entry :
  tlb_size_ u ≠ 0 →
  tlb_ u !! Z.to_nat (Z.shiftr (Z.land va page_mask) 12 mod tlb_size_ u)
  = Some entry →
  translate va u
  = if valid entry && (virtual_page entry =? Z.land va page_mask)
    then Some (wrap64 (physical_page entry + Z.land va 0xFFF),
               {| tlb_ := tlb_ u; tlb_size_ := tlb_size_ u;
                  stats_ := {| hits := wrap64 (hits (stats_ u) + 1);
                               misses := misses (stats_ u) |} |})
    else Some (wrap64 (page_walk va + Z.land va 0xFFF),
               {| tlb_ :=
                    <[Z.to_nat (Z.shiftr (Z.land va page_mask) 12
                                mod tlb_size_ u) :=
                        {| virtual_page := Z.land va page_mask;
                           physical_page := Z.land (page_walk va) page_mask;
                           valid := true |}]> (tlb_ u);
                  tlb_size_ := tlb_size_ u;
                  stats_ := {| hits := hits (stats_ u);
                               misses := wrap64 (misses (stats_ u) + 1) |} |}).
Proof.
  intros Hsize Hentry. unfold translate.
  apply Z.eqb_neq in Hsize. rewrite Hsize, Hentry. cbn [mbind option_bind].
  by destruct (valid entry && (virtual_page entry =? Z.land va page_mask)).
Qed.

Lemma installed_entry_mapped va :
  0 <= va < two64 →
  entry_mapped {| virtual_page := Z.land va page_mask;
                  physical_page := Z.land (page_walk va) page_mask;
                  valid := true |}.
Proof.
  intros Hva _. cbn [virtual_page physical_page].
  destruct (page_walk_value va Hva) as (Hpw & Hoff & Hrange).
  destruct (page_arith va Hva) as (Hvp & Hal & _ & Hvr).
  rewrite !land_page_mask by (unfold two64 in *; lia). rewrite Hoff.
  split; [done|]. split; [done|]. rewrite Hvp, Hpw. lia.
Qed.

Lemma unit_ok_new tlb_size : unit_ok (new tlb_size).
Proof.
  split; cbn; [apply length_replicate|]. apply Forall_replicate. by intros ?.
Qed.

Lemma unit_ok_reachable u : reachable u → unit_ok u.
Proof.
  induction 1 as [n|va u r u' Hva _ [Hlen Hall] Htr
                 |va u u' Hva _ [Hlen Hall] Hinv
                 |u _ [Hlen Hall]|u _ [Hlen Hall]].
  - apply unit_ok_new.
  - unfold translate in Htr. destruct (tlb_size_ u =? 0); [done|].
    destruct (tlb_ u !! _) as [entry|]; [|done]. cbn in Htr.
    destruct (valid entry && _); injection Htr as _ <-; split; cbn;
      try done.
    + by rewrite length_insert.
    + apply Forall_insert; [done|]. by apply installed_entry_mapped.
  - unfold invalidate in Hinv. destruct (tlb_size_ u =? 0); [done|].
    destruct (tlb_ u !! _) as [entry|]; [|done]. cbn in Hinv.
    destruct (virtual_page entry =? _); injection Hinv as <-; [|done].
    split; cbn; [by rewrite length_insert|].
    apply Forall_insert; [done|]. by intros ?.
  - split; cbn; [by rewrite length_map|].
    apply Forall_map, Forall_true. by intros ? ?.
  - done.
Qed.

Lemma slot_exists u x :
  unit_ok u → 0 < tlb_size_ u →
  ∃ entry, tlb_ u !! Z.to_nat (x mod tlb_size_ u) = Some entry
           ∧ entry_mapped entry.
Proof.
  intros [Hlen Hall] Hsize.
  destruct (lookup_lt_is_Some_2 (tlb_ u) (Z.to_nat (x mod tlb_size_ u)))
    as [entry Hentry].
  { by apply index_in_range. }
  exists entry. split; [done|].
  rewrite Forall_forall in Hall. apply Hall. by eapply list_elem_of_lookup_2.
Qed.

(** X6.  On every unit a program can hold, [translate] of a 64-bit address
    is one of two things.  A hit returns [page_walk va], the mapping of the
    address itself, never that of another page, and counts one hit.  A miss
    returns [page_walk va] plus the offset within the page and counts one
    miss.  No call fails. *)
Theorem translate_hit_or_miss (u : t) (va : Z) :
  reachable u → 0 < tlb_size_ u → 0 <= va < two64 →
  ∃ result u',
    translate va u = Some (result, u')
    ∧ ((result = page_walk va
        ∧ hits (stats_ u') = wrap64 (hits (stats_ u) + 1)
        ∧ misses (stats_ u') = misses (stats_ u))
       ∨ (result = page_walk va + va mod 4096
          ∧ hits (stats_ u') = hits (stats_ u)
          ∧ misses (stats_ u') = wrap64 (misses (stats_ u) + 1))).
Proof.
  intros Hreach Hsize Hva.
  destruct (slot_exists u (Z.shiftr (Z.land va page_mask) 12)
              (unit_ok_reachable u Hreach) Hsize) as (entry & Hentry & Hmapped).
  rewrite (translate_cases va u entry) by (lia || done).
  destruct (page_walk_value va Hva) as (Hpw & Hoff & Hrange).
  destruct (page_arith va Hva) as (Hvp & _).
  pose proof (Z.mod_pos_bound va 4096 eq_refl) as Hoffr.
  destruct (valid entry && (virtual_page entry =? Z.land va page_mask)) eqn:E.
  - apply andb_prop in E as [Hvalid Htag%Z.eqb_eq].
    destruct (Hmapped Hvalid) as (_ & _ & Hphys).
    eexists _, _. split; [reflexivity|]. left. split; [|done].
    rewrite Hphys, Htag, land_offset, land_page_mask by done.
    rewrite Hvp, Hpw. unfold wrap64.
    rewrite Z.mod_small; [lia|]. rewrite Hpw in Hrange. lia.
  - eexists _, _. split; [reflexivity|]. right. split; [|done].
    rewrite land_offset. unfold wrap64. apply Z.mod_small. lia.
Qed.

Lemma translate_hit_or_miss_witness :
  ∃ result u',
    translate 0x2040 (new 16) = Some (result, u')
    ∧ (result = page_walk 0x2040 ∨ result = page_walk 0x2040 + 0x40).
Proof.
  destruct (translate_hit_or_miss (new 16) 0x2040)
    as (result & u' & Htr & [[Hr _]|[Hr _]]).
  - apply reachable_new.
  - reflexivity.
  - split; [discriminate | reflexivity].
  - exists result, u'. split; [exact Htr | left; exact Hr].
  - exists result, u'. split; [exact Htr | right; exact Hr].
Defined.

(** X7.  After [invalidate va] the next [translate va] is a miss, whatever
    the slot held; after [invalidate_all] the next [translate] of every
    address is a miss. *)
Theorem invalidate_forces_miss (u : t) (va : Z) :
  reachable u → 0 < tlb_size_ u → 0 <= va < two64 →
  (∃ u1 u2,
     invalidate va u = Some u1
     ∧ translate va u1 = Some (page_walk va + va mod 4096, u2)
     ∧ misses (stats_ u2) = wrap64 (misses (stats_ u) + 1))
  ∧ (∃ u2,
       translate va (invalidate_all u) = Some (page_walk va + va mod 4096, u2)
       ∧ misses (stats_ u2) = wrap64 (misses (stats_ u) + 1)).
Proof.
  intros Hreach Hsize Hva.
  destruct (unit_ok_reachable u Hreach) as [Hlen Hall].
  destruct (slot_exists u (Z.shiftr (Z.land va page_mask) 12)
              (conj Hlen Hall) Hsize) as (entry & Hentry & _).
  destruct (page_walk_value va Hva) as (Hpw & Hoff & Hrange).
  pose proof (Z.mod_pos_bound va 4096 eq_refl) as Hoffr.
  assert (wrap64 (page_walk va + Z.land va 0xFFF)
          = page_walk va + va mod 4096) as Hres.
  { rewrite land_offset. unfold wrap64. apply Z.mod_small. lia. }
  split.
  - unfold invalidate. replace (tlb_size_ u =? 0) with false
      by (symmetry; apply Z.eqb_neq; lia).
    rewrite Hentry. cbn [mbind option_bind].
    destruct (virtual_page entry =? Z.land va page_mask) eqn:Etag.
    + eexists _, _. split; [reflexivity|].
      erewrite translate_cases; cbn [tlb_ tlb_size_]; [| lia |].
      2:{ apply list_lookup_insert_eq. by eapply lookup_lt_Some. }
      cbn [valid andb]. rewrite Hres. split; reflexivity.
    + eexists _, _. split; [reflexivity|].
      rewrite (translate_cases va u entry) by (lia || done).
      rewrite Etag, andb_false_r, Hres. split; reflexivity.
  - erewrite translate_cases; cbn [invalidate_all tlb_ tlb_size_]; [| lia |].
    2:{ rewrite list_lookup_fmap, Hentry. reflexivity. }
    cbn [valid andb]. rewrite Hres. eexists. split; reflexivity.
Qed.

Lemma invalidate_forces_miss_witness :
  ∃ u1 u2,
    invalidate 0x2040 (new 16) = Some u1
    ∧ translate 0x2040 u1 = Some (page_walk 0x2040 + 0x40, u2).
Proof.
  destruct (invalidate_forces_miss (new 16) 0x2040)
    as [(u1 & u2 & Hi & Ht & _) _].
  - apply reachable_new.
  - reflexivity.
  - split; [discriminate | reflexivity].
  - exists u1, u2. split; [exact Hi | exact Ht].
Defined.

(** *** [FPGACacheEngine::translate_address] *)

Lemma tlb_ok_reachable tlb : EngineTLB.reachable tlb → EngineTLB.tlb_ok tlb.
Proof.
  induction 1 as [|va tlb r tlb' Hva _ [Hlen Hall] Htr].
  - split; [apply length_replicate|]. apply Forall_replicate. by intros ?.
  - unfold EngineTLB.translate_address in Htr.
    destruct (tlb !! _) as [entry|]; [|done]. cbn in Htr.
    destruct (EngineTLB.valid entry && _); injection Htr as _ <-; [done|].
    split; [by rewrite length_insert|].
    apply Forall_insert; [done|]. intros _.
    cbn [EngineTLB.virtual_addr EngineTLB.physical_addr].
    destruct (page_arith va Hva) as (Hvp & Hal & Hoff & Hvr).
    pose proof (Z.mod_pos_bound va (2 ^ 48) eq_refl).
    rewrite land_48. unfold wrap64.
    rewrite (Z.mod_small (0x4000000000 + va mod 2 ^ 48))
      by (unfold two64; lia).
    rewrite !land_page_mask by (unfold two64 in *; lia).
    rewrite Hoff, Hvp. split; [done|]. split; [done|]. lia.
Qed.

(** X8.  The translation cache of the compression engine is transparent:
    on every cache the engine can hold, [translate_address] of a 64-bit
    address returns [0x4000000000 + (va & 0xFFFFFFFFFFFF)], the same on a hit
    as on a miss. *)
Theorem translate_address_is_direct_mapping (tlb : list EngineTLB.TLBEntry)
    (va : Z) :
  EngineTLB.reachable tlb → 0 <= va < two64 →
  ∃ tlb',
    EngineTLB.translate_address va tlb
    = Some (0x4000000000 + Z.land va 0xFFFFFFFFFFFF, tlb').
Proof.
  intros Hreach Hva. destruct (tlb_ok_reachable tlb Hreach) as [Hlen Hall].
  destruct (lookup_lt_is_Some_2 tlb (Z.to_nat (Z.shiftr va 12 mod 1024)))
    as [entry Hentry].
  { rewrite Hlen. by apply index_in_range. }
  assert (EngineTLB.entry_mapped entry) as Hmapped.
  { rewrite Forall_forall in Hall. apply Hall.
    by eapply list_elem_of_lookup_2. }
  unfold EngineTLB.translate_address. rewrite Hentry.
  cbn [mbind option_bind].
  destruct (page_arith va Hva) as (Hvp & _ & _ & _).
  pose proof (Z.mod_pos_bound va (2 ^ 48) eq_refl).
  pose proof (Z.mod_pos_bound va 4096 eq_refl).
  rewrite land_48, land_offset.
  destruct (EngineTLB.valid entry && _) eqn:E.
  - apply andb_prop in E as [Hvalid Htag%Z.eqb_eq].
    destruct (Hmapped Hvalid) as (_ & _ & Hphys).
    eexists. do 2 f_equal. rewrite Hphys, Htag, land_page_mask by done.
    rewrite Hvp. unfold wrap64. rewrite Z.mod_small; unfold two64; lia.
  - eexists. do 2 f_equal. unfold wrap64. apply Z.mod_small.
    unfold two64. lia.
Qed.

Lemma translate_address_is_direct_mapping_witness :
  ∃ tlb',
    EngineTLB.translate_address 0x123456789ABC (EngineTLB.new 1024)
    = Some (0x4000000000 + 0x123456789ABC, tlb').
Proof.
  destruct (translate_address_is_direct_mapping (EngineTLB.new 1024)
              0x123456789ABC) as (tlb' & Htr).
  - apply EngineTLB.reachable_new.
  - split; [discriminate | reflexivity].
  - exists tlb'. exact Htr.
Defined.

End TranslationProperties.

(** ** The prefetcher *)

Section PrefetcherProperties.
Import SpeculativePrefetcher.

(** X9.  [update_prediction_accuracy] keeps the controller within its
    bounds: from a depth between 2 and 8 it moves the depth by at most one
    and leaves it between 2 and 8, and a window that held at most
    [accuracy_window_size_] observations still does. *)
Theorem update_keeps_depth_and_window_bounds
    (p : t) (request_id : Z) (was_correct : bool) :
  2 <= adaptive_depth_ p <= 8 →
  Z.of_nat (length (accuracy_history_ p)) <= accuracy_window_size_ p →
  let p' := update_prediction_accuracy request_id was_correct p in
  2 <= adaptive_depth_ p' <= 8
  ∧ -1 <= adaptive_depth_ p' - adaptive_depth_ p <= 1
  ∧ Z.of_nat (length (accuracy_history_ p')) <= accuracy_window_size_ p'
  ∧ accuracy_window_size_ p' = accuracy_window_size_ p.
Proof.
  intros Hdepth Hwin. cbv zeta. unfold update_prediction_accuracy.
  set (pushed := accuracy_history_ p ++ _).
  assert (length pushed = S (length (accuracy_history_ p))) as Hpushed
    by (subst pushed; rewrite length_app; cbn; lia).
  set (history := if accuracy_window_size_ p <? Z.of_nat (length pushed)
                  then tail pushed else pushed).
  assert (Z.of_nat (length history) <= accuracy_window_size_ p) as Hhist.
  { subst history.
    destruct (accuracy_window_size_ p <? Z.of_nat (length pushed)) eqn:E.
    - destruct pushed; cbn in *; lia.
    - apply Z.ltb_ge in E. lia. }
  destruct (10 <=? Z.of_nat (length history)); cbn [adaptive_depth_];
    [|cbn; lia].
  destruct (PrimFloat.ltb accuracy_high _ && (adaptive_depth_ p <? 8)) eqn:Eup.
  - apply andb_prop in Eup as [_ Hlt%Z.ltb_lt]. cbn. unfold wrap64.
    rewrite Z.mod_small by (unfold two64; lia). lia.
  - destruct (PrimFloat.ltb _ accuracy_low && (2 <? adaptive_depth_ p))
      eqn:Edown.
    + apply andb_prop in Edown as [_ Hgt%Z.ltb_lt]. cbn. unfold wrap64.
      rewrite Z.mod_small by (unfold two64; lia). lia.
    + cbn. lia.
Qed.

Lemma update_keeps_depth_and_window_bounds_witness :
  let p' := update_prediction_accuracy 0 false (feed false 9 (new 4)) in
  2 <= adaptive_depth_ p' <= 8
  ∧ -1 <= adaptive_depth_ p' - adaptive_depth_ (feed false 9 (new 4)) <= 1
  ∧ Z.of_nat (length (accuracy_history_ p')) <= accuracy_window_size_ p'
  ∧ accuracy_window_size_ p'
    = accuracy_window_size_ (feed false 9 (new 4)).
Proof.
  apply (update_keeps_depth_and_window_bounds (feed false 9 (new 4)) 0 false).
  - vm_compute. split; discriminate.
  - vm_compute. discriminate.
Defined.

(** The two comparisons of the controller, on ten stored observations. *)
Lemma recent_accuracy_thresholds (obs : list bool) :
  length obs = 10%nat →
  let accuracy :=
    PrimFloat.div (fold_left PrimFloat.add (map observation obs) 0%float)
      10%float in
  PrimFloat.ltb accuracy_high accuracy = (correct_among obs =? 10)
  ∧ PrimFloat.ltb accuracy accuracy_low = (correct_among obs <=? 8).
Proof.
  intros Hlen.
  do 10 (destruct obs as [|[] obs]; [discriminate Hlen|..]);
    (destruct obs; [|discriminate Hlen]); vm_compute; split; reflexivity.
Qed.

(** X10.  What the controller decides, in terms of the observations: once
    the window holds ten, a call raises the depth by one when all of the
    last ten observations (the new one included) were correct and the depth
    is below 8, lowers it by one when at most eight of them were correct and
    the depth is above 2, and leaves it alone otherwise: nine out of ten
    never moves it. *)
Theorem depth_follows_last_ten
    (p : t) (request_id : Z) (was_correct : bool) (obs : list bool) :
  0 <= adaptive_depth_ p < two64 →
  length obs = 10%nat →
  (let history :=
     accuracy_history_ (update_prediction_accuracy request_id was_correct p) in
   drop (length history - 10) history = map observation obs) →
  adaptive_depth_ (update_prediction_accuracy request_id was_correct p)
  = if (correct_among obs =? 10) && (adaptive_depth_ p <? 8)
    then adaptive_depth_ p + 1
    else if (correct_among obs <=? 8) && (2 <? adaptive_depth_ p)
    then adaptive_depth_ p - 1
    else adaptive_depth_ p.
Proof.
  intros Hdepth Hlen. cbv zeta. unfold update_prediction_accuracy.
  set (pushed := accuracy_history_ p ++ _).
  set (history := if accuracy_window_size_ p <? Z.of_nat (length pushed)
                  then tail pushed else pushed).
  destruct (10 <=? Z.of_nat (length history)) eqn:Eten.
  - cbn [adaptive_depth_]. unfold recent_accuracy.
    destruct (recent_accuracy_thresholds obs Hlen) as [Hhigh Hlow].
    cbv zeta in Hhigh, Hlow.
    destruct (PrimFloat.ltb accuracy_high _ && (adaptive_depth_ p <? 8))
      eqn:Eup.
    + cbn [with_depth adaptive_depth_ accuracy_history_]. intros Hobs.
      rewrite Hobs, Hhigh in Eup. rewrite Eup.
      apply andb_prop in Eup as [_ Hlt%Z.ltb_lt]. unfold wrap64.
      apply Z.mod_small. unfold two64 in *. lia.
    + destruct (PrimFloat.ltb _ accuracy_low && (2 <? adaptive_depth_ p))
        eqn:Edown.
      * cbn [with_depth adaptive_depth_ accuracy_history_]. intros Hobs.
        rewrite Hobs, Hhigh in Eup. rewrite Hobs, Hlow in Edown.
        rewrite Eup, Edown.
        apply andb_prop in Edown as [_ Hgt%Z.ltb_lt]. unfold wrap64.
        apply Z.mod_small. unfold two64 in *. lia.
      * cbn [adaptive_depth_ accuracy_history_]. intros Hobs.
        rewrite Hobs, Hhigh in Eup. rewrite Hobs, Hlow in Edown.
        by rewrite Eup, Edown.
  - cbn [accuracy_history_]. intros Hobs.
    apply (f_equal length) in Hobs.
    rewrite length_drop, length_map, Hlen in Hobs.
    apply Z.leb_gt in Eten. lia.
Qed.

Lemma depth_follows_last_ten_witness :
  adaptive_depth_ (update_prediction_accuracy 0 true (feed true 9 (new 4)))
  = 5.
Proof.
  rewrite (depth_follows_last_ten (feed true 9 (new 4)) 0 true
             (replicate 10 true)).
  - reflexivity.
  - vm_compute. split; [discriminate | reflexivity].
  - reflexivity.
  - vm_compute. reflexivity.
Defined.

Lemma testbit_small b n m : 0 <= b < 2 ^ n → n <= m → Z.testbit b m = false.
Proof.
  intros Hb Hnm. destruct (decide (b = 0)) as [->|Hne]; [apply Z.bits_0|].
  apply Z.bits_above_log2; [lia|].
  assert (0 <= n)
    by (destruct (decide (0 <= n)); [done|]; rewrite Z.pow_neg_r in Hb; lia).
  assert (Z.log2 b < n) by (apply Z.log2_lt_pow2; lia). lia.
Qed.

Lemma lor_shiftl_small a b n :
  0 <= n → 0 <= b < 2 ^ n → Z.lor (Z.shiftl a n) b = a * 2 ^ n + b.
Proof.
  intros Hn Hb. rewrite Z.shiftl_mul_pow2 by done.
  rewrite <- Z.lxor_lor, <- Z.add_nocarry_lxor; [done| |];
    (apply Z.bits_inj'; intros m Hm; rewrite Z.land_spec, Z.bits_0;
     destruct (decide (m < n));
     [rewrite Z.mul_pow2_bits_low by lia; done
     |rewrite (testbit_small b n m) by lia; apply andb_false_r]).
Qed.

Lemma compute_kv_address_sum req_id layer position :
  0 <= req_id < 2 ^ 32 → 0 <= layer < 2 ^ 16 → 0 <= position < 2 ^ 16 →
  compute_kv_address req_id layer position
  = req_id * 2 ^ 32 + layer * 2 ^ 16 + position.
Proof.
  intros Hr Hl Hp. unfold compute_kv_address, wrap64, two64.
  rewrite !Z.shiftl_mul_pow2 by lia.
  rewrite (Z.mod_small (req_id * 2 ^ 32)) by lia.
  rewrite (Z.mod_small (layer * 2 ^ 16)) by lia.
  rewrite <- (Z.shiftl_mul_pow2 req_id 32) by lia.
  rewrite lor_shiftl_small by lia.
  replace (req_id * 2 ^ 32 + layer * 2 ^ 16)
    with (Z.shiftl (req_id * 2 ^ 16 + layer) 16)
    by (rewrite Z.shiftl_mul_pow2; lia).
  rewrite lor_shiftl_small by lia. rewrite ?Z.shiftl_mul_pow2 by lia. lia.
Qed.

(** X11.  The address format [req_id:32][layer_id:16][position:16] holds
    for layers and positions below 65536: the three fields are read back from
    the address by shifting and masking.  The arguments are 32 bits wide,
    though, and beyond 16 bits the fields run into each other: position 65536
    of layer 0 is position 0 of layer 1. *)
Theorem compute_kv_address_fields (req_id layer position : Z) :
  0 <= req_id < 2 ^ 32 → 0 <= layer < 2 ^ 16 → 0 <= position < 2 ^ 16 →
  let address := compute_kv_address req_id layer position in
  Z.shiftr address 32 = req_id
  ∧ Z.land (Z.shiftr address 16) 0xFFFF = layer
  ∧ Z.land address 0xFFFF = position
  ∧ compute_kv_address 0 0 65536 = compute_kv_address 0 1 0.
Proof.
  intros Hr Hl Hp. cbv zeta. rewrite compute_kv_address_sum by done.
  change 0xFFFF with (Z.ones 16). rewrite !Z.land_ones, !Z.shiftr_div_pow2 by lia.
  split; [|split; [|split; [|reflexivity]]]; Z.div_mod_to_equations; lia.
Qed.

Lemma compute_kv_address_fields_witness :
  Z.shiftr (compute_kv_address 7 40 1234) 32 = 7
  ∧ Z.land (Z.shiftr (compute_kv_address 7 40 1234) 16) 0xFFFF = 40
  ∧ Z.land (compute_kv_address 7 40 1234) 0xFFFF = 1234.
Proof.
  destruct (compute_kv_address_fields 7 40 1234) as (H1 & H2 & H3 & _);
    [split; [discriminate | reflexivity]..|].
  split; [exact H1|]. split; [exact H2 | exact H3].
Defined.

Lemma issue_dma_prefetch_length (req : PrefetchRequest)
    (queue : list PrefetchRequest) :
  (length queue <= 16)%nat → (length (issue_dma_prefetch req queue) <= 16)%nat.
Proof.
  intros Hlen. unfold issue_dma_prefetch. rewrite length_app. cbn [length].
  destruct (16 <? Z.of_nat (length queue + 1)) eqn:E.
  - destruct queue as [|q0 queue]; [cbn; lia|]. cbn [app tail].
    rewrite length_app. cbn [length] in *. lia.
  - apply Z.ltb_ge in E. rewrite length_app. cbn [length]. lia.
Qed.

(** X12.  The queue of outstanding requests never grows past 16: a push
    onto a queue of fewer than 16 appends, a push onto a full queue drops the
    oldest request, and the newest request is always the last one. *)
Theorem issue_dma_prefetch_bounded (req : PrefetchRequest)
    (queue : list PrefetchRequest) :
  (length queue <= 16)%nat →
  (length (issue_dma_prefetch req queue) <= 16)%nat
  ∧ last (issue_dma_prefetch req queue) = Some req
  ∧ ((length queue < 16)%nat → issue_dma_prefetch req queue = queue ++ [req])
  ∧ (length queue = 16%nat →
     issue_dma_prefetch req queue = tail queue ++ [req]).
Proof.
  intros Hlen. unfold issue_dma_prefetch. rewrite length_app. cbn [length].
  destruct (16 <? Z.of_nat (length queue + 1)) eqn:E.
  - apply Z.ltb_lt in E. assert (length queue = 16%nat) as H16 by lia.
    destruct queue as [|q0 queue]; [discriminate H16|]. cbn [app tail].
    rewrite length_app. cbn [length] in *. split; [lia|].
    split; [apply last_snoc|]. split; [lia|done].
  - apply Z.ltb_ge in E. rewrite length_app. cbn [length].
    split; [lia|]. split; [apply last_snoc|]. split; [done|lia].
Qed.

Lemma issue_dma_prefetch_bounded_witness :
  let req := {| virtual_addr := 1; layer_id := 0; predicted_token_id := 5;
                confidence := S754_zero false; timestamp := 0 |} in
  (length (issue_dma_prefetch req (replicate 16 req)) <= 16)%nat.
Proof.
  cbv zeta.
  refine (proj1 (issue_dma_prefetch_bounded _ (replicate 16 _) _)).
  cbn. lia.
Defined.

End PrefetcherProperties.

(** ** The prefetch call *)

Section PrefetchCallProperties.
Import SpeculativePrefetcher PrefetchCall.

Lemma candidates_indexed (predictions : list (Z * spec_float)) c :
  c ∈ zip (seqZ 0 (Z.of_nat (length predictions))) predictions →
  ∃ i : nat, c.1 = Z.of_nat i ∧ predictions !! i = Some c.2.
Proof.
  intros [i Hi]%list_elem_of_lookup_1. exists i.
  apply lookup_zip_with_Some in Hi as (z & pr & -> & Hz & Hpr).
  apply lookup_seqZ in Hz as [-> _]. split; [cbn; lia | done].
Qed.

Lemma is_in_cache_some va ti mm :
  CXLMemoryManager.page_size_ mm ≠ 0 →
  ∃ b, CXLMemoryManager.is_in_cache va ti mm = Some b.
Proof.
  intros Hps%Z.eqb_neq. unfold CXLMemoryManager.is_in_cache. rewrite Hps.
  by eexists.
Qed.

Lemma prefetch_fold predictions layer now mm candidates :
  CXLMemoryManager.page_size_ mm ≠ 0 →
  (∀ c, c ∈ candidates →
        ∃ i : nat, c.1 = Z.of_nat i ∧ predictions !! i = Some c.2) →
  ∀ requests queue,
    (length queue <= 16)%nat →
    Forall (issued_for predictions layer mm) requests →
    ∃ requests' queue',
      foldl (prefetch_step layer now mm) (Some (requests, queue)) candidates
      = Some (requests', queue')
      ∧ (length queue' <= 16)%nat
      ∧ Forall (issued_for predictions layer mm) requests'
      ∧ (length requests' <= length requests + length candidates)%nat.
Proof.
  intros Hps. induction candidates as [|c candidates IH];
    intros Hcand requests queue Hq Hreqs.
  - exists requests, queue. cbn. repeat split; [done..|lia].
  - cbn [foldl]. destruct (Hcand c) as (i & Hi & Hpred); [by left|].
    assert (∀ c', c' ∈ candidates →
              ∃ i : nat, c'.1 = Z.of_nat i ∧ predictions !! i = Some c'.2)
      as Hcand' by (intros c' Hc'; apply Hcand; by right).
    unfold prefetch_step at 2. cbn [mbind option_bind].
    destruct (is_in_cache_some
                (compute_kv_address 0 layer ((c.1 + 1) mod 2 ^ 32))
                CXLMemoryManager.L1_GPU_LOCAL mm Hps) as [b1 Hb1].
    destruct (is_in_cache_some
                (compute_kv_address 0 layer ((c.1 + 1) mod 2 ^ 32))
                CXLMemoryManager.L2_PREFETCH mm Hps) as [b2 Hb2].
    rewrite Hb1.
    destruct b1.
    { destruct (IH Hcand' requests queue Hq Hreqs) as (r' & q' & -> & ? & ? & ?).
      exists r', q'. repeat split; [done..|cbn [length]; lia]. }
    rewrite Hb2. destruct b2.
    { destruct (IH Hcand' requests queue Hq Hreqs) as (r' & q' & -> & ? & ? & ?).
      exists r', q'. repeat split; [done..|cbn [length]; lia]. }
    set (req := {| virtual_addr := _ |}).
    destruct (IH Hcand' (requests ++ [req]) (issue_dma_prefetch req queue))
      as (r' & q' & -> & ? & ? & Hlen).
    + by apply issue_dma_prefetch_length.
    + apply Forall_app. split; [done|]. apply Forall_singleton.
      destruct c as [z [token conf]]. cbn in Hi, Hpred. subst z.
      exists i, token, conf. by repeat split.
    + exists r', q'. rewrite length_app in Hlen. cbn [length] in *.
      repeat split; [done..|lia].
Qed.

(** X13.  What one call of [prefetch] does, for whatever the predictor
    returned: it issues at most one request per candidate, every request is
    for the address of a candidate that was in neither L1 nor L2 when the
    call looked (with the candidate's token and confidence), the counter of
    prefetches grows by the number of requests returned, and the queue of
    outstanding requests still holds at most 16. *)
Theorem prefetch_issues_only_uncached
    (predictions : list (Z * spec_float)) (layer : Z) (now : Z → Z)
    (mm : CXLMemoryManager.t) (st : issue_state) :
  CXLMemoryManager.page_size_ mm ≠ 0 →
  (length (outstanding_prefetches_ st) <= 16)%nat →
  ∃ requests st',
    prefetch predictions layer now mm st = Some (requests, st')
    ∧ (length requests <= length predictions)%nat
    ∧ Forall (issued_for predictions layer mm) requests
    ∧ (length (outstanding_prefetches_ st') <= 16)%nat
    ∧ total_prefetches st'
      = wrap64 (total_prefetches st + Z.of_nat (length requests))
    ∧ mispredictions st' = mispredictions st.
Proof.
  intros Hps Hq. unfold prefetch.
  destruct (prefetch_fold predictions layer now mm
              (zip (seqZ 0 (Z.of_nat (length predictions))) predictions) Hps
              (candidates_indexed predictions) [] (outstanding_prefetches_ st)
              Hq (Forall_nil_2 _)) as (requests & queue & -> & Hq' & Hall & Hlen).
  cbn [mbind option_bind]. eexists _, _. split; [reflexivity|].
  cbn [outstanding_prefetches_ total_prefetches mispredictions].
  rewrite length_zip_with, length_seqZ in Hlen. cbn [length] in Hlen.
  repeat split; [lia|done..].
Qed.

Lemma prefetch_issues_only_uncached_witness :
  ∃ requests st',
    prefetch [(11, S754_zero false); (12, S754_zero false)] 3 (λ _, 0)
      (CXLMemoryManager.new 12 3 128 4096) new_issue_state
    = Some (requests, st')
    ∧ (length requests <= 2)%nat
    ∧ (length (outstanding_prefetches_ st') <= 16)%nat.
Proof.
  destruct (prefetch_issues_only_uncached
              [(11, S754_zero false); (12, S754_zero false)] 3 (λ _, 0)
              (CXLMemoryManager.new 12 3 128 4096) new_issue_state)
    as (requests & st' & Hp & Hlen & _ & Hq & _).
  - discriminate.
  - cbn. lia.
  - exists requests, st'. split; [exact Hp|]. split; [exact Hlen | exact Hq].
Defined.

End PrefetchCallProperties.

(** ** The tiered page allocator, continued *)

Section AllocatorProperties.
Import CXLMemoryManager.

(** What [allocate] builds, with the tier and the physical cursor named. *)
Lemma allocate_placed size_bytes layer preferred_tier now m :
  page_size_ m ≠ 0 →
  let ti := placed_tier size_bytes preferred_tier m in
  ∃ m',
    allocate size_bytes layer preferred_tier now m
    = Some (next_virtual_addr_ m, m')
    ∧ page_size_ m' = page_size_ m
    ∧ l1_size_bytes_ m' = l1_size_bytes_ m
    ∧ page_table_ m'
      = create_pages (next_virtual_addr_ m) (physical_cursor ti m) ti layer
          (page_size_ m) now (num_pages_for size_bytes m) (page_table_ m)
    ∧ l1_pages_ m'
      = (if decide (ti = L1_GPU_LOCAL)
         then l1_pages_ m ++ [next_virtual_addr_ m] else l1_pages_ m).
Proof.
  intros Hps ti. unfold allocate. apply Z.eqb_neq in Hps. rewrite Hps.
  fold (num_pages_for size_bytes m). fold (required_bytes_for size_bytes m).
  fold (placed_tier size_bytes preferred_tier m). fold ti.
  destruct ti; eexists; (split; [reflexivity|]); done.
Qed.

(** The pages of a request, without wrap-around. *)
Lemma num_pages_covers size_bytes m :
  0 < page_size_ m → 0 <= size_bytes →
  size_bytes + page_size_ m < two64 →
  0 <= num_pages_for size_bytes m
  ∧ size_bytes <= num_pages_for size_bytes m * page_size_ m
    < size_bytes + page_size_ m.
Proof.
  intros Hps Hsize Hfit.
  unfold num_pages_for, wrap64, two64 in *.
  rewrite (Z.mod_small (size_bytes + page_size_ m)) by lia.
  rewrite (Z.mod_small (size_bytes + page_size_ m - 1)) by lia.
  pose proof (Z.div_mod (size_bytes + page_size_ m - 1) (page_size_ m)) as Hdm.
  pose proof (Z.mod_pos_bound (size_bytes + page_size_ m - 1) (page_size_ m) Hps).
  assert (0 <= (size_bytes + page_size_ m - 1) / page_size_ m)
    by (apply Z.div_pos; lia).
  nia.
Qed.

(** The page an address inside a fresh allocation falls in. *)
Lemma allocated_page size_bytes layer preferred_tier now m off :
  0 < page_size_ m →
  0 <= size_bytes →
  0 <= next_virtual_addr_ m →
  (page_size_ m | next_virtual_addr_ m) →
  next_virtual_addr_ m + size_bytes + page_size_ m < two64 →
  0 <= off < size_bytes →
  let ti := placed_tier size_bytes preferred_tier m in
  ∃ m',
    allocate size_bytes layer preferred_tier now m
    = Some (next_virtual_addr_ m, m')
    ∧ page_size_ m' = page_size_ m
    ∧ page_key (next_virtual_addr_ m + off) m'
      = next_virtual_addr_ m + off / page_size_ m * page_size_ m
    ∧ get_page (next_virtual_addr_ m + off) m'
      = Some (make_page (next_virtual_addr_ m) (physical_cursor ti m) ti layer
                (page_size_ m) now (off / page_size_ m)).
Proof.
  intros Hps Hsize Hcur [k Hk] Hfit Hoff ti.
  destruct (allocate_placed size_bytes layer preferred_tier now m)
    as (m' & Halloc & Hps' & _ & Hpt & _); [lia|].
  destruct (num_pages_covers size_bytes m) as [Hn0 Hn]; [lia..|].
  exists m'. split; [done|]. split; [done|].
  pose proof (Z.div_mod off (page_size_ m)) as Hdm.
  pose proof (Z.mod_pos_bound off (page_size_ m) Hps) as Hmod.
  assert (0 <= off / page_size_ m) as Hi0 by (apply Z.div_pos; lia).
  assert (off / page_size_ m < num_pages_for size_bytes m) as Hi by nia.
  assert (page_key (next_virtual_addr_ m + off) m'
          = next_virtual_addr_ m + off / page_size_ m * page_size_ m) as Hkey.
  { unfold page_key. rewrite Hps'.
    assert ((next_virtual_addr_ m + off) / page_size_ m
            = k + off / page_size_ m) as ->
      by (rewrite Hk, Z.div_add_l by lia; done).
    unfold wrap64. rewrite Z.mod_small; [lia|]. unfold two64 in *. nia. }
  split; [done|].
  unfold get_page. fold (page_key (next_virtual_addr_ m + off) m').
  rewrite Hkey, Hpt. fold ti.
  rewrite <- (Z2Nat.id (num_pages_for size_bytes m)) by lia.
  apply create_pages_lookup; [done | done | | lia].
  rewrite Z2Nat.id by lia. unfold two64 in *. lia.
Qed.

(** X14.  An allocation is one linear window.  On a manager whose virtual
    cursor is a multiple of the page size (and does not wrap), [allocate]
    returns a base such that every address [base + off] inside the request
    translates to the physical cursor of the tier the request was placed in
    plus [off], is reported in that tier by [is_in_cache], and has the page
    state EXCLUSIVE.  The tier is the preferred one, or L3 when L1 was
    preferred and the request did not fit. *)
Theorem allocation_translates_linearly
    (m : t) (size_bytes layer : Z) (preferred_tier : MemoryTier) (now : Z → Z) :
  0 < page_size_ m →
  0 <= size_bytes →
  0 <= next_virtual_addr_ m →
  (page_size_ m | next_virtual_addr_ m) →
  next_virtual_addr_ m + size_bytes + page_size_ m < two64 →
  let ti := placed_tier size_bytes preferred_tier m in
  ∃ base m',
    allocate size_bytes layer preferred_tier now m = Some (base, m')
    ∧ ∀ off, 0 <= off < size_bytes →
        translate_virtual_to_physical (base + off) m'
        = Some (wrap64 (physical_cursor ti m + off))
        ∧ is_in_cache (base + off) ti m' = Some true
        ∧ get_page_state (base + off) m' = Some EXCLUSIVE.
Proof.
  intros Hps Hsize Hcur Hdiv Hfit ti.
  destruct (allocate_placed size_bytes layer preferred_tier now m)
    as (m' & Halloc & Hps' & _); [lia|].
  exists (next_virtual_addr_ m), m'. split; [done|].
  intros off Hoff.
  destruct (allocated_page size_bytes layer preferred_tier now m off)
    as (m'' & Halloc' & _ & Hkey & Hpage); [done..|].
  rewrite Halloc in Halloc'. injection Halloc' as <-.
  fold ti in Hpage.
  assert ((page_size_ m' =? 0) = false) as Hnz by (apply Z.eqb_neq; lia).
  unfold translate_virtual_to_physical, is_in_cache, get_page_state.
  rewrite Hnz, Hpage, Hkey. cbn [make_page physical_addr tier state].
  split; [|split; [by rewrite bool_decide_eq_true_2|done]].
  f_equal. unfold wrap64.
  rewrite (Zplus_mod_idemp_r (off / page_size_ m * page_size_ m)).
  rewrite Zplus_mod_idemp_l, Zplus_mod_idemp_r. f_equal. lia.
Qed.

Lemma allocation_translates_linearly_witness :
  ∃ m',
    allocate 10000 3 L3_CXL_POOL (λ _, 0) (new 12 3 128 4096)
    = Some (0x100000000, m')
    ∧ translate_virtual_to_physical (0x100000000 + 9999) m'
      = Some (0x20000000000 + 9999).
Proof.
  destruct (allocation_translates_linearly (new 12 3 128 4096) 10000 3
              L3_CXL_POOL (λ _, 0))
    as (base & m' & Halloc & Hwin);
    [reflexivity | discriminate | discriminate
    | by exists 1048576 | reflexivity |].
  assert (base = 0x100000000) as ->.
  { revert Halloc. unfold allocate. cbn [page_size_ new Z.eqb].
    by intros [= <- _]. }
  exists m'. split; [exact Halloc|].
  destruct (Hwin 9999) as [Htr _]; [split; [discriminate | reflexivity]|].
  exact Htr.
Defined.

(** X15.  The L1 usage that [can_fit_in_tier] computes counts allocations,
    not pages: after a request of any size has been placed in L1, the usage
    has grown by one page size, whatever the number of pages the request
    took. *)
Theorem l1_usage_counts_allocations
    (m : t) (size_bytes layer : Z) (now : Z → Z) :
  page_size_ m ≠ 0 →
  can_fit_in_tier L1_GPU_LOCAL (required_bytes_for size_bytes m) m = true →
  ∃ base m',
    allocate size_bytes layer L1_GPU_LOCAL now m = Some (base, m')
    ∧ l1_pages_ m' = l1_pages_ m ++ [base]
    ∧ ∀ x,
        can_fit_in_tier L1_GPU_LOCAL x m'
        = (wrap64
             (wrap64 ((Z.of_nat (length (l1_pages_ m)) + 1) * page_size_ m) + x)
           <=? l1_size_bytes_ m).
Proof.
  intros Hps Hfit.
  destruct (allocate_placed size_bytes layer L1_GPU_LOCAL now m Hps)
    as (m' & Halloc & Hps' & Hl1 & _ & Hpages).
  unfold placed_tier in Hpages. rewrite Hfit in Hpages.
  rewrite bool_decide_eq_true_2 in Hpages by done.
  cbn [andb negb] in Hpages. rewrite decide_True in Hpages by done.
  exists (next_virtual_addr_ m), m'. split; [done|]. split; [done|].
  intros x. unfold can_fit_in_tier.
  rewrite Hpages, Hps', Hl1, length_app. cbn [length].
  by rewrite Nat2Z.inj_add.
Qed.

Lemma l1_usage_counts_allocations_witness :
  ∃ m',
    allocate (1024 * 4096) 0 L1_GPU_LOCAL (λ _, 0) (new 12 3 128 4096)
    = Some (0x100000000, m')
    ∧ can_fit_in_tier L1_GPU_LOCAL (12 * GiB - 4096) m' = true.
Proof.
  destruct (l1_usage_counts_allocations (new 12 3 128 4096) (1024 * 4096) 0
              (λ _, 0))
    as (base & m' & Halloc & Hpages & Hfit); [discriminate | reflexivity |].
  assert (base = 0x100000000) as ->.
  { revert Halloc. unfold allocate. cbn [page_size_ new Z.eqb].
    by intros [= <- _]. }
  exists m'. split; [exact Halloc|]. rewrite Hfit. reflexivity.
Defined.

(** The page table after a change of one page that keeps its physical
    address translates as before. *)
Lemma translate_after_update va a page page' m m' :
  page_size_ m' = page_size_ m →
  get_page va m = Some page →
  physical_addr page' = physical_addr page →
  page_table_ m' = <[page_key va m := page']> (page_table_ m) →
  translate_virtual_to_physical a m' = translate_virtual_to_physical a m.
Proof.
  intros Hps Hpage Hphys Hpt.
  unfold translate_virtual_to_physical, get_page, page_key in *.
  rewrite Hps, Hpt. destruct (page_size_ m =? 0); [done|]. f_equal.
  destruct (decide (wrap64 (a / page_size_ m * page_size_ m)
                    = wrap64 (va / page_size_ m * page_size_ m))) as [E|E].
  - rewrite E, lookup_insert_eq, Hpage. by rewrite Hphys.
  - by rewrite lookup_insert_ne.
Qed.

(** [promote_to_l1] when no eviction is needed. *)
Lemma promote_to_l1_fits (va : Z) (m : t) (page : MemoryPage) :
  page_size_ m ≠ 0 →
  get_page va m = Some page →
  tier page ≠ L1_GPU_LOCAL →
  can_fit_in_tier L1_GPU_LOCAL (page_size_ m) m = true →
  ∃ m',
    promote_to_l1 va m = Some (true, m')
    ∧ is_in_cache va L1_GPU_LOCAL m' = Some true.
Proof.
  intros Hps Hpage Htier Hfit. unfold promote_to_l1.
  pose proof Hps as Hnz. apply Z.eqb_neq in Hnz. rewrite Hnz, Hpage.
  destruct (decide (tier page = L1_GPU_LOCAL)); [done|].
  rewrite Hfit. cbn [mbind option_bind].
  eexists. split; [reflexivity|].
  unfold is_in_cache, get_page.
  destruct (tier page) eqn:Et; [done|..]; cbn; rewrite Hnz;
    fold (page_key va m); by rewrite lookup_insert_eq.
Qed.

(** X16.  [promote_to_l1] of a page outside L1 while L1 has room for one
    page: the call returns true; afterwards [is_in_cache] reports the page in
    L1, the address is at the back of [l1_pages_] and at the MRU end of the
    LRU list, the migration counter has moved when the page came from L3,
    and every address translates as before: the page keeps the physical
    address of the tier it was allocated in. *)
Theorem promote_to_l1_moves_page (va : Z) (m : t) (page : MemoryPage) :
  page_size_ m ≠ 0 →
  get_page va m = Some page →
  tier page ≠ L1_GPU_LOCAL →
  can_fit_in_tier L1_GPU_LOCAL (page_size_ m) m = true →
  ∃ m',
    promote_to_l1 va m = Some (true, m')
    ∧ is_in_cache va L1_GPU_LOCAL m' = Some true
    ∧ l1_pages_ m' = l1_pages_ m ++ [va]
    ∧ l1_lru_list_ m' = erase_value va (l1_lru_list_ m) ++ [va]
    ∧ migrations_l3_to_l1 (stats_ m')
      = (if decide (tier page = L3_CXL_POOL)
         then wrap64 (migrations_l3_to_l1 (stats_ m) + 1)
         else migrations_l3_to_l1 (stats_ m))
    ∧ ∀ a, translate_virtual_to_physical a m'
           = translate_virtual_to_physical a m.
Proof.
  intros Hps Hpage Htier Hfit. unfold promote_to_l1.
  pose proof Hps as Hnz. apply Z.eqb_neq in Hnz. rewrite Hnz, Hpage.
  destruct (decide (tier page = L1_GPU_LOCAL)); [done|].
  rewrite Hfit. cbn [mbind option_bind].
  eexists. split; [reflexivity|].
  split; [|split; [|split; [|split]]].
  - unfold is_in_cache, get_page.
    destruct (tier page) eqn:Et; [done|..]; cbn; rewrite Hnz;
      fold (page_key va m); by rewrite lookup_insert_eq.
  - by destruct (tier page).
  - by destruct (tier page).
  - by destruct (tier page).
  - intros a.
    apply (translate_after_update va a page (with_tier L1_GPU_LOCAL page));
      [| done | done |]; by destruct (tier page).
Qed.

Lemma promote_to_l1_moves_page_witness :
  fst <$> ('(base, m1) ← allocate 4096 0 L3_CXL_POOL (λ _, 0)
                              (new 12 3 128 4096);
           promote_to_l1 base m1)
  = Some true.
Proof.
  destruct (allocate 4096 0 L3_CXL_POOL (λ _, 0) (new 12 3 128 4096))
    as [[base m1]|] eqn:Halloc; [|discriminate Halloc].
  assert (base = 0x100000000) as ->.
  { revert Halloc. unfold allocate. cbn [page_size_ new Z.eqb].
    by intros [= <- _]. }
  assert ((λ r : Z * t, (page_size_ r.2, tier <$> get_page 0x100000000 r.2,
                         can_fit_in_tier L1_GPU_LOCAL 4096 r.2))
          <$> allocate 4096 0 L3_CXL_POOL (λ _, 0) (new 12 3 128 4096)
          = Some (4096, Some L3_CXL_POOL, true)) as Hfacts by (by vm_compute).
  rewrite Halloc in Hfacts. injection Hfacts as Hps Hpage Hfit.
  destruct (get_page 0x100000000 m1) as [page|] eqn:Hget;
    [|discriminate Hpage].
  injection Hpage as Htier.
  destruct (promote_to_l1_moves_page 0x100000000 m1 page)
    as (m' & Hpromote & _).
  - rewrite Hps. discriminate.
  - exact Hget.
  - rewrite Htier. discriminate.
  - rewrite Hps. exact Hfit.
  - cbn [mbind option_bind]. rewrite Hpromote. reflexivity.
Defined.

(** [n] accesses to a mapped page count up its [access_count] (a
    [uint32_t]) and leave its tier alone. *)
Lemma access_repeatedly_count (n : nat) : ∀ va now m page,
  page_size_ m ≠ 0 →
  get_page va m = Some page →
  0 <= access_count page < 2 ^ 32 →
  ∃ m' page',
    access_repeatedly n va now m = Some m'
    ∧ page_size_ m' = page_size_ m
    ∧ get_page va m' = Some page'
    ∧ access_count page' = (access_count page + Z.of_nat n) mod 2 ^ 32
    ∧ tier page' = tier page
    ∧ physical_addr page' = physical_addr page.
Proof.
  induction n as [|n IH]; intros va now m page Hps Hpage Hcount.
  - exists m, page. cbn [access_repeatedly]. rewrite Z.add_0_r.
    rewrite Z.mod_small by done. done.
  - cbn [access_repeatedly]. unfold update_access_tracking at 1.
    pose proof Hps as Hnz. apply Z.eqb_neq in Hnz. rewrite Hnz, Hpage.
    cbn [mbind option_bind].
    set (page1 := with_access ((access_count page + 1) mod 2 ^ 32) (now n) page).
    set (m1 := update_lru va _).
    destruct (IH va now m1 page1) as (m' & page' & Hrun & Hps' & Hget & Hc & Ht & Hp).
    + done.
    + unfold get_page. cbn. fold (page_key va m). apply lookup_insert_eq.
    + cbn. apply Z.mod_pos_bound. lia.
    + exists m', page'. split; [done|]. split; [done|]. split; [done|].
      split; [|done]. rewrite Hc. cbn [page1 with_access access_count].
      rewrite Zplus_mod_idemp_l. f_equal. lia.
Qed.

(** X18.  Hotness is a threshold on the access count.  A page that has been
    accessed [n] times since its count was [c] is classified hot by
    [is_hot_page] exactly when [(c + n) mod 2^32] exceeds 10; for a fresh
    page that is from the 11th access on.  The accesses change neither the
    tier of the page nor its translation. *)
Theorem hot_after_more_than_ten_accesses
    (n : nat) (va : Z) (now : nat → Z) (m : t) (page : MemoryPage) :
  page_size_ m ≠ 0 →
  get_page va m = Some page →
  0 <= access_count page < 2 ^ 32 →
  ∃ m',
    access_repeatedly n va now m = Some m'
    ∧ fst <$> is_hot_page va m'
      = Some (10 <? (access_count page + Z.of_nat n) mod 2 ^ 32)
    ∧ is_in_cache va (tier page) m' = Some true
    ∧ translate_virtual_to_physical va m'
      = translate_virtual_to_physical va m.
Proof.
  intros Hps Hpage Hcount.
  destruct (access_repeatedly_count n va now m page Hps Hpage Hcount)
    as (m' & page' & Hrun & Hps' & Hget & Hc & Ht & Hp).
  exists m'. split; [done|].
  unfold is_hot_page, is_in_cache, translate_virtual_to_physical, page_key.
  apply Z.eqb_neq in Hps. rewrite Hps', Hps, Hget, Hpage, Hc, Ht, Hp.
  split; [done|]. split; [|done]. by rewrite bool_decide_eq_true_2.
Qed.

Lemma hot_after_more_than_ten_accesses_witness :
  ∃ m1 m',
    snd <$> allocate 4096 0 L3_CXL_POOL (λ _, 0) (new 12 3 128 4096) = Some m1
    ∧ access_repeatedly 11 0x100000000 (λ _, 0) m1 = Some m'
    ∧ fst <$> is_hot_page 0x100000000 m' = Some true.
Proof.
  destruct (allocate 4096 0 L3_CXL_POOL (λ _, 0) (new 12 3 128 4096))
    as [[base m1]|] eqn:Halloc; [|discriminate Halloc].
  assert ((λ r : Z * t, (page_size_ r.2,
                         access_count <$> get_page 0x100000000 r.2))
          <$> allocate 4096 0 L3_CXL_POOL (λ _, 0) (new 12 3 128 4096)
          = Some (4096, Some 0)) as Hfacts by (by vm_compute).
  rewrite Halloc in Hfacts. injection Hfacts as Hps Hpage.
  destruct (get_page 0x100000000 m1) as [page|] eqn:Hget;
    [|discriminate Hpage].
  injection Hpage as Hcount.
  destruct (hot_after_more_than_ten_accesses 11 0x100000000 (λ _, 0) m1 page)
    as (m' & Hrun & Hhot & _).
  - rewrite Hps. discriminate.
  - exact Hget.
  - rewrite Hcount. split; [discriminate | reflexivity].
  - exists m1, m'. split; [reflexivity|]. split; [exact Hrun|].
    rewrite Hhot, Hcount. reflexivity.
Defined.

(** One access to a mapped page, with what it keeps. *)
Lemma update_access_tracking_page va now m page :
  page_size_ m ≠ 0 →
  get_page va m = Some page →
  ∃ m',
    update_access_tracking va now m = Some m'
    ∧ page_size_ m' = page_size_ m
    ∧ l1_size_bytes_ m' = l1_size_bytes_ m
    ∧ l1_pages_ m' = l1_pages_ m
    ∧ get_page va m'
      = Some (with_access ((access_count page + 1) mod 2 ^ 32) now page).
Proof.
  intros Hps Hpage. unfold update_access_tracking.
  apply Z.eqb_neq in Hps. rewrite Hps, Hpage.
  eexists. split; [reflexivity|]. do 3 (split; [done|]).
  unfold get_page. cbn. fold (page_key va m). apply lookup_insert_eq.
Qed.

End AllocatorProperties.

(** ** The mutex of the page table *)

Section MutexProperties.
Import PageTableMutex.

(** Called with the mutex free, [demote_to_l3] comes back, with the result
    of its body and the mutex free again. *)
Lemma demote_to_l3_free va s :
  page_table_mutex_ s = false →
  demote_to_l3 va s
  = match CXLMemoryManager.demote_to_l3 va (manager_ s) with
    | Some (result, m') =>
        Returns (result, {| manager_ := m'; page_table_mutex_ := false |})
    | None => DivisionByZero
    end.
Proof.
  intros Hfree. unfold demote_to_l3, lock. rewrite Hfree.
  cbn [and_then manager_].
  by destruct (CXLMemoryManager.demote_to_l3 va (manager_ s)) as [[? ?]|].
Qed.

(** Called by the thread that owns the mutex, it does not. *)
Lemma demote_to_l3_owned va s :
  page_table_mutex_ s = true → demote_to_l3 va s = NeverReturns.
Proof. intros Howned. unfold demote_to_l3, lock. by rewrite Howned. Qed.

(** The function of [CXLMemoryManager] is this one with the mutex left out:
    called with the mutex free, [promote_to_l1] returns what that function
    returns, and where that function has no result this one blocks or
    divides by zero. *)
Lemma promote_to_l1_agrees va s :
  page_table_mutex_ s = false →
  match promote_to_l1 va s with
  | Returns (result, s') =>
      CXLMemoryManager.promote_to_l1 va (manager_ s)
      = Some (result, manager_ s')
      ∧ page_table_mutex_ s' = false
  | NeverReturns | DivisionByZero =>
      CXLMemoryManager.promote_to_l1 va (manager_ s) = None
  end.
Proof.
  intros Hfree.
  unfold promote_to_l1, CXLMemoryManager.promote_to_l1, lock.
  rewrite Hfree. cbn [and_then manager_].
  destruct (CXLMemoryManager.page_size_ (manager_ s) =? 0); [done|].
  destruct (CXLMemoryManager.get_page va (manager_ s)) as [page|] eqn:Hpage;
    [|done].
  destruct (decide (CXLMemoryManager.tier page
                    = CXLMemoryManager.L1_GPU_LOCAL)); [done|].
  destruct (CXLMemoryManager.can_fit_in_tier CXLMemoryManager.L1_GPU_LOCAL
              (CXLMemoryManager.page_size_ (manager_ s)) (manager_ s)).
  - cbn [and_then manager_ mbind option_bind]. rewrite Hpage.
    cbn [default]. done.
  - unfold evict_l1_lru, CXLMemoryManager.evict_l1_lru_locked.
    cbn [manager_].
    destruct (CXLMemoryManager.l1_lru_list_ (manager_ s)) as [|lru_addr rest].
    + cbn [and_then manager_ mbind option_bind]. rewrite Hpage.
      cbn [default]. done.
    + rewrite demote_to_l3_owned by done. done.
Qed.

(** X17.  [promote_to_l1] of a mapped page outside L1, called with the mutex
    free while L1 has no room for one page and the LRU list is not empty,
    does not return.  It takes [page_table_mutex_] and calls [evict_l1_lru],
    which calls [demote_to_l3] on the front of the list, and that locks the
    mutex its caller owns.  On the same manager [demote_to_l3] called from
    outside, with the mutex free, comes back for every address. *)
Theorem promote_to_l1_with_full_l1_does_not_return
    (va : Z) (s : t) (page : CXLMemoryManager.MemoryPage) :
  page_table_mutex_ s = false →
  CXLMemoryManager.page_size_ (manager_ s) ≠ 0 →
  CXLMemoryManager.get_page va (manager_ s) = Some page →
  CXLMemoryManager.tier page ≠ CXLMemoryManager.L1_GPU_LOCAL →
  CXLMemoryManager.can_fit_in_tier CXLMemoryManager.L1_GPU_LOCAL
    (CXLMemoryManager.page_size_ (manager_ s)) (manager_ s) = false →
  CXLMemoryManager.l1_lru_list_ (manager_ s) ≠ [] →
  promote_to_l1 va s = NeverReturns
  ∧ ∀ a, ∃ result s',
      demote_to_l3 a s = Returns (result, s')
      ∧ page_table_mutex_ s' = false.
Proof.
  intros Hfree Hps Hpage Htier Hfit Hlru. split.
  - unfold promote_to_l1, lock. rewrite Hfree. cbn [and_then manager_].
    apply Z.eqb_neq in Hps. rewrite Hps, Hpage.
    destruct (decide (CXLMemoryManager.tier page
                      = CXLMemoryManager.L1_GPU_LOCAL)); [done|].
    rewrite Hfit. unfold evict_l1_lru. cbn [manager_].
    destruct (CXLMemoryManager.l1_lru_list_ (manager_ s)) as [|lru_addr rest];
      [done|].
    by rewrite demote_to_l3_owned.
  - intros a. rewrite demote_to_l3_free by done.
    unfold CXLMemoryManager.demote_to_l3.
    apply Z.eqb_neq in Hps. rewrite Hps.
    destruct (CXLMemoryManager.get_page a (manager_ s)) as [page_a|];
      [|by eexists _, _].
    destruct (decide (CXLMemoryManager.tier page_a
                      = CXLMemoryManager.L3_CXL_POOL)); by eexists _, _.
Qed.

Lemma promote_to_l1_with_full_l1_does_not_return_witness :
  match
    '(base, m1) ← CXLMemoryManager.allocate 4096 0
                     CXLMemoryManager.L1_GPU_LOCAL (λ _, 0)
                     (CXLMemoryManager.new 0 3 128 4096);
    m2 ← CXLMemoryManager.update_access_tracking base 1 m1;
    Some (base, m2)
  with
  | Some (base, m2) =>
      promote_to_l1 base {| manager_ := m2; page_table_mutex_ := false |}
      = NeverReturns
  | None => False
  end.
Proof.
  assert ((λ r : Z * CXLMemoryManager.t,
             (r.1, CXLMemoryManager.page_size_ r.2,
              CXLMemoryManager.tier <$> CXLMemoryManager.get_page r.1 r.2,
              CXLMemoryManager.can_fit_in_tier
                CXLMemoryManager.L1_GPU_LOCAL 4096 r.2,
              CXLMemoryManager.l1_lru_list_ r.2))
          <$> ('(base, m1) ← CXLMemoryManager.allocate 4096 0
                                CXLMemoryManager.L1_GPU_LOCAL (λ _, 0)
                                (CXLMemoryManager.new 0 3 128 4096);
               m2 ← CXLMemoryManager.update_access_tracking base 1 m1;
               Some (base, m2))
          = Some (0x100000000, 4096, Some CXLMemoryManager.L3_CXL_POOL, false,
                  [0x100000000])) as Hfacts by (by vm_compute).
  destruct ('(base, m1) ← CXLMemoryManager.allocate 4096 0
                             CXLMemoryManager.L1_GPU_LOCAL (λ _, 0)
                             (CXLMemoryManager.new 0 3 128 4096);
            m2 ← CXLMemoryManager.update_access_tracking base 1 m1;
            Some (base, m2)) as [[base m2]|]; [|discriminate Hfacts].
  injection Hfacts as Hbase Hps Hpage Hfit Hlru. cbn [fst snd] in *.
  destruct (CXLMemoryManager.get_page base m2) as [page|] eqn:Hget;
    [|discriminate Hpage].
  injection Hpage as Htier.
  apply (promote_to_l1_with_full_l1_does_not_return base
           {| manager_ := m2; page_table_mutex_ := false |} page).
  - reflexivity.
  - cbn [manager_]. rewrite Hps. discriminate.
  - exact Hget.
  - rewrite Htier. discriminate.
  - cbn [manager_]. rewrite Hps. exact Hfit.
  - cbn [manager_]. rewrite Hlru. discriminate.
Defined.

End MutexProperties.

(** ** The coherence manager, continued *)

Section CoherenceProperties.
Import CoherenceManager.

(** The transport call, with the counters it moves. *)
Lemma send_counts op addr m :
  ∃ m', send_coherence_op_to_fpga op addr m = (driver_ m, m')
    ∧ driver_ m' = driver_ m
    ∧ cache_line_size_ m' = cache_line_size_ m
    ∧ directory_ m' = directory_ m
    ∧ transport_ m' = transport_ m ++ [(op, addr, driver_ m)]
    ∧ stats_ m'
      = (if driver_ m then stats_ (update_statistics op true m) else stats_ m).
Proof.
  unfold send_coherence_op_to_fpga. destruct (driver_ m) eqn:Hd; cbn [negb].
  - eexists. split; [done|]. by destruct op.
  - eexists. split; [done|]. done.
Qed.

Lemma calls_since_app m m' calls :
  transport_ m' = transport_ m ++ calls → calls_since m m' = calls.
Proof. unfold calls_since. intros ->. by rewrite drop_app_length. Qed.

Lemma get_state_lookup m m' addr :
  cache_line_size_ m' = cache_line_size_ m →
  get_state addr m'
  = match directory_ m' !! align_to_cache_line m addr with
    | Some entry => state entry
    | None => INVALID
    end.
Proof. intros Hc. unfold get_state, get_entry. by rewrite (align_frame m m'). Qed.

Lemma get_tier_lookup m m' addr :
  cache_line_size_ m' = cache_line_size_ m →
  get_tier addr m'
  = match directory_ m' !! align_to_cache_line m addr with
    | Some entry => tier entry
    | None => L3_CXL
    end.
Proof. intros Hc. unfold get_tier, get_entry. by rewrite (align_frame m m'). Qed.

(** X19.  A manager built without a driver caches nothing, whatever calls
    were made on it: every line reads as Invalid, [request_read] and
    [request_write] return false and leave the line Invalid, and [writeback]
    returns true without a transport call, there being nothing Modified. *)
Theorem without_driver_nothing_is_cached (m : t) (addr size now : Z) :
  reachable m →
  driver_ m = false →
  get_state addr m = INVALID
  ∧ (request_read addr size now m).1 = false
  ∧ get_state addr (request_read addr size now m).2 = INVALID
  ∧ (request_write addr size now m).1 = false
  ∧ get_state addr (request_write addr size now m).2 = INVALID
  ∧ writeback addr size m = (true, m).
Proof.
  intros Hreach Hd.
  pose proof (reachable_without_driver m Hreach Hd) as Hinv.
  assert (∀ a m', stable m m' → get_state a m' = INVALID) as Hstate.
  { intros a m' (_ & _ & Hst). unfold get_state, get_entry.
    destruct (directory_ m' !! _) as [e|] eqn:E; [|done].
    by apply (Hst Hd Hinv _ _ E). }
  split; [apply Hstate, stable_refl|].
  destruct (request_read_effect addr size now m)
    as (calls_r & Htr & _ & _ & _ & Hno_r).
  destruct (request_write_effect addr size now m)
    as (calls_w & Htw & _ & _ & _ & Hno_w).
  split; [|split; [|split; [|split]]].
  - unfold request_read. set (line := align_to_cache_line m addr).
    assert ((let '(success, m2) :=
               send_coherence_op_to_fpga READ line
                 (update_statistics READ false m) in
             if success then
               let '(new_entry, m3) := get_or_create_entry line m2 in
               (true, set_directory
                  (<[line := with_access now 1
                               (with_tier L1_GPU (with_state SHARED new_entry))]>
                     (directory_ m3)) m3)
             else (false, m2)).1 = false) as Hmiss.
    { destruct (send_effect READ line (update_statistics READ false m))
        as (m2 & -> & _). cbn [driver_ update_statistics set_stats].
      by rewrite Hd. }
    destruct (get_entry line m) as [e|] eqn:He; [|exact Hmiss].
    rewrite (Hinv _ _ He). exact Hmiss.
  - apply Hstate, operation_effect_stable with (request_read addr size now m).1,
      request_read_effect.
  - unfold request_write. set (line := align_to_cache_line m addr).
    set (m1 := match get_entry line m with
               | Some e =>
                   if decide (state e = SHARED)
                   then add_invalidations_sent 1
                          (update_statistics INVALIDATE false m)
                   else m
               | None => m
               end).
    assert (driver_ m1 = false) as Hd1.
    { subst m1. destruct (get_entry line m) as [e|]; [|done].
      by destruct (decide (state e = SHARED)). }
    set (hit := bool_decide (is_Some (get_entry line m))).
    destruct (send_effect WRITE line (update_statistics WRITE hit m1))
      as (m3 & -> & _).
    destruct (update_statistics_frame WRITE hit m1) as (-> & _).
    by rewrite Hd1.
  - apply Hstate, operation_effect_stable with (request_write addr size now m).1,
      request_write_effect.
  - unfold writeback. destruct (get_entry _ m) as [e|] eqn:He; [|done].
    rewrite (Hinv _ _ He). done.
Qed.

Lemma without_driver_nothing_is_cached_witness :
  let m := (run (CallWrite 0x1000 64 1) (new false 64)).2 in
  get_state 0x1000 m = INVALID
  ∧ (request_read 0x1000 64 2 m).1 = false.
Proof.
  intros m.
  destruct (without_driver_nothing_is_cached m 0x1000 64 2)
    as (Hstate & Hread & _).
  - apply reachable_run, reachable_new.
  - reflexivity.
  - split; [exact Hstate | exact Hread].
Defined.

(** X20.  A read of a line in a valid state is answered from the directory:
    no transport call, state and tier as they were, the access count of the
    line one higher (a [uint32_t]) and its time stamp the clock; it counts
    one read and one directory hit.  No driver is needed for it. *)
Theorem read_hit_is_local
    (m : t) (addr size now : Z) (e : DirectoryEntry) :
  get_entry (align_to_cache_line m addr) m = Some e →
  state e ≠ INVALID →
  ∃ m',
    request_read addr size now m = (true, m')
    ∧ transport_ m' = transport_ m
    ∧ get_entry (align_to_cache_line m addr) m'
      = Some (with_access now ((access_count e + 1) mod 2 ^ 32) e)
    ∧ get_state addr m' = state e
    ∧ get_tier addr m' = tier e
    ∧ total_reads (stats_ m') = incr (total_reads (stats_ m))
    ∧ directory_hits (stats_ m') = incr (directory_hits (stats_ m))
    ∧ directory_misses (stats_ m') = directory_misses (stats_ m).
Proof.
  intros He Hst. unfold request_read. rewrite He.
  assert (is_valid_state (state e) = true) as -> by (by destruct (state e)).
  eexists. split; [reflexivity|].
  set (line := align_to_cache_line m addr).
  split; [done|]. split; [apply lookup_insert_eq|].
  split; [|split; [|done]].
  - rewrite (get_state_lookup m) by done. fold line. cbn.
    by rewrite lookup_insert_eq.
  - rewrite (get_tier_lookup m) by done. fold line. cbn.
    by rewrite lookup_insert_eq.
Qed.

Lemma read_hit_is_local_witness :
  let m := (request_read 0x1000 64 1 (new true 64)).2 in
  (request_read 0x1010 64 2 m).1 = true
  ∧ transport_ (request_read 0x1010 64 2 m).2 = transport_ m.
Proof.
  intros m.
  destruct (read_hit_is_local m 0x1010 64 2
              {| cache_line_addr := 0x1000; state := SHARED; tier := L1_GPU;
                 last_access_time := 1; access_count := 1;
                 pending_operation := false |})
    as (m' & Hread & Htrace & _).
  - reflexivity.
  - discriminate.
  - rewrite Hread. split; [reflexivity | exact Htrace].
Defined.

(** X21.  A read of a line that is Invalid or unknown, with a driver: one
    READ goes to the transport for the aligned address, the line becomes
    Shared in L1, and the call is counted twice, as a miss by
    [request_read] and as a hit by [send_coherence_op_to_fpga]:
    [total_reads] moves by two, [directory_misses] and [directory_hits] by
    one each. *)
Theorem read_miss_counts_twice (m : t) (addr size now : Z) :
  driver_ m = true →
  get_state addr m = INVALID →
  ∃ m',
    request_read addr size now m = (true, m')
    ∧ calls_since m m' = [(READ, align_to_cache_line m addr, true)]
    ∧ get_state addr m' = SHARED
    ∧ get_tier addr m' = L1_GPU
    ∧ total_reads (stats_ m') = incr (incr (total_reads (stats_ m)))
    ∧ directory_misses (stats_ m') = incr (directory_misses (stats_ m))
    ∧ directory_hits (stats_ m') = incr (directory_hits (stats_ m)).
Proof.
  intros Hd Hinv. unfold request_read.
  set (line := align_to_cache_line m addr).
  destruct (send_counts READ line (update_statistics READ false m))
    as (m2 & Hsend & Hd2 & Hc2 & Hdir2 & Ht2 & Hs2).
  destruct (update_statistics_frame READ false m)
    as (Hd1 & Hc1 & _ & Ht1 & _).
  rewrite Hd1, Hd in Hsend, Hd2, Ht2, Hs2.
  rewrite Ht1 in Ht2. rewrite Hc1 in Hc2.
  assert (∃ m', (let '(new_entry, m3) := get_or_create_entry line m2 in
            (true, set_directory
               (<[line := with_access now 1
                            (with_tier L1_GPU (with_state SHARED new_entry))]>
                  (directory_ m3)) m3)) = (true, m')
          ∧ cache_line_size_ m' = cache_line_size_ m
          ∧ transport_ m' = transport_ m2
          ∧ stats_ m' = stats_ m2
          ∧ (∃ e', directory_ m' !! line = Some e'
                   ∧ state e' = SHARED ∧ tier e' = L1_GPU))
    as (m' & Hres & Hc & Ht & Hs & e' & He' & Hst' & Hti').
  { unfold get_or_create_entry.
    destruct (directory_ m2 !! line) as [e|]; eexists;
      (split; [reflexivity|]); (split; [exact Hc2|]);
      (split; [reflexivity|]); (split; [reflexivity|]);
      eexists; (split; [apply lookup_insert_eq|]); done. }
  exists m'.
  split.
  { unfold get_state in Hinv. fold line in Hinv.
    destruct (get_entry line m) as [e|]; [rewrite Hinv; cbn [is_valid_state]|];
      by rewrite Hsend. }
  split.
  { apply calls_since_app. rewrite Ht, Ht2. done. }
  rewrite (get_state_lookup m), (get_tier_lookup m) by done. fold line.
  rewrite He', Hs, Hs2. done.
Qed.

Lemma read_miss_counts_twice_witness :
  ∃ m',
    request_read 0x1010 64 1 (new true 64) = (true, m')
    ∧ total_reads (stats_ m') = 2.
Proof.
  destruct (read_miss_counts_twice (new true 64) 0x1010 64 1)
    as (m' & Hread & _ & _ & _ & Hreads & _); [reflexivity | reflexivity |].
  exists m'. split; [exact Hread | exact Hreads].
Defined.

(** X22.  With a driver, [request_write] always takes the line: whatever
    the directory held for it, the call returns true after one WRITE to the
    transport, and the line is Modified in L1.  An invalidation is counted
    exactly when the line was Shared before. *)
Theorem write_takes_the_line (m : t) (addr size now : Z) :
  driver_ m = true →
  ∃ m',
    request_write addr size now m = (true, m')
    ∧ calls_since m m' = [(WRITE, align_to_cache_line m addr, true)]
    ∧ get_state addr m' = MODIFIED
    ∧ get_tier addr m' = L1_GPU
    ∧ invalidations_sent (stats_ m')
      = (if decide (get_state addr m = SHARED)
         then wrap64 (invalidations_sent (stats_ m) + 1)
         else invalidations_sent (stats_ m)).
Proof.
  intros Hd. unfold request_write.
  set (line := align_to_cache_line m addr).
  set (m1 := match get_entry line m with
             | Some e =>
                 if decide (state e = SHARED)
                 then add_invalidations_sent 1
                        (update_statistics INVALIDATE false m)
                 else m
             | None => m
             end).
  assert (driver_ m1 = true ∧ cache_line_size_ m1 = cache_line_size_ m
          ∧ transport_ m1 = transport_ m
          ∧ invalidations_sent (stats_ m1)
            = (if decide (get_state addr m = SHARED)
               then wrap64 (invalidations_sent (stats_ m) + 1)
               else invalidations_sent (stats_ m)))
    as (Hd1 & Hc1 & Ht1 & Hi1).
  { subst m1. unfold get_state. fold line.
    destruct (get_entry line m) as [e|]; [|done].
    by destruct (decide (state e = SHARED)). }
  set (hit := bool_decide (is_Some (get_entry line m))).
  destruct (update_statistics_frame WRITE hit m1)
    as (Hd2 & Hc2 & _ & Ht2 & _ & Hi2).
  destruct (send_with_driver WRITE line (update_statistics WRITE hit m1))
    as (m3 & Hsend & Hd3 & Hc3 & Hdir3 & Ht3 & _ & Hi3); [congruence|].
  rewrite Hsend.
  assert (∃ m', (let '(new_entry, m4) := get_or_create_entry line m3 in
            (true, set_directory
               (<[line := with_access now
                            ((access_count new_entry + 1) mod 2 ^ 32)
                            (with_tier L1_GPU (with_state MODIFIED new_entry))]>
                  (directory_ m4)) m4)) = (true, m')
          ∧ cache_line_size_ m' = cache_line_size_ m3
          ∧ transport_ m' = transport_ m3
          ∧ stats_ m' = stats_ m3
          ∧ (∃ e', directory_ m' !! line = Some e'
                   ∧ state e' = MODIFIED ∧ tier e' = L1_GPU))
    as (m' & -> & Hc & Ht & Hs & e' & He' & Hst' & Hti').
  { unfold get_or_create_entry.
    destruct (directory_ m3 !! line) as [e|]; eexists;
      (split; [reflexivity|]); (split; [reflexivity|]);
      (split; [reflexivity|]); (split; [reflexivity|]);
      eexists; (split; [apply lookup_insert_eq|]); done. }
  exists m'. split; [done|].
  split; [apply calls_since_app; congruence|].
  rewrite (get_state_lookup m), (get_tier_lookup m) by congruence. fold line.
  rewrite He', Hs. split; [done|]. split; [done|]. congruence.
Qed.

Lemma write_takes_the_line_witness :
  ∃ m',
    request_write 0x2000 64 1 (new true 64) = (true, m')
    ∧ get_state 0x2000 m' = MODIFIED.
Proof.
  destruct (write_takes_the_line (new true 64) 0x2000 64 1)
    as (m' & Hwrite & _ & Hstate & _); [reflexivity|].
  exists m'. split; [exact Hwrite | exact Hstate].
Defined.

(** X23.  Each of the four operations works on one line: the directory
    entry of every other line is afterwards what it was, with or without a
    driver. *)
Theorem operations_touch_one_line
    (op : Operation) (addr size now : Z) (m : t) (line' : Z) :
  line' ≠ align_to_cache_line m addr →
  directory_ (perform op addr size now m).2 !! line' = directory_ m !! line'.
Proof.
  intros Hne. set (line := align_to_cache_line m addr) in *.
  destruct op; cbn [perform].
  - unfold request_read. fold line.
    assert (directory_
              (let '(success, m2) :=
                 send_coherence_op_to_fpga READ line
                   (update_statistics READ false m) in
               if success then
                 let '(new_entry, m3) := get_or_create_entry line m2 in
                 (true, set_directory
                    (<[line := with_access now 1
                                 (with_tier L1_GPU
                                    (with_state SHARED new_entry))]>
                       (directory_ m3)) m3)
               else (false, m2)).2 !! line' = directory_ m !! line') as Hmiss.
    { destruct (send_effect READ line (update_statistics READ false m))
        as (m2 & -> & _ & _ & Hdir2 & _).
      destruct (driver_ (update_statistics READ false m)).
      - unfold get_or_create_entry.
        destruct (directory_ m2 !! line); cbn;
          rewrite !lookup_insert_ne by done; by rewrite Hdir2.
      - cbn. by rewrite Hdir2. }
    destruct (get_entry line m) as [e|]; [|exact Hmiss].
    destruct (is_valid_state (state e)); [|exact Hmiss].
    cbn. by rewrite lookup_insert_ne.
  - unfold request_write. fold line.
    set (m1 := match get_entry line m with
               | Some e =>
                   if decide (state e = SHARED)
                   then add_invalidations_sent 1
                          (update_statistics INVALIDATE false m)
                   else m
               | None => m
               end).
    assert (directory_ m1 = directory_ m) as Hdir1.
    { subst m1. destruct (get_entry line m) as [e|]; [|done].
      by destruct (decide (state e = SHARED)). }
    set (hit := bool_decide (is_Some (get_entry line m))).
    destruct (send_effect WRITE line (update_statistics WRITE hit m1))
      as (m3 & -> & _ & _ & Hdir3 & _).
    destruct (update_statistics_frame WRITE hit m1) as (_ & _ & Hdir2 & _).
    destruct (driver_ (update_statistics WRITE hit m1)).
    + unfold get_or_create_entry.
      destruct (directory_ m3 !! line); cbn;
        rewrite !lookup_insert_ne by done; congruence.
    + cbn. congruence.
  - unfold invalidate. fold line.
    destruct (get_entry line m) as [e|]; [|done].
    set (m1 := if decide (state e = MODIFIED)
               then add_writebacks_performed 1 m else m).
    assert (directory_ m1 = directory_ m) as Hdir1.
    { subst m1. by destruct (decide (state e = MODIFIED)). }
    set (m2 := set_directory
                 (<[line := with_state INVALID e]> (directory_ m1)) m1).
    destruct (send_effect INVALIDATE line m2)
      as (m3 & -> & _ & _ & Hdir3 & _).
    unfold add_invalidations_sent, set_stats. cbn [snd directory_].
    rewrite Hdir3. subst m2. cbn [directory_ set_directory].
    rewrite lookup_insert_ne by done. by rewrite Hdir1.
  - unfold writeback. fold line.
    destruct (get_entry line m) as [e|]; [|done].
    destruct (decide (state e = MODIFIED)); [|done].
    destruct (send_effect WRITEBACK line m) as (m1 & -> & _ & _ & Hdir1 & _).
    destruct (driver_ m); cbn.
    + rewrite lookup_insert_ne by done. by rewrite Hdir1.
    + by rewrite Hdir1.
Qed.

Lemma operations_touch_one_line_witness :
  let m := (request_write 0x1000 64 1 (new true 64)).2 in
  directory_ (invalidate 0x1040 m).2 !! 0x1000 = directory_ m !! 0x1000.
Proof.
  intros m.
  apply (operations_touch_one_line OpInvalidate 0x1040 0 0 m 0x1000).
  discriminate.
Defined.

(** One iteration of the loop of [flush_all]. *)
Lemma flush_step_effect m n k v :
  ∃ m',
    flush_step (m, n) (k, v)
    = (m', match directory_ m !! k with
           | Some e => if decide (state e = MODIFIED) then n + 1 else n
           | None => n
           end)
    ∧ cache_line_size_ m' = cache_line_size_ m
    ∧ writebacks_performed (stats_ m') = writebacks_performed (stats_ m)
    ∧ directory_ m' = alter flushed k (directory_ m).
Proof.
  unfold flush_step. cbn [fst].
  destruct (directory_ m !! k) as [e|] eqn:He.
  - destruct (decide (state e = MODIFIED)) as [Hst|Hst].
    + destruct (send_counts WRITEBACK k m)
        as (m1 & -> & _ & Hc1 & Hdir1 & _ & Hs1).
      eexists. split; [reflexivity|]. split; [done|]. split.
      * cbn. rewrite Hs1. by destruct (driver_ m).
      * cbn. rewrite Hdir1. apply map_eq. intros a.
        destruct (decide (a = k)) as [->|Hne].
        -- rewrite lookup_insert_eq, lookup_alter_eq, He. cbn.
           unfold flushed. by rewrite decide_True.
        -- by rewrite lookup_insert_ne, lookup_alter_ne.
    + exists m. split; [done|]. split; [done|]. split; [done|].
      apply map_eq. intros a. destruct (decide (a = k)) as [->|Hne].
      * rewrite lookup_alter_eq, He. cbn. unfold flushed.
        by rewrite decide_False.
      * by rewrite lookup_alter_ne.
  - exists m. split; [done|]. split; [done|]. split; [done|].
    apply map_eq. intros a. destruct (decide (a = k)) as [->|Hne].
    + by rewrite lookup_alter_eq, He.
    + by rewrite lookup_alter_ne.
Qed.

Lemma flushed_state e : state (flushed e) ≠ MODIFIED.
Proof. unfold flushed. by destruct (decide (state e = MODIFIED)). Qed.

(** The loop of [flush_all] over a list of distinct keys with the entries
    the directory holds for them. *)
Lemma flush_loop l : ∀ m n,
  NoDup l.*1 →
  (∀ k v, (k, v) ∈ l → directory_ m !! k = Some v) →
  ∃ m',
    foldl flush_step (m, n) l
    = (m', n + Z.of_nat
                 (length (filter (λ kv, state kv.2 = MODIFIED) l)))
    ∧ cache_line_size_ m' = cache_line_size_ m
    ∧ writebacks_performed (stats_ m') = writebacks_performed (stats_ m)
    ∧ ∀ a, directory_ m' !! a
           = (if decide (a ∈ l.*1) then flushed <$> directory_ m !! a
              else directory_ m !! a).
Proof.
  induction l as [|[k v] l IH]; intros m n Hnd Hl.
  - exists m. cbn. rewrite Z.add_0_r. split; [done|]. split; [done|].
    split; [done|]. intros a. rewrite decide_False; [done|]. set_solver.
  - cbn [fmap list_fmap fst] in Hnd. apply NoDup_cons in Hnd as [Hk Hnd].
    destruct (flush_step_effect m n k v) as (m1 & Hstep & Hc1 & Hw1 & Hdir1).
    rewrite (Hl k v) in Hstep by set_solver.
    cbn [foldl]. rewrite Hstep.
    destruct (IH m1 (if decide (state v = MODIFIED) then n + 1 else n) Hnd)
      as (m' & Hfold & Hc & Hw & Hdir).
    { intros k' v' Hin. rewrite Hdir1.
      rewrite lookup_alter_ne; [apply Hl; set_solver|].
      intros Heq. subst k'. apply Hk. apply list_elem_of_fmap.
      by exists (k, v'). }
    exists m'. split; [|split; [congruence|split; [congruence|]]].
    + rewrite Hfold. f_equal. rewrite filter_cons. cbn [snd].
      destruct (decide (state v = MODIFIED)); cbn [length]; lia.
    + intros a. rewrite Hdir, Hdir1. cbn [fmap list_fmap fst].
      destruct (decide (a = k)) as [->|Hne].
      * rewrite decide_False by done. rewrite lookup_alter_eq.
        rewrite decide_True by set_solver. done.
      * rewrite lookup_alter_ne by done.
        destruct (decide (a ∈ l.*1)).
        -- rewrite decide_True by (apply elem_of_cons; auto). done.
        -- rewrite decide_False; [done|].
           by intros [?|?]%elem_of_cons.
Qed.

(** X24.  [flush_all] returns true, with or without a driver, and leaves no
    line Modified: every entry that was Modified is Shared in L3, every
    other entry is as it was, and [writebacks_performed] has grown by the
    number of entries that were Modified. *)
Theorem flush_all_leaves_nothing_modified (m : t) :
  ∃ m',
    flush_all m = (true, m')
    ∧ directory_ m' = flushed <$> directory_ m
    ∧ (∀ addr, get_state addr m' ≠ MODIFIED)
    ∧ writebacks_performed (stats_ m')
      = wrap64
          (writebacks_performed (stats_ m)
           + Z.of_nat
               (length (filter (λ kv, state kv.2 = MODIFIED)
                          (map_to_list (directory_ m))))).
Proof.
  unfold flush_all.
  destruct (flush_loop (map_to_list (directory_ m)) m 0)
    as (m' & -> & Hc & Hw & Hdir).
  { apply NoDup_fst_map_to_list. }
  { intros k v. apply elem_of_map_to_list. }
  eexists. split; [reflexivity|].
  assert (directory_ m' = flushed <$> directory_ m) as Hmap.
  { apply map_eq. intros a. rewrite Hdir, lookup_fmap.
    destruct (decide (a ∈ (map_to_list (directory_ m)).*1)) as [|Hout];
      [done|].
    destruct (directory_ m !! a) as [e|] eqn:He; [|done].
    exfalso. apply Hout. apply list_elem_of_fmap. exists (a, e).
    split; [done|]. by apply elem_of_map_to_list. }
  split; [exact Hmap|]. split.
  - intros addr. unfold get_state, get_entry. cbn [directory_ add_writebacks_performed set_stats].
    rewrite Hmap, lookup_fmap.
    destruct (directory_ m !! _) as [e|]; cbn; [apply flushed_state|done].
  - cbn. by rewrite Hw, Z.add_0_l.
Qed.

(** One iteration of the loop of [batch_invalidate]. *)
Lemma batch_invalidate_step_effect b m addr :
  ∃ m',
    batch_invalidate_step (b, m) addr
    = (match directory_ m !! align_to_cache_line m addr with
       | Some _ => b && driver_ m
       | None => b
       end, m')
    ∧ driver_ m' = driver_ m
    ∧ cache_line_size_ m' = cache_line_size_ m
    ∧ invalidations_sent (stats_ m') = invalidations_sent (stats_ m)
    ∧ writebacks_performed (stats_ m') = writebacks_performed (stats_ m)
    ∧ get_state addr m' = INVALID
    ∧ ∀ a, get_state a m = INVALID → get_state a m' = INVALID.
Proof.
  unfold batch_invalidate_step, get_entry.
  set (line := align_to_cache_line m addr).
  destruct (directory_ m !! line) as [e|] eqn:He.
  - set (m1 := set_directory
                 (<[line := with_state INVALID e]> (directory_ m)) m).
    destruct (send_counts INVALIDATE line m1)
      as (m2 & -> & Hd2 & Hc2 & Hdir2 & _ & Hs2).
    cbn [driver_ cache_line_size_ m1 set_directory] in Hd2, Hc2.
    exists m2. split; [done|]. split; [done|]. split; [done|].
    split; [rewrite Hs2; by destruct (driver_ m1)|].
    split; [rewrite Hs2; by destruct (driver_ m1)|].
    assert (∀ a, get_state a m2
                 = match <[line := with_state INVALID e]> (directory_ m)
                         !! align_to_cache_line m a with
                   | Some entry => state entry
                   | None => INVALID
                   end) as Hget.
    { intros a. rewrite (get_state_lookup m) by done. by rewrite Hdir2. }
    split.
    + rewrite Hget. fold line. by rewrite lookup_insert_eq.
    + intros a Ha. rewrite Hget. unfold get_state, get_entry in Ha.
      destruct (decide (align_to_cache_line m a = line)) as [->|Hne].
      * by rewrite lookup_insert_eq.
      * by rewrite lookup_insert_ne.
  - exists m. split; [done|]. split; [done|]. split; [done|].
    split; [done|]. split; [done|]. split; [|done].
    unfold get_state, get_entry. fold line. by rewrite He.
Qed.

Lemma batch_invalidate_loop addrs : ∀ b m,
  ∃ b' m',
    foldl batch_invalidate_step (b, m) addrs = (b', m')
    ∧ driver_ m' = driver_ m
    ∧ cache_line_size_ m' = cache_line_size_ m
    ∧ invalidations_sent (stats_ m') = invalidations_sent (stats_ m)
    ∧ writebacks_performed (stats_ m') = writebacks_performed (stats_ m)
    ∧ (driver_ m = true → b' = b)
    ∧ ∀ a, a ∈ addrs ∨ get_state a m = INVALID → get_state a m' = INVALID.
Proof.
  induction addrs as [|addr addrs IH]; intros b m.
  - exists b, m. cbn. do 6 (split; [done|]). intros a [Ha|Ha]; [|done].
    by apply elem_of_nil in Ha.
  - destruct (batch_invalidate_step_effect b m addr)
      as (m1 & Hstep & Hd1 & Hc1 & Hi1 & Hw1 & Hself & Hkeep).
    cbn [foldl]. rewrite Hstep.
    destruct (IH (match directory_ m !! align_to_cache_line m addr with
                  | Some _ => b && driver_ m
                  | None => b
                  end) m1)
      as (b' & m' & Hfold & Hd & Hc & Hi & Hw & Hb & Hall).
    exists b', m'. split; [done|].
    split; [congruence|]. split; [congruence|]. split; [congruence|].
    split; [congruence|]. split.
    + intros Hdrv. rewrite Hb by congruence. rewrite Hdrv.
      destruct (directory_ m !! _); [apply andb_true_r|done].
    + intros a [Ha|Ha].
      * apply elem_of_cons in Ha as [->|Ha]; apply Hall; auto.
      * apply Hall. right. by apply Hkeep.
Qed.

(** X25.  After [batch_invalidate], every address of the batch reads as
    Invalid, whether it had an entry or not and whether the transport call
    succeeded or not.  [invalidations_sent] grows by the length of the
    batch, also for addresses without an entry, for which nothing is sent;
    [writebacks_performed] does not move, also for lines that were
    Modified.  With a driver the call returns true. *)
Theorem batch_invalidate_invalidates_all (addrs : list Z) (m : t) :
  ∃ b m',
    batch_invalidate addrs m = (b, m')
    ∧ (∀ a, a ∈ addrs → get_state a m' = INVALID)
    ∧ invalidations_sent (stats_ m')
      = wrap64 (invalidations_sent (stats_ m) + Z.of_nat (length addrs))
    ∧ writebacks_performed (stats_ m') = writebacks_performed (stats_ m)
    ∧ (driver_ m = true → b = true).
Proof.
  unfold batch_invalidate.
  destruct (batch_invalidate_loop addrs true m)
    as (b' & m' & -> & Hd & Hc & Hi & Hw & Hb & Hall).
  eexists _, _. split; [reflexivity|].
  split; [|split; [|split; [|done]]].
  - intros a Ha. rewrite (get_state_lookup m') by done.
    unfold add_invalidations_sent, set_stats. cbn [directory_].
    specialize (Hall a (or_introl Ha)). unfold get_state, get_entry in Hall.
    exact Hall.
  - unfold add_invalidations_sent, set_stats. cbn. by rewrite Hi.
  - unfold add_invalidations_sent, set_stats. cbn. exact Hw.
Qed.

(** X26.  The two tier moves.  With a driver, [promote_to_l1] returns true
    and the line is in L1 with the state it had; a line without an entry
    gets one, Invalid and in L1.  [demote_to_l3] always returns true and
    leaves the line in L3; a line that was Modified outside L3 is Shared
    afterwards, any other state is kept. *)
Theorem tier_moves (m : t) (addr : Z) :
  (driver_ m = true →
   (promote_to_l1 addr m).1 = true
   ∧ get_tier addr (promote_to_l1 addr m).2 = L1_GPU
   ∧ get_state addr (promote_to_l1 addr m).2 = get_state addr m
   ∧ is_Some (get_entry (align_to_cache_line m addr) (promote_to_l1 addr m).2))
  ∧ (demote_to_l3 addr m).1 = true
  ∧ get_tier addr (demote_to_l3 addr m).2 = L3_CXL
  ∧ get_state addr (demote_to_l3 addr m).2
    = (if decide (get_tier addr m ≠ L3_CXL ∧ get_state addr m = MODIFIED)
       then SHARED else get_state addr m).
Proof.
  set (line := align_to_cache_line m addr).
  split; [intros Hd|].
  - unfold promote_to_l1. fold line.
    assert (∃ e m1, get_or_create_entry line m = (e, m1)
              ∧ driver_ m1 = true ∧ cache_line_size_ m1 = cache_line_size_ m
              ∧ directory_ m1 !! line = Some e
              ∧ state e = get_state addr m)
      as (e & m1 & -> & Hd1 & Hc1 & He1 & Hst1).
    { unfold get_or_create_entry, get_state, get_entry. fold line.
      destruct (directory_ m !! line) as [e|] eqn:He; eexists _, _;
        (split; [reflexivity|]); repeat split; try done.
      cbn. apply lookup_insert_eq. }
    destruct (decide (tier e = L1_GPU)) as [Hti|Hti].
    + cbn [fst snd]. split; [done|].
      rewrite (get_tier_lookup m), (get_state_lookup m) by done. fold line.
      unfold get_entry. rewrite He1. done.
    + destruct (send_with_driver READ line m1)
        as (m2 & -> & Hd2 & Hc2 & Hdir2 & _); [done|].
      cbn [fst snd]. split; [done|].
      rewrite (get_tier_lookup m), (get_state_lookup m) by (cbn; congruence).
      fold line. unfold get_entry. cbn. rewrite lookup_insert_eq. done.
  - unfold demote_to_l3, get_tier, get_state, get_entry. fold line.
    destruct (directory_ m !! line) as [e|] eqn:He.
    + destruct (decide (tier e = L3_CXL)) as [Hti|Hti].
      * cbn [fst snd]. unfold get_entry. fold line. rewrite He.
        split; [done|]. split; [done|].
        rewrite decide_False; [done|]. intros [? _]. done.
      * assert (∃ e1 m1,
                  (if decide (state e = MODIFIED) then
                     let '(_, m') :=
                       send_coherence_op_to_fpga WRITEBACK line m in
                     (with_state SHARED e, add_writebacks_performed 1 m')
                   else (e, m)) = (e1, m1)
                  ∧ cache_line_size_ m1 = cache_line_size_ m
                  ∧ state e1 = (if decide (state e = MODIFIED)
                                then SHARED else state e))
          as (e1 & m1 & -> & Hc1 & Hst1).
        { destruct (decide (state e = MODIFIED)).
          - destruct (send_effect WRITEBACK line m)
              as (m' & -> & _ & Hc' & _). by eexists _, _.
          - by eexists _, _. }
        cbn [fst snd]. split; [done|].
        rewrite (align_frame m) by (cbn; congruence). fold line.
        cbn. rewrite lookup_insert_eq. cbn. split; [done|].
        rewrite Hst1. destruct (decide (state e = MODIFIED)) as [Hm|Hm].
        -- by rewrite decide_True.
        -- rewrite decide_False; [done|]. by intros [_ ?].
    + cbn [fst snd]. unfold get_entry. fold line. rewrite He.
      split; [done|]. split; [done|].
      rewrite decide_False; [done|]. intros [? _]. done.
Qed.

End CoherenceProperties.

(** ** The allocator facade *)

Section FacadeProperties.
Import CXLMemoryAllocator.

(** [cxl_malloc] on an initialised allocator whose manager can divide by its
    page size and whose cursor is not null. *)
Lemma cxl_malloc_result size layer now a mm :
  initialized_ a = true →
  memory_manager_ a = Some mm →
  CXLMemoryManager.page_size_ mm ≠ 0 →
  CXLMemoryManager.next_virtual_addr_ mm ≠ 0 →
  ∃ a1 mm1,
    cxl_malloc size layer now a
    = Some (CXLMemoryManager.next_virtual_addr_ mm, a1)
    ∧ CXLMemoryManager.allocate size layer CXLMemoryManager.L3_CXL_POOL now mm
      = Some (CXLMemoryManager.next_virtual_addr_ mm, mm1)
    ∧ initialized_ a1 = true
    ∧ memory_manager_ a1 = Some mm1
    ∧ handle_map_ a1
      = <[CXLMemoryManager.next_virtual_addr_ mm :=
            {| virtual_addr := CXLMemoryManager.next_virtual_addr_ mm;
               size_bytes := size; layer_id := layer |}]> (handle_map_ a)
    ∧ total_allocations (stats_ a1)
      = wrap64 (total_allocations (stats_ a) + 1)
    ∧ total_deallocations (stats_ a1) = total_deallocations (stats_ a)
    ∧ current_allocated_bytes (stats_ a1)
      = wrap64 (current_allocated_bytes (stats_ a) + size).
Proof.
  intros Hinit Hmm Hps Hcur.
  destruct (allocate_returns_cursor size layer CXLMemoryManager.L3_CXL_POOL
              now mm Hps) as (mm1 & Halloc & _).
  unfold cxl_malloc. rewrite Hinit, Hmm. cbn [negb mbind option_bind].
  rewrite Halloc. cbn [mbind option_bind].
  apply Z.eqb_neq in Hcur. rewrite Hcur.
  eexists _, mm1. split; [reflexivity|]. split; [done|].
  split; [done|]. done.
Qed.

(** X27.  Through the facade, memory is allocated in L3 and moves to L1 on
    first use.  On an initialised allocator whose manager has an aligned,
    non-null cursor and room in L1 for one page, [cxl_malloc] returns the
    cursor as pointer, and [cxl_access] of that pointer at any offset inside
    the allocation returns pointer plus offset; the page of that address was
    in L3 before the access and is in L1 after it. *)
Theorem malloc_then_access_promotes
    (a : t) (mm : CXLMemoryManager.t) (size layer offset now' : Z)
    (now : Z → Z) :
  initialized_ a = true →
  memory_manager_ a = Some mm →
  0 < CXLMemoryManager.page_size_ mm →
  0 < CXLMemoryManager.next_virtual_addr_ mm →
  (CXLMemoryManager.page_size_ mm | CXLMemoryManager.next_virtual_addr_ mm) →
  CXLMemoryManager.next_virtual_addr_ mm + size
    + CXLMemoryManager.page_size_ mm < two64 →
  CXLMemoryManager.can_fit_in_tier CXLMemoryManager.L1_GPU_LOCAL
    (CXLMemoryManager.page_size_ mm) mm = true →
  0 <= offset < size →
  ∃ ptr a1 mm1 a2 mm2,
    cxl_malloc size layer now a = Some (ptr, a1)
    ∧ ptr = CXLMemoryManager.next_virtual_addr_ mm
    ∧ memory_manager_ a1 = Some mm1
    ∧ CXLMemoryManager.is_in_cache (ptr + offset)
        CXLMemoryManager.L3_CXL_POOL mm1 = Some true
    ∧ cxl_access ptr offset now' a1 = Some (ptr + offset, a2)
    ∧ memory_manager_ a2 = Some mm2
    ∧ CXLMemoryManager.is_in_cache (ptr + offset)
        CXLMemoryManager.L1_GPU_LOCAL mm2 = Some true.
Proof.
  intros Hinit Hmm Hps Hcur Hdiv Hfit Hroom Hoff.
  set (ptr := CXLMemoryManager.next_virtual_addr_ mm) in *.
  destruct (cxl_malloc_result size layer now a mm)
    as (a1 & mm1 & Hmalloc & Halloc & Hinit1 & Hmm1 & Hmap1 & _);
    [done | done | lia | lia |].
  fold ptr in Hmalloc, Halloc, Hmap1.
  destruct (allocated_page size layer CXLMemoryManager.L3_CXL_POOL now mm
              offset)
    as (mm1' & Halloc' & Hps1 & Hkey & Hpage);
    [lia | lia | lia | done | lia | done |].
  fold ptr in Halloc', Hkey, Hpage.
  rewrite Halloc in Halloc'. injection Halloc' as <-.
  change (CXLMemoryManager.placed_tier size CXLMemoryManager.L3_CXL_POOL mm)
    with CXLMemoryManager.L3_CXL_POOL in Hpage.
  destruct (allocate_placed size layer CXLMemoryManager.L3_CXL_POOL now mm)
    as (mm1' & Halloc' & _ & Hl1size & _ & Hl1pages); [lia|].
  fold ptr in Halloc'. rewrite Halloc in Halloc'. injection Halloc' as <-.
  change (CXLMemoryManager.placed_tier size CXLMemoryManager.L3_CXL_POOL mm)
    with CXLMemoryManager.L3_CXL_POOL in Hl1pages.
  rewrite decide_False in Hl1pages by done.
  set (page := CXLMemoryManager.make_page ptr
                 (CXLMemoryManager.physical_cursor
                    CXLMemoryManager.L3_CXL_POOL mm)
                 CXLMemoryManager.L3_CXL_POOL layer
                 (CXLMemoryManager.page_size_ mm) now
                 (offset / CXLMemoryManager.page_size_ mm)) in *.
  destruct (update_access_tracking_page (ptr + offset) now' mm1 page)
    as (mm2 & Hacc & Hps2 & Hl1size2 & Hl1pages2 & Hpage2); [lia | done |].
  set (page2 := CXLMemoryManager.with_access
                  ((CXLMemoryManager.access_count page + 1) mod 2 ^ 32)
                  now' page) in *.
  destruct (promote_to_l1_fits (ptr + offset) mm2 page2)
    as (mm3 & Hpromote & Hin3); [lia | done | done | |].
  { unfold CXLMemoryManager.can_fit_in_tier in *.
    by rewrite Hl1pages2, Hps2, Hl1size2, Hl1pages, Hps1, Hl1size. }
  assert ((CXLMemoryManager.page_size_ mm1 =? 0) = false) as Hnz1
    by (apply Z.eqb_neq; lia).
  assert ((CXLMemoryManager.page_size_ mm2 =? 0) = false) as Hnz2
    by (apply Z.eqb_neq; lia).
  exists ptr, a1, mm1, (set_manager mm3 a1), mm3.
  split; [done|]. split; [done|]. split; [done|]. split.
  { unfold CXLMemoryManager.is_in_cache. by rewrite Hnz1, Hpage. }
  split; [|done].
  unfold cxl_access. rewrite Hinit1. cbn [negb orb].
  assert ((ptr =? 0) = false) as -> by (apply Z.eqb_neq; lia).
  rewrite Hmap1, lookup_insert_eq. cbn [virtual_addr].
  assert (wrap64 (ptr + offset) = ptr + offset) as ->.
  { unfold wrap64. apply Z.mod_small. unfold two64 in *. lia. }
  rewrite Hmm1. cbn [mbind option_bind]. rewrite Hacc.
  cbn [mbind option_bind].
  unfold CXLMemoryManager.is_in_cache at 1. rewrite Hnz2, Hpage2.
  cbn [mbind option_bind CXLMemoryManager.tier page2 page
       CXLMemoryManager.with_access CXLMemoryManager.make_page].
  rewrite bool_decide_eq_false_2 by done.
  unfold CXLMemoryManager.is_in_cache at 1. rewrite Hnz2, Hpage2.
  cbn [mbind option_bind CXLMemoryManager.tier page2 page
       CXLMemoryManager.with_access CXLMemoryManager.make_page].
  rewrite bool_decide_eq_false_2 by done.
  rewrite Hpromote. done.
Qed.

Lemma malloc_then_access_promotes_witness :
  ∃ a1 a2,
    cxl_malloc 10000 0 (λ _, 0) (initialize 12 3 128 new).2
    = Some (0x100000000, a1)
    ∧ cxl_access 0x100000000 5000 1 a1 = Some (0x100000000 + 5000, a2).
Proof.
  destruct (malloc_then_access_promotes (initialize 12 3 128 new).2
              (CXLMemoryManager.new 12 3 128 4096) 10000 0 5000 1 (λ _, 0))
    as (ptr & a1 & mm1 & a2 & mm2 & Hmalloc & -> & _ & _ & Haccess & _);
    [reflexivity | reflexivity | reflexivity | reflexivity
    | by exists 1048576 | reflexivity | reflexivity
    | split; [discriminate | reflexivity] |].
  exists a1, a2. split; [exact Hmalloc | exact Haccess].
Defined.

(** X28.  [cxl_malloc] followed by [cxl_free] of the pointer: the handle is
    gone, a later [cxl_access] of the pointer returns null and changes
    nothing, [current_allocated_bytes] is back where it was (as a 64-bit
    value) with one allocation and one deallocation counted, and the
    virtual cursor of the manager stays advanced, so the address range is
    not handed out again. *)
Theorem malloc_then_free
    (a : t) (mm : CXLMemoryManager.t) (size layer offset now' : Z)
    (now : Z → Z) :
  initialized_ a = true →
  memory_manager_ a = Some mm →
  CXLMemoryManager.page_size_ mm ≠ 0 →
  CXLMemoryManager.next_virtual_addr_ mm ≠ 0 →
  ∃ ptr a1 a2 mm2,
    cxl_malloc size layer now a = Some (ptr, a1)
    ∧ cxl_free ptr a1 = Some a2
    ∧ handle_map_ a2 = delete ptr (handle_map_ a)
    ∧ cxl_access ptr offset now' a2 = Some (0, a2)
    ∧ total_allocations (stats_ a2)
      = wrap64 (total_allocations (stats_ a) + 1)
    ∧ total_deallocations (stats_ a2)
      = wrap64 (total_deallocations (stats_ a) + 1)
    ∧ current_allocated_bytes (stats_ a2)
      = wrap64 (current_allocated_bytes (stats_ a))
    ∧ memory_manager_ a2 = Some mm2
    ∧ CXLMemoryManager.next_virtual_addr_ mm2
      = wrap64 (CXLMemoryManager.next_virtual_addr_ mm
                + CXLMemoryManager.required_bytes_for size mm).
Proof.
  intros Hinit Hmm Hps Hcur.
  set (ptr := CXLMemoryManager.next_virtual_addr_ mm) in *.
  destruct (cxl_malloc_result size layer now a mm Hinit Hmm Hps Hcur)
    as (a1 & mm1 & Hmalloc & Halloc & Hinit1 & Hmm1 & Hmap1 & Hta & Htd & Hcb).
  fold ptr in Hmalloc, Halloc, Hmap1.
  destruct (allocate_returns_cursor size layer CXLMemoryManager.L3_CXL_POOL
              now mm Hps) as (mm1' & Halloc' & _ & Hnext & _).
  fold ptr in Halloc', Hnext. rewrite Halloc in Halloc'.
  injection Halloc' as <-.
  assert ((ptr =? 0) = false) as Hnull by (by apply Z.eqb_neq).
  assert (cxl_free ptr a1
          = Some {| memory_manager_ :=
                      Some (CXLMemoryManager.deallocate ptr mm1);
                    handle_map_ := delete ptr (handle_map_ a1);
                    stats_ :=
                      {| total_allocations := total_allocations (stats_ a1);
                         total_deallocations :=
                           wrap64 (total_deallocations (stats_ a1) + 1);
                         current_allocated_bytes :=
                           wrap64 (current_allocated_bytes (stats_ a1) - size);
                         peak_allocated_bytes :=
                           peak_allocated_bytes (stats_ a1) |};
                    initialized_ := initialized_ a1 |}) as Hfree.
  { unfold cxl_free. rewrite Hinit1, Hnull. cbn [negb orb].
    rewrite Hmap1, lookup_insert_eq, Hmm1. done. }
  eexists ptr, a1, _, _. split; [done|]. split; [exact Hfree|].
  cbn [handle_map_ stats_ memory_manager_ total_allocations
       total_deallocations current_allocated_bytes].
  split; [by rewrite Hmap1, delete_insert_eq|].
  split.
  { unfold cxl_access. cbn [initialized_ handle_map_].
    rewrite Hinit1, Hnull. cbn [negb orb]. by rewrite lookup_delete_eq. }
  split; [done|]. split; [by rewrite Htd|]. split.
  { rewrite Hcb. unfold wrap64. rewrite Zminus_mod_idemp_l. f_equal. lia. }
  split; [done|].
  rewrite <- Hnext. unfold CXLMemoryManager.deallocate.
  destruct (CXLMemoryManager.page_table_ mm1 !! ptr) as [page|]; [|done].
  by destruct (CXLMemoryManager.tier page).
Qed.

Lemma malloc_then_free_witness :
  ∃ a1 a2,
    cxl_malloc 10000 0 (λ _, 0) (initialize 12 3 128 new).2
    = Some (0x100000000, a1)
    ∧ cxl_free 0x100000000 a1 = Some a2
    ∧ cxl_access 0x100000000 0 1 a2 = Some (0, a2).
Proof.
  destruct (malloc_then_free (initialize 12 3 128 new).2
              (CXLMemoryManager.new 12 3 128 4096) 10000 0 0 1 (λ _, 0))
    as (ptr & a1 & a2 & mm2 & Hmalloc & Hfree & _ & Haccess & _);
    [reflexivity | reflexivity | discriminate | discriminate |].
  assert (ptr = 0x100000000) as ->.
  { revert Hmalloc. unfold cxl_malloc, CXLMemoryManager.allocate.
    cbn [initialize snd initialized_ memory_manager_ negb mbind option_bind
         CXLMemoryManager.page_size_ CXLMemoryManager.new Z.eqb
         CXLMemoryManager.next_virtual_addr_].
    by intros [= <- _]. }
  exists a1, a2. split; [exact Hmalloc|]. split; [exact Hfree | exact Haccess].
Defined.

End FacadeProperties.
